(** * osint-agents: the task orchestration engine

    A shallow embedding of [agents/mother_agent.py], of the classifier copy in
    [agents/run_case.py] and of the tool invoker of
    [agents/spiderfoot_agent.py], followed by the properties the specification
    states about them.

    Conventions of the embedding:
    - a Python [str] is a [string]; its characters are the code points 0..255,
      and the character classes below are Python's, restricted to that range;
    - a Python [int] is a [Z], and a [datetime] is the [Z] of its timestamp;
    - the outside world (the wall clock, the spawned processes) is an oracle
      [World]; effectful code is a function of the world and of a state [St]
      that counts the calls made so far and records them as a trace of events;
    - a raised [Exception] is the [Raise] outcome of a computation;
    - [logger] calls are recorded where the driver reports the outcome of the
      run (the summary failure, the final tally and the line that names the
      report); the progress lines of the retry loop do not influence control
      flow and are left out of the trace. *)

From Stdlib Require Import ZArith Lia List Ascii String Permutation.
From stdpp Require Import gmap strings list pretty.

Open Scope string_scope.

(** ** Python primitives on strings *)

Module Py.

(** [in] on a one-character needle: [c in s]. *)
Fixpoint contains (c : ascii) (s : string) : bool :=
  match s with
  | EmptyString => false
  | String d s' => Ascii.eqb c d || contains c s'
  end.

Fixpoint all_chars (p : ascii -> bool) (s : string) : bool :=
  match s with
  | EmptyString => true
  | String d s' => p d && all_chars p s'
  end.

Definition code (c : ascii) : N := N_of_ascii c.

(** [str.isspace] on one character, which is also what [str.strip] and the
    regular expression class [\s] test: TAB..CR, FS..US, SPACE, NEL, NBSP. *)
Definition isspace (c : ascii) : bool :=
  let n := code c in
  ((9 <=? n) && (n <=? 13) || (28 <=? n) && (n <=? 31) || (n =? 32)
   || (n =? 133) || (n =? 160))%N.

(** The class [\d]: the decimal digits; below code point 256 these are 0-9. *)
Definition isdecimal (c : ascii) : bool :=
  let n := code c in ((48 <=? n) && (n <=? 57))%N.

Fixpoint lstrip (s : string) : string :=
  match s with
  | EmptyString => EmptyString
  | String c s' => if isspace c then lstrip s' else s
  end.

Fixpoint rstrip (s : string) : string :=
  match s with
  | EmptyString => EmptyString
  | String c s' =>
      match rstrip s' with
      | EmptyString => if isspace c then EmptyString else String c EmptyString
      | r => String c r
      end
  end.

(** [s.strip()] *)
Definition strip (s : string) : string := rstrip (lstrip s).

(** [str(n)], [f"{n}"] and ["%d" % n] for an int. *)
Definition str_of_int (n : Z) : string := pretty n.

(** [str(dir / name)] for a directory [dir] other than the root and the
    current one, and a [name] that holds no slash and is neither empty nor a
    dot: the directories joined in the code end with a name of their own
    ([reports], [spiderfoot], [spiderfoot_txt]), and the names joined to them
    are a case name or a slug followed by a suffix. *)
Definition joinpath (dir name : string) : string := dir +:+ "/" +:+ name.

End Py.

(** ** Regular expressions: the fragment of [re] the classifier uses *)

Module Re.

Inductive regex : Type :=
| Never
| Empty
| Sym (p : ascii -> bool)
| Cat (r1 r2 : regex)
| Alt (r1 r2 : regex)
| Star (r : regex).

(** [r+], [r?] and [r{n,}] *)
Definition Plus (r : regex) : regex := Cat r (Star r).
Definition Opt (r : regex) : regex := Alt r Empty.
Fixpoint AtLeast (n : nat) (r : regex) : regex :=
  match n with
  | O => Star r
  | S n' => Cat r (AtLeast n' r)
  end.

(** [.] without DOTALL: any character but the newline. *)
Definition not_newline (c : ascii) : bool := negb (Ascii.eqb c "010"%char).
Definition dot : regex := Sym not_newline.
Definition lit (c : ascii) : regex := Sym (Ascii.eqb c).

Fixpoint nullable (r : regex) : bool :=
  match r with
  | Never => false
  | Empty => true
  | Sym _ => false
  | Cat r1 r2 => nullable r1 && nullable r2
  | Alt r1 r2 => nullable r1 || nullable r2
  | Star _ => true
  end.

Fixpoint deriv (c : ascii) (r : regex) : regex :=
  match r with
  | Never => Never
  | Empty => Never
  | Sym p => if p c then Empty else Never
  | Cat r1 r2 =>
      if nullable r1 then Alt (Cat (deriv c r1) r2) (deriv c r2)
      else Cat (deriv c r1) r2
  | Alt r1 r2 => Alt (deriv c r1) (deriv c r2)
  | Star r1 => Cat (deriv c r1) (Star r1)
  end.

(** [re.fullmatch(r, s) is not None]: the whole of [s] is in the language of
    [r]. *)
Fixpoint fullmatch (r : regex) (s : string) : bool :=
  match s with
  | EmptyString => nullable r
  | String c s' => fullmatch (deriv c r) s'
  end.

(** The language of a pattern, as a relation. *)
Inductive Matches : regex -> string -> Prop :=
| MEmpty : Matches Empty ""
| MSym p c : p c = true -> Matches (Sym p) (String c "")
| MCat r1 r2 s1 s2 : Matches r1 s1 -> Matches r2 s2 -> Matches (Cat r1 r2) (s1 +:+ s2)
| MAltL r1 r2 s : Matches r1 s -> Matches (Alt r1 r2) s
| MAltR r1 r2 s : Matches r2 s -> Matches (Alt r1 r2) s
| MStarNil r : Matches (Star r) ""
| MStarCons r s1 s2 : Matches r s1 -> Matches (Star r) s2 -> Matches (Star r) (s1 +:+ s2).

End Re.

(** ** [guess_kind], as written in [mother_agent.py] and in [run_case.py] *)

Module Classifier.
Import Py Re.

(** [r".+@.+\..+"] *)
Definition email_re : regex :=
  Cat (Plus dot) (Cat (lit "@") (Cat (Plus dot) (Cat (lit ".") (Plus dot)))).

(** The class [[\d\s().-]] *)
Definition phone_class (c : ascii) : bool :=
  isdecimal c || isspace c || Ascii.eqb c "(" || Ascii.eqb c ")"
  || Ascii.eqb c "." || Ascii.eqb c "-".

(** [r"\+?\d[\d\s().-]{6,}$"]. The pattern is only used with [re.fullmatch],
    where the match has to end at the end of the string: there the final [$]
    holds, so it contributes the empty pattern. *)
Definition phone_re : regex :=
  Cat (Opt (lit "+")) (Cat (Sym isdecimal) (Cat (AtLeast 6 (Sym phone_class)) Empty)).

End Classifier.

(** ** The outside world and the effects of the code *)

Module subprocess.

(** [subprocess.CompletedProcess], run with [text=True, capture_output=True]. *)
Record CompletedProcess : Type := mkCompletedProcess {
  returncode : Z;
  stdout : string;
  stderr : string
}.

End subprocess.

Module Effects.
Import subprocess.

(** The exceptions (subclasses of [Exception]) that occur in the code. *)
Inductive PyExc : Type :=
| TimeoutExpired (msg : string)
| OSError (msg : string)
| KeyError (key : string)
| ValueError (msg : string)
| RuntimeError (msg : string).

(** [str(e)]; a [KeyError] prints the [repr] of its key. *)
Definition str (e : PyExc) : string :=
  match e with
  | TimeoutExpired msg | OSError msg | ValueError msg | RuntimeError msg => msg
  | KeyError key => "'" +:+ key +:+ "'"
  end.

Inductive Outcome (A : Type) : Type :=
| Ret (a : A)
| Raise (e : PyExc).
Arguments Ret {A} a.
Arguments Raise {A} e.

(** A process environment, as [os.environ.copy()] gives it. *)
Abbreviation Environ := (gmap string string).

(** What the code observes of the world: [sys.executable], the value of the
    [n]-th reading of [datetime.now()] (a timestamp), the outcome of the
    [n]-th [subprocess.run], and the order in which the futures of a pool
    complete (at each step, the position of the next one among those still
    pending). *)
Record World : Type := mkWorld {
  executable : string;
  clock : nat -> Z;
  spawn : nat -> list string -> option Environ -> option Z -> Outcome CompletedProcess;
  completion : list nat
}.

Inductive Event : Type :=
| ENow (t : Z)
| ERun (argv : list string) (env : option Environ) (timeout : option Z)
| ESleep (secs : Z)
| ELog (msg : string)
| EWrite (path text : string).

(** The calls made so far. *)
Record St : Type := mkSt {
  clock_reads : nat;
  spawned : nat;
  trace : list Event
}.

Definition st0 : St := mkSt 0 0 [].

Definition M (A : Type) : Type := World -> St -> Outcome A * St.

Definition ret {A} (a : A) : M A := fun _ st => (Ret a, st).
Definition raise {A} (e : PyExc) : M A := fun _ st => (Raise e, st).
Definition bind {A B} (m : M A) (k : A -> M B) : M B :=
  fun w st =>
    match m w st with
    | (Ret a, st') => k a w st'
    | (Raise e, st') => (Raise e, st')
    end.

(** [try: m except Exception as e: ...]: the outcome of [m], reified. *)
Definition try_ {A} (m : M A) : M (Outcome A) :=
  fun w st => let '(o, st') := m w st in (Ret o, st').

(** [datetime.now()] *)
Definition now : M Z :=
  fun w st =>
    let t := clock w (clock_reads st) in
    (Ret t, mkSt (S (clock_reads st)) (spawned st) (trace st ++ [ENow t])).

(** [subprocess.run(argv, text=True, capture_output=True, env=env, timeout=timeout)] *)
Definition subprocess_run (argv : list string) (env : option Environ) (timeout : option Z)
  : M CompletedProcess :=
  fun w st =>
    (spawn w (spawned st) argv env timeout,
     mkSt (clock_reads st) (S (spawned st)) (trace st ++ [ERun argv env timeout])).

(** [time.sleep(secs)] *)
Definition sleep (secs : Z) : M unit :=
  fun _ st => (Ret tt, mkSt (clock_reads st) (spawned st) (trace st ++ [ESleep secs])).

(** A [logger] call whose message the driver's report consists of. *)
Definition log (msg : string) : M unit :=
  fun _ st => (Ret tt, mkSt (clock_reads st) (spawned st) (trace st ++ [ELog msg])).

(** The command lines launched and the delays slept in a trace. *)
Definition launches (evs : list Event) : list (list string) :=
  flat_map (fun ev => match ev with ERun argv _ _ => [argv] | _ => [] end) evs.

Definition sleeps (evs : list Event) : list Z :=
  flat_map (fun ev => match ev with ESleep d => [d] | _ => [] end) evs.

Definition readings (evs : list Event) : list Z :=
  flat_map (fun ev => match ev with ENow t => [t] | _ => [] end) evs.

(** [range(a, b)] *)
Definition range (a b : Z) : list Z :=
  map (fun i => (a + Z.of_nat i)%Z) (seq 0 (Z.to_nat (b - a))).

End Effects.

Declare Scope py_scope.
Delimit Scope py_scope with py.
Notation "x <- m ;; k" := (Effects.bind m (fun x => k))
  (at level 100, m at next level, right associativity) : py_scope.
Notation "m ;;; k" := (Effects.bind m (fun _ => k))
  (at level 100, right associativity) : py_scope.

(** ** [agents/spiderfoot_agent.py]: the tool invoker *)

Module spiderfoot_agent.
Import subprocess Effects.
Open Scope py_scope.

(** [run_cmd(cmd, timeout=900)]. The streams are captured as text, so
    [cp.stdout or ""] is [cp.stdout]. *)
Definition run_cmd (cmd : list string) (timeout : Z) : M (Z * string * string) :=
  r <- try_ (subprocess_run cmd None (Some timeout)) ;;
  match r with
  | Ret cp => ret (returncode cp, stdout cp, stderr cp)
  | Raise (TimeoutExpired _) => ret (124%Z, "", "TimeoutExpired")
  | Raise e => raise e
  end.

End spiderfoot_agent.

(** ** [agents/username_agent.py]: the tool invoker *)

Module username_agent.
Import subprocess Effects.
Open Scope py_scope.

(** [run_cmd(cmd, timeout=600)], the same function as in the recon agent. *)
Definition run_cmd (cmd : list string) (timeout : Z) : M (Z * string * string) :=
  r <- try_ (subprocess_run cmd None (Some timeout)) ;;
  match r with
  | Ret cp => ret (returncode cp, stdout cp, stderr cp)
  | Raise (TimeoutExpired _) => ret (124%Z, "", "TimeoutExpired")
  | Raise e => raise e
  end.

End username_agent.

(** ** [agents/mother_agent.py] *)

Module mother_agent.
Import Py Re Classifier subprocess Effects.
Open Scope py_scope.

(** [sh(args, env=None, timeout=None)] *)
Definition sh (args : list string) (env : option Environ) (timeout : option Z)
  : M CompletedProcess :=
  subprocess_run args env timeout.

Inductive TaskStatus : Type := PENDING | RUNNING | COMPLETED | FAILED.

Definition TaskStatus_eqb (a b : TaskStatus) : bool :=
  match a, b with
  | PENDING, PENDING | RUNNING, RUNNING | COMPLETED, COMPLETED | FAILED, FAILED => true
  | _, _ => false
  end.

Record TaskResult : Type := mkTaskResult {
  target : string;
  agent : string;
  status : TaskStatus;
  start_time : option Z;
  end_time : option Z;
  returncode : option Z;
  error : option string
}.

(** Attribute assignments [t.f = x]. *)
Definition set_end_time (x : Z) (t : TaskResult) : TaskResult :=
  mkTaskResult (target t) (agent t) (status t) (start_time t) (Some x) (returncode t) (error t).
Definition set_returncode (x : Z) (t : TaskResult) : TaskResult :=
  mkTaskResult (target t) (agent t) (status t) (start_time t) (end_time t) (Some x) (error t).
Definition set_status (x : TaskStatus) (t : TaskResult) : TaskResult :=
  mkTaskResult (target t) (agent t) x (start_time t) (end_time t) (returncode t) (error t).
Definition set_error (x : string) (t : TaskResult) : TaskResult :=
  mkTaskResult (target t) (agent t) (status t) (start_time t) (end_time t) (returncode t) (Some x).

(** Paths are kept as the strings [str(path)] gives. *)
Record Config : Type := mkConfig {
  case_dir : string;
  report_dir : string;
  agents : gmap string string;
  max_retries : Z;
  parallel : bool;
  worker_count : Z
}.

(** [cfg.agents[name]] *)
Definition agents_getitem (cfg : Config) (name : string) : M string :=
  match agents cfg !! name with
  | Some p => ret p
  | None => raise (KeyError name)
  end.

(** The body of the [for attempt in range(1, cfg.max_retries + 1)] loop of
    [execute_agent] over the attempts still to make, and the final [raise].
    The two [except] clauses differ in the line they log only, so one branch
    stands for both. *)
Fixpoint execute_agent_loop (agent_path : string) (args : list string) (cfg : Config)
    (env : option Environ) (attempts : list Z) (last_exc : option PyExc)
  : M CompletedProcess :=
  match attempts with
  | [] =>
      match last_exc with
      | Some e => raise e
      | None => raise (RuntimeError "Unknown execution failure")
      end
  | attempt :: rest =>
      fun w =>
        (r <- try_ (sh (executable w :: agent_path :: args) env None) ;;
         match r with
         | Ret cp => ret cp
         | Raise e =>
             (if (attempt <? max_retries cfg)%Z
              then sleep (2 ^ (attempt - 1))
              else ret tt) ;;;
             execute_agent_loop agent_path args cfg env rest (Some e)
         end) w
  end.

Definition execute_agent (agent_path : string) (args : list string) (cfg : Config)
    (env : option Environ) : M CompletedProcess :=
  execute_agent_loop agent_path args cfg env (range 1 (max_retries cfg + 1)) None.

(** What an attempt that raised leaves in the trace when another attempt
    follows: the launch, then the delay [2 ** (attempt - 1)]. *)
Definition backoff (argv : list string) (env : option Environ) (attempt : Z) : list Event :=
  [ERun argv env None; ESleep (2 ^ (attempt - 1))].

(** [run_username]. The statements of the [try] block that follow the call
    of [execute_agent] cannot raise, so they are placed in the branch of the
    outcome [Ret]; the [except] block is the branch of the outcome [Raise]. *)
Definition run_username (value : string) (cfg : Config) (env : option Environ)
  : M TaskResult :=
  t0 <- now ;;
  let t := mkTaskResult value "username" RUNNING (Some t0) None None None in
  r <- try_ (p <- agents_getitem cfg "username" ;; execute_agent p [value] cfg env) ;;
  match r with
  | Ret cp =>
      t1 <- now ;;
      let t := set_end_time t1 t in
      let t := set_returncode (subprocess.returncode cp) t in
      let t := set_status (if (subprocess.returncode cp =? 0)%Z then COMPLETED else FAILED) t in
      let t := if negb (subprocess.returncode cp =? 0)%Z
               then set_error ("exit " +:+ str_of_int (subprocess.returncode cp)) t
               else t in
      ret t
  | Raise e =>
      t1 <- now ;;
      let t := set_end_time t1 t in
      let t := set_status FAILED t in
      let t := set_error (str e) t in
      ret t
  end.

Definition run_spiderfoot (kind value : string) (cfg : Config) (env : option Environ)
  : M TaskResult :=
  t0 <- now ;;
  let t := mkTaskResult (kind +:+ ":" +:+ value) "spiderfoot" RUNNING (Some t0) None None None in
  r <- try_ (p <- agents_getitem cfg "spiderfoot" ;; execute_agent p [value] cfg env) ;;
  match r with
  | Ret cp =>
      t1 <- now ;;
      let t := set_end_time t1 t in
      let t := set_returncode (subprocess.returncode cp) t in
      let t := set_status (if (subprocess.returncode cp =? 0)%Z then COMPLETED else FAILED) t in
      let t := if negb (subprocess.returncode cp =? 0)%Z
               then set_error ("exit " +:+ str_of_int (subprocess.returncode cp)) t
               else t in
      ret t
  | Raise e =>
      t1 <- now ;;
      let t := set_end_time t1 t in
      let t := set_status FAILED t in
      let t := set_error (str e) t in
      ret t
  end.

Definition guess_kind (v : string) : string :=
  let v := strip v in
  if fullmatch email_re v then "email"
  else if fullmatch phone_re v then "phone"
  else if contains "." v && negb (contains " " v) then "domain"
  else "username".

(** The set literal [{"domain", "email", "ip", "phone"}]. *)
Definition recon_kinds : gset string := {[ "domain"; "email"; "ip"; "phone" ]}.

(** [dispatch_task], the closure of [main] over [cfg] and [env]. *)
Definition dispatch_task (cfg : Config) (env : option Environ) (kind value : string)
  : M TaskResult :=
  if String.eqb kind "username" then run_username value cfg env
  else if bool_decide (kind ∈ recon_kinds) then run_spiderfoot kind value cfg env
  else
    t0 <- now ;;
    t1 <- now ;;
    ret (mkTaskResult value "unknown" FAILED (Some t0) (Some t1) None
           (Some ("unknown type " +:+ kind))).

(** A future of the pool: its identity (the rank of its [submit]), the
    arguments it was submitted with, and what [fut.result()] does. *)
Record Future : Type := mkFuture {
  fut_id : nat;
  fut_args : string * string;
  fut_result : Outcome TaskResult
}.

(** [{ex.submit(fn, k, v): (k, v) for k, v in tasks}]: one entry per task,
    since every [submit] gives a future of its own. The [i]-th call runs in a
    worker, [worker i k v] being what it ends with. *)
Fixpoint submit_all (worker : nat -> string -> string -> Outcome TaskResult) (i : nat)
    (tasks : list (string * string)) : list Future :=
  match tasks with
  | [] => []
  | (k, v) :: rest => mkFuture i (k, v) (worker i k v) :: submit_all worker (S i) rest
  end.

Fixpoint remove_at {A} (i : nat) (l : list A) : list A :=
  match l, i with
  | [], _ => []
  | _ :: l', O => l'
  | x :: l', S i' => x :: remove_at i' l'
  end.

(** [as_completed(fs)]: every future once, in the order of completion. *)
Fixpoint as_completed_from {A} (fuel : nat) (order : list nat) (pending : list A) : list A :=
  match fuel with
  | O => []
  | S fuel' =>
      let i := (hd 0 order mod length pending)%nat in
      match nth_error pending i with
      | Some x => x :: as_completed_from fuel' (tl order) (remove_at i pending)
      | None => []
      end
  end.

Definition as_completed {A} (order : list nat) (fs : list A) : list A :=
  as_completed_from (length fs) order fs.

(** The loop [for fut in as_completed(future_map)]. *)
Fixpoint collect (futs : list Future) (results : list TaskResult) : M (list TaskResult) :=
  match futs with
  | [] => ret results
  | fut :: rest =>
      res <- match fut_result fut with
             | Ret res => ret res
             | Raise e =>
                 let '(k, v) := fut_args fut in
                 t0 <- now ;;
                 t1 <- now ;;
                 ret (mkTaskResult (k +:+ ":" +:+ v) "unknown" FAILED (Some t0) (Some t1)
                        None (Some (str e)))
             end ;;
      collect rest (results ++ [res])
  end.

(** [ThreadPoolExecutor(max_workers=n)] refuses a pool without workers. *)
Definition ThreadPoolExecutor (max_workers : Z) : M unit :=
  if (max_workers <=? 0)%Z then raise (ValueError "max_workers must be greater than 0")
  else ret tt.

(** The [with ThreadPoolExecutor(...) as ex:] block, for any function the
    futures run. *)
Definition run_pool (cfg : Config) (worker : nat -> string -> string -> Outcome TaskResult)
    (tasks : list (string * string)) (results : list TaskResult) : M (list TaskResult) :=
  ThreadPoolExecutor (worker_count cfg) ;;;
  let future_map := submit_all worker 0 tasks in
  fun w => collect (as_completed (completion w) future_map) results w.

(** The sequential loop [for kind, value in tasks]. *)
Fixpoint run_sequential (cfg : Config) (env : option Environ) (tasks : list (string * string))
    (results : list TaskResult) : M (list TaskResult) :=
  match tasks with
  | [] => ret results
  | (kind, value) :: rest =>
      r <- dispatch_task cfg env kind value ;;
      run_sequential cfg env rest (results ++ [r])
  end.

(** "Run tasks (parallel or sequential)": the dispatcher of [main]. A worker
    runs [dispatch_task] on its own sequence of clock readings and process
    launches, [views i] for the [i]-th future. *)
Definition dispatch (cfg : Config) (env : option Environ) (views : nat -> World)
    (tasks : list (string * string)) : M (list TaskResult) :=
  let results := [] in
  if parallel cfg && negb (bool_decide (tasks = []))
  then run_pool cfg (fun i k v => fst (dispatch_task cfg env k v (views i) st0)) tasks results
  else run_sequential cfg env tasks results.

(** [sum(1 for r in results if r.status == TaskStatus.COMPLETED)] *)
Definition success_count (results : list TaskResult) : Z :=
  Z.of_nat (length (List.filter (fun r => TaskStatus_eqb (status r) COMPLETED) results)).

Definition tally_line (results : list TaskResult) : string :=
  "Investigation complete: " +:+ str_of_int (success_count results) +:+ "/"
  +:+ str_of_int (Z.of_nat (length results)) +:+ " tasks successful".

(** The message of [logger.info("Report: %s", cfg.report_dir / report_name)]. *)
Definition report_line (cfg : Config) (report_name : string) : string :=
  "Report: " +:+ joinpath (report_dir cfg) report_name.

(** The body of the [try] of "Build summary". *)
Definition build_summary (cfg : Config) (env : option Environ) : M CompletedProcess :=
  p <- agents_getitem cfg "summary" ;; execute_agent p [] cfg env.

(** [main], from the point where the targets and the case name are known:
    [targets] is what the prompt or [targets.txt] gave, [environ] is
    [os.environ]. It returns nothing in Python; here it returns the tallies it
    logs, [None] standing for the early return on an empty target list. Of
    its [logger] calls, three are recorded: the failure of the summary step,
    the tally, and the line that names the report, which is the last. *)
Definition main (cfg : Config) (environ : Environ) (case_name : string)
    (views : nat -> World) (targets : list (string * string)) : M (option (Z * Z)) :=
  if bool_decide (targets = []) then ret None
  else
    let report_name := case_name +:+ ".txt" in
    let env := Some (<["REPORT_NAME" := report_name]> environ) in
    let tasks := map (fun '(kind, value) => (kind, value)) targets in
    results <- dispatch cfg env views tasks ;;
    r <- try_ (build_summary cfg env) ;;
    match r with
    | Ret cp => ret tt
    | Raise e => log ("Summary generation failed: " +:+ str e)
    end ;;;
    log (tally_line results) ;;;
    log (report_line cfg report_name) ;;;
    ret (Some (success_count results, Z.of_nat (length results))).

End mother_agent.

Module run_case.
Import Py Re Classifier.

Definition guess_kind (v : string) : string :=
  let v := strip v in
  if fullmatch email_re v then "email"
  else if fullmatch phone_re v then "phone"
  else if contains "." v && negb (contains " " v) then "domain"
  else "username".

End run_case.

(** The strings the two patterns of the classifier accept, said without
    regular expressions. *)
Module Patterns.
Import Py Re Classifier.

(** [X@Y.Z] with [X], [Y], [Z] non-empty and free of newlines. *)
Definition email_like (s : string) : Prop :=
  exists x y z,
    s = x +:+ "@" +:+ y +:+ "." +:+ z /\
    x <> "" /\ y <> "" /\ z <> "" /\
    all_chars not_newline x = true /\ all_chars not_newline y = true /\
    all_chars not_newline z = true.

(** An optional [+], a digit, then at least six characters among digits,
    whitespace and [().-]. *)
Definition phone_like (s : string) : Prop :=
  exists sign d rest,
    s = sign +:+ String d rest /\ (sign = "" \/ sign = "+") /\
    isdecimal d = true /\ (6 <= String.length rest)%nat /\
    all_chars phone_class rest = true.

End Patterns.

(** The classifier as the specification words it: the e-mail pattern made of
    runs of non-space characters, and the domain rule asking for no whitespace
    at all. The input is stripped first, as in the code. *)
Module SpecClassifier.
Import Py Re Classifier.

Definition nonspace (c : ascii) : bool := negb (isspace c).

Definition spec_email_re : regex :=
  Cat (Plus (Sym nonspace))
    (Cat (lit "@") (Cat (Plus (Sym nonspace)) (Cat (lit ".") (Plus (Sym nonspace))))).

Definition has_whitespace (s : string) : bool := negb (all_chars nonspace s).

Definition classify_spec (raw : string) : string :=
  let raw := strip raw in
  if fullmatch spec_email_re raw then "email"
  else if fullmatch phone_re raw then "phone"
  else if contains "." raw && negb (has_whitespace raw) then "domain"
  else "username".

End SpecClassifier.

(** The vocabulary of the statements about the dispatcher. *)
Module Dispatcher.
Import Py subprocess Effects mother_agent.

(** A terminal status. *)
Definition terminal (t : TaskResult) : Prop :=
  status t = COMPLETED \/ status t = FAILED.

(** Both timestamps are set and the end is not before the start. *)
Definition timed (t : TaskResult) : Prop :=
  exists s e, start_time t = Some s /\ end_time t = Some e /\ (s <= e)%Z.

(** Successive readings of the clock do not go back. *)
Definition clock_monotone (w : World) : Prop :=
  forall n, (clock w n <= clock w (S n))%Z.

(** A result stamped with two successive readings of the clock of [w]. *)
Definition stamped (w : World) (t : TaskResult) : Prop :=
  exists n, start_time t = Some (clock w n) /\ end_time t = Some (clock w (S n)).

(** The result [t] of a task reflects the outcome [o] of its retry policy,
    which ran between the clock readings [t0] and [t1]. *)
Definition reflects (t : TaskResult) (o : Outcome CompletedProcess) (t0 t1 : Z) : Prop :=
  start_time t = Some t0 /\ end_time t = Some t1 /\
  (status t = COMPLETED <-> exists cp, o = Ret cp /\ subprocess.returncode cp = 0%Z) /\
  (status t <> COMPLETED -> status t = FAILED) /\
  (forall cp, o = Ret cp ->
     returncode t = Some (subprocess.returncode cp) /\
     (subprocess.returncode cp = 0%Z -> error t = None) /\
     (subprocess.returncode cp <> 0%Z ->
      error t = Some ("exit " +:+ str_of_int (subprocess.returncode cp)))) /\
  (forall e, o = Raise e -> returncode t = None /\ error t = Some (str e)).

(** A launch without time limit; any other event. *)
Definition untimed (ev : Event) : Prop :=
  match ev with
  | ERun _ _ timeout => timeout = None
  | _ => True
  end.

(** [subprocess.run] raises [TimeoutExpired] only when it was given a
    timeout. *)
Definition timeout_needs_limit (w : World) : Prop :=
  forall n argv env msg, spawn w n argv env None <> Raise (TimeoutExpired msg).

(** The state after one more reading of the clock. *)
Definition after_now (w : World) (st : St) : St :=
  mkSt (S (clock_reads st)) (spawned st) (trace st ++ [ENow (clock w (clock_reads st))]).

(** What both task runners do once the retry policy has ended with [r]: the
    rest of the [try] block, or the [except] block. *)
Definition finish_task (t : TaskResult) (r : Outcome CompletedProcess) : M TaskResult :=
  match r with
  | Ret cp =>
      (t1 <- now ;;
       let t := set_end_time t1 t in
       let t := set_returncode (subprocess.returncode cp) t in
       let t := set_status (if (subprocess.returncode cp =? 0)%Z then COMPLETED else FAILED) t in
       let t := if negb (subprocess.returncode cp =? 0)%Z
                then set_error ("exit " +:+ str_of_int (subprocess.returncode cp)) t
                else t in
       ret t)%py
  | Raise e =>
      (t1 <- now ;;
       let t := set_end_time t1 t in
       let t := set_status FAILED t in
       let t := set_error (str e) t in
       ret t)%py
  end.

(** The [target] field of the result of a task. *)
Definition task_label (task : string * string) : string :=
  let '(kind, value) := task in
  if bool_decide (kind ∈ recon_kinds) then kind +:+ ":" +:+ value else value.

(** How the pool settles a future: its own result, or a failed result that
    carries the message of the fault it raised. *)
Definition settles (fut : Future) (t : TaskResult) : Prop :=
  match fut_result fut with
  | Ret res => t = res
  | Raise e =>
      target t = fst (fut_args fut) +:+ ":" +:+ snd (fut_args fut) /\
      agent t = "unknown" /\ status t = FAILED /\ error t = Some (str e)
  end.

End Dispatcher.

(** Inputs the statements below are evaluated on. *)
Module Samples.
Import subprocess Effects mother_agent.

Definition sample_agents : gmap string string :=
  <["username" := "/repo/agents/username_agent.py"]>
    (<["spiderfoot" := "/repo/agents/spiderfoot_agent.py"]>
       (<["summary" := "/repo/agents/summary_agent.py"]> ∅)).

Definition sample_cfg (retries : Z) (par : bool) (workers : Z) : Config :=
  mkConfig "/repo" "/repo/reports" sample_agents retries par workers.

(** A world where no process can be launched. *)
Definition world_launch_fault : World :=
  mkWorld "python3" (fun n => Z.of_nat n)
    (fun n _ _ _ => Raise (OSError "No such file or directory")) [].

(** A world where every process runs and exits with [code]. *)
Definition world_exit (code : Z) : World :=
  mkWorld "python3" (fun n => Z.of_nat n)
    (fun n _ _ _ => Ret (mkCompletedProcess code "" "")) [2%nat; 0%nat].

(** A world where every process hits its timeout. *)
Definition world_timeout : World :=
  mkWorld "python3" (fun n => Z.of_nat n)
    (fun n _ _ _ => Raise (TimeoutExpired "timed out")) [].

(** A world where the first [n] processes exit with 0 and no later one can
    be launched. *)
Definition world_first_ok (n : nat) : World :=
  mkWorld "python3" (fun n => Z.of_nat n)
    (fun i _ _ _ => if (i <? n)%nat then Ret (mkCompletedProcess 0 "" "")
                    else Raise (OSError "No such file or directory")) [].

(** A world whose clock is set back between any two readings, every process
    exiting with 0. *)
Definition world_clock_back : World :=
  mkWorld "python3" (fun n => (- Z.of_nat n)%Z)
    (fun n _ _ _ => Ret (mkCompletedProcess 0 "" "")) [].

Definition ten_tasks : list (string * string) :=
  map (fun i => ("username", "user" +:+ pretty i)) (seq 0 10).

(** Workers of which the one of rank 3 raises. *)
Definition worker_3_raises (i : nat) (k v : string) : Outcome TaskResult :=
  if (i =? 3)%nat then Raise (RuntimeError "boom")
  else Ret (mkTaskResult v "username" COMPLETED (Some 0%Z) (Some 1%Z) (Some 0%Z) None).

End Samples.
(** ** Vocabulary of further statements *)

Module Measures.
Import Py Effects.

(** The total of a list of delays. *)
Definition total (ds : list Z) : Z := fold_right Z.add 0%Z ds.

Definition digit_or_dot (c : ascii) : bool := isdecimal c || Ascii.eqb c ".".

(** One to three decimal digits. *)
Definition octet_like (s : string) : Prop :=
  (1 <= String.length s <= 3)%nat /\ all_chars isdecimal s = true.

(** A dotted quad: four groups of one to three digits. *)
Definition ipv4_like (s : string) : Prop :=
  exists a b c d,
    s = a +:+ "." +:+ b +:+ "." +:+ c +:+ "." +:+ d /\
    octet_like a /\ octet_like b /\ octet_like c /\ octet_like d.

End Measures.

(** ** More Python primitives on strings *)

Module PyStr.
Import Py.

(** The line boundaries of [str.splitlines] below code point 256: LF, VT, FF,
    CR, FS, GS, RS and NEL; a CR followed by a LF is one boundary. *)
Definition is_linebreak (c : ascii) : bool :=
  let n := code c in
  ((10 <=? n) && (n <=? 13) || (28 <=? n) && (n <=? 30) || (n =? 133))%N.

Definition CR : ascii := "013"%char.
Definition LF : ascii := "010"%char.

(** [s.splitlines()], with [cur] the part of the current line already read. *)
Fixpoint splitlines_from (cur : string) (s : string) : list string :=
  match s with
  | EmptyString => match cur with EmptyString => [] | _ => [cur] end
  | String c s' =>
      if Ascii.eqb c CR then
        match s' with
        | String d s'' =>
            if Ascii.eqb d LF then cur :: splitlines_from "" s''
            else cur :: splitlines_from "" s'
        | EmptyString => cur :: splitlines_from "" s'
        end
      else if is_linebreak c then cur :: splitlines_from "" s'
      else splitlines_from (cur +:+ String c "") s'
  end.

Definition splitlines (s : string) : list string := splitlines_from "" s.

(** Reading a file in text mode with universal newlines: CR LF and a lone CR
    become LF. *)
Fixpoint universal_newlines (s : string) : string :=
  match s with
  | EmptyString => EmptyString
  | String c s' =>
      if Ascii.eqb c CR then
        match s' with
        | String d s'' =>
            if Ascii.eqb d LF then String LF (universal_newlines s'')
            else String LF (universal_newlines s')
        | EmptyString => String LF (universal_newlines s')
        end
      else String c (universal_newlines s')
  end.

(** [s.split(sep, 1)] for a one-character separator that occurs in [s]: the
    part before the first occurrence and the part after it. *)
Fixpoint split_once (sep : ascii) (s : string) : option (string * string) :=
  match s with
  | EmptyString => None
  | String c s' =>
      if Ascii.eqb c sep then Some ("", s')
      else match split_once sep s' with
           | Some (a, b) => Some (String c a, b)
           | None => None
           end
  end.

(** [str.lower] on one character: A-Z and the capital letters of Latin-1
    (U+00C0 to U+00DE but the multiplication sign U+00D7) move up by 32. *)
Definition lower_char (c : ascii) : ascii :=
  let n := code c in
  if ((65 <=? n) && (n <=? 90) || (192 <=? n) && (n <=? 222) && negb (n =? 215))%N
  then ascii_of_N (n + 32) else c.

Fixpoint map_chars (f : ascii -> ascii) (s : string) : string :=
  match s with
  | EmptyString => EmptyString
  | String c s' => String (f c) (map_chars f s')
  end.

(** [s.lower()] *)
Definition lower (s : string) : string := map_chars lower_char s.

(** [str.isalnum] on one character: the digits, the letters, and the
    superscript digits and vulgar fractions of Latin-1, which are numeric. *)
Definition isalnum (c : ascii) : bool :=
  let n := code c in
  ((48 <=? n) && (n <=? 57) || (65 <=? n) && (n <=? 90) || (97 <=? n) && (n <=? 122)
   || (n =? 170) || (n =? 178) || (n =? 179) || (n =? 181) || (n =? 185) || (n =? 186)
   || (188 <=? n) && (n <=? 190)
   || (192 <=? n) && (n <=? 214) || (216 <=? n) && (n <=? 246) || (248 <=? n))%N.

(** [s.lstrip(chars)], [s.rstrip(chars)] and [s.strip(chars)], for the set of
    characters [p]. *)
Fixpoint lstrip_chars (p : ascii -> bool) (s : string) : string :=
  match s with
  | EmptyString => EmptyString
  | String c s' => if p c then lstrip_chars p s' else s
  end.

Fixpoint rstrip_chars (p : ascii -> bool) (s : string) : string :=
  match s with
  | EmptyString => EmptyString
  | String c s' =>
      match rstrip_chars p s' with
      | EmptyString => if p c then EmptyString else String c EmptyString
      | r => String c r
      end
  end.

Definition strip_chars (p : ascii -> bool) (s : string) : string :=
  rstrip_chars p (lstrip_chars p s).

(** [sep.join(parts)] *)
Fixpoint join (sep : string) (parts : list string) : string :=
  match parts with
  | [] => ""
  | [x] => x
  | x :: rest => x +:+ sep +:+ join sep rest
  end.

(** [s.replace(a, b)] for one-character [a] and [b]. *)
Definition replace_char (a b : ascii) (s : string) : string :=
  map_chars (fun c => if Ascii.eqb c a then b else c) s.

End PyStr.

(** ** [agents/mother_agent.py]: entering, saving and loading the targets *)

Module mother_agent_targets.
Import Py PyStr.

(** What [input] does on the lines still to come on standard input: the
    next line, or [EOFError] when there is none. *)
Inductive Read (A : Type) : Type :=
| Got (a : A) (rest : list string)
| EOFError.
Arguments Got {A} a rest.
Arguments EOFError {A}.

Definition input (stdin : list string) : Read string :=
  match stdin with
  | [] => EOFError
  | l :: rest => Got l rest
  end.

(** The loop of [gather_targets_interactive]. The test [":" in raw] and the
    call [raw.split(":", 1)] are one match on [split_once]. *)
Fixpoint gather_targets_interactive_loop (stdin : list string) (items : list (string * string))
  : Read (list (string * string)) :=
  match stdin with
  | [] => EOFError
  | l :: rest =>
      let raw := strip_chars (Ascii.eqb ",") (strip l) in
      if String.eqb raw "" then Got items rest
      else
        match split_once ":" raw with
        | Some (k, v) =>
            gather_targets_interactive_loop rest (items ++ [(lower (strip k), strip v)])
        | None =>
            gather_targets_interactive_loop rest
              (items ++ [(mother_agent.guess_kind raw, raw)])
        end
  end.

Definition gather_targets_interactive (stdin : list string) : Read (list (string * string)) :=
  gather_targets_interactive_loop stdin [].

(** The text [maybe_save_targets] writes for a list of pairs. *)
Definition targets_text (pairs : list (string * string)) : string :=
  join (String LF "") (map (fun '(k, v) => k +:+ ": " +:+ v) pairs) +:+ String LF "".

(** [maybe_save_targets(pairs)] on a file system where [file] is the content
    of [targets.txt], [None] when it does not exist; the result is the
    content after the call. Line ends are those of POSIX: written as they
    are, read with universal newlines. *)
Definition maybe_save_targets (pairs : list (string * string)) (stdin : list string)
    (file : option string) : Read (option string) :=
  match pairs with
  | [] => Got file stdin
  | _ =>
      match input stdin with
      | EOFError => EOFError
      | Got a stdin1 =>
          let ans := lower (strip a) in
          if negb (String.eqb ans "y") then Got file stdin1
          else
            match input stdin1 with
            | EOFError => EOFError
            | Got m stdin2 =>
                let mode := if String.eqb (lower (strip m)) "" then "o" else lower (strip m) in
                let text := targets_text pairs in
                if String.eqb mode "a" then
                  let existing := match file with
                                  | Some content => universal_newlines content
                                  | None => ""
                                  end in
                  Got (Some (existing +:+ text)) stdin2
                else Got (Some text) stdin2
            end
      end
  end.

(** The loop of [load_targets_from_file] over the lines of the file. *)
Fixpoint load_targets_lines (lines : list string) (pairs : list (string * string))
  : list (string * string) :=
  match lines with
  | [] => pairs
  | l :: rest =>
      let l := strip l in
      if String.eqb l "" || negb (contains ":" l) then load_targets_lines rest pairs
      else
        match split_once ":" l with
        | Some (k, v) => load_targets_lines rest (pairs ++ [(lower (strip k), strip v)])
        | None => load_targets_lines rest pairs
        end
  end.

(** [load_targets_from_file(path)], [file] being the content of the file at
    [path], [None] when it does not exist. *)
Definition load_targets_from_file (file : option string) : list (string * string) :=
  match file with
  | None => []
  | Some content => load_targets_lines (splitlines (universal_newlines content)) []
  end.

(** The characters [ask_case_name] keeps. *)
Definition case_name_char (ch : ascii) : ascii :=
  if isalnum ch || contains ch "._- " then ch else "_"%char.

(** [ask_case_name()]; [stamp] is
    [datetime.now().strftime("%Y%m%d-%H%M%S")]. *)
Definition ask_case_name (stamp : string) (stdin : list string) : Read string :=
  match input stdin with
  | EOFError => EOFError
  | Got l rest =>
      let raw := strip l in
      if String.eqb raw "" then Got ("case-" +:+ stamp) rest
      else
        let safe := replace_char " " "_" (strip (map_chars case_name_char raw)) in
        Got (if String.eqb safe "" then "case-" +:+ stamp else safe) rest
  end.

End mother_agent_targets.

(** ** [agents/run_case.py]: the case directory and its targets file *)

Module run_case_driver.
Import Py PyStr.

(** The class [[a-zA-Z0-9._-]] of the pattern of [re.sub]. *)
Definition case_id_char (c : ascii) : bool :=
  let n := code c in
  ((97 <=? n) && (n <=? 122) || (65 <=? n) && (n <=? 90) || (48 <=? n) && (n <=? 57))%N
  || Ascii.eqb c "." || Ascii.eqb c "_" || Ascii.eqb c "-".

(** [re.sub(r"[^a-zA-Z0-9._-]+", "-", s)]: every maximal run of characters
    outside the class becomes one dash; [in_run] tells that the previous
    character was outside the class. *)
Fixpoint sub_runs (in_run : bool) (s : string) : string :=
  match s with
  | EmptyString => EmptyString
  | String c s' =>
      if case_id_char c then String c (sub_runs false s')
      else if in_run then sub_runs true s'
      else String "-" (sub_runs true s')
  end.

(** [case_id], from [sys.argv[1]]. *)
Definition case_id (arg : string) : string :=
  strip_chars (Ascii.eqb "-") (sub_runs false arg).

(** One line of the targets file, for one command-line target. *)
Definition target_line (arg : string) : string :=
  let raw := strip_chars (Ascii.eqb ",") (strip arg) in
  match split_once ":" raw with
  | Some (k, v) => lower (strip k) +:+ ": " +:+ strip v
  | None => run_case.guess_kind raw +:+ ": " +:+ raw
  end.

(** The text written to [targets.txt] for the targets [sys.argv[2:]]. *)
Definition targets_file (args : list string) : string :=
  join (String LF "") (map target_line args) +:+ String LF "".

End run_case_driver.

(** ** [agents/spiderfoot_agent.py]: the run of the recon tool *)

Module spiderfoot_agent_files.
Import Py PyStr subprocess Effects.
Open Scope py_scope.

Definition slug_char (ch : ascii) : ascii :=
  if isalnum ch || contains ch "._-@+" then ch else "_"%char.

(** [slug(s)] *)
Definition slug (s : string) : string :=
  strip_chars (Ascii.eqb "_") (map_chars slug_char s).

(** What the agent finds on its host: [SF_PY.exists()] and [str(SF_PY)], the
    two output directories [str(OUTDIR_JSON)] and [str(OUTDIR_TXT)], the value
    of [int(time.time())] when the tool has ended, and what [Path.write_text]
    does with a path and a text: it returns, or raises. *)
Record Host : Type := mkHost {
  sf_exists : bool;
  sf_py : string;
  outdir_json : string;
  outdir_txt : string;
  time_time : Z;
  fs_write : string -> string -> Outcome unit
}.

(** [Path(path).write_text(text)] *)
Definition write_text (h : Host) (path text : string) : M unit :=
  fun _ st =>
    (fs_write h path text,
     mkSt (clock_reads st) (spawned st) (trace st ++ [EWrite path text])).

Definition NL : string := String LF "".

(** The command line of the tool. *)
Definition sf_cmd (w : World) (h : Host) (target : string) : list string :=
  [executable w; sf_py h; "-s"; target; "-m"; "ALL"; "-o"; "json"; "-q"].

(** The lines of the preview, before the text of the tool. *)
Definition preview_head (target : string) (code : Z) (lines : list string) (err : string)
  : list string :=
  ["SpiderFoot target: " +:+ target;
   "exit_code: " +:+ str_of_int code;
   "stdout_lines: " +:+ str_of_int (Z.of_nat (length lines));
   "stderr_bytes: " +:+ str_of_int (Z.of_nat (String.length err));
   "";
   "(first 80 lines)";
   "----------------------------------------"].

(** [run_spiderfoot(target)]: the tool is run, then the two files are
    written. What is printed on the terminal is left out. *)
Definition run_spiderfoot (h : Host) (target : string) : M Z :=
  if negb (sf_exists h) then ret 127%Z
  else
    fun w =>
      (r <- spiderfoot_agent.run_cmd (sf_cmd w h target) 900 ;;
       let '(code, out, err) := r in
       let s := slug target in
       let ts := time_time h in
       let json_path := joinpath (outdir_json h) (s +:+ "_" +:+ str_of_int ts +:+ ".json") in
       let txt_path := joinpath (outdir_txt h) (s +:+ "_" +:+ str_of_int ts +:+ ".txt") in
       let lines := List.filter (fun ln => negb (String.eqb (strip ln) "")) (splitlines out) in
       let array_text := match lines with
                         | [] => "[]"
                         | _ => "[" +:+ NL +:+ join ("," +:+ NL) lines +:+ NL +:+ "]"
                         end in
       write_text h json_path array_text ;;;
       let preview :=
         (preview_head target code lines err
          ++ (if negb (String.eqb (strip out) "") then firstn 80 (splitlines out)
              else "<no stdout>"
                   :: (if negb (String.eqb (strip err) "") then [""; "stderr:"; err]
                       else [])))%list in
       write_text h txt_path (join NL preview) ;;;
       ret code) w.

End spiderfoot_agent_files.

(** ** Vocabulary of the statements about targets, names and the recon agent *)

Module Shapes.
Import Py PyStr.

Definition not_linebreak (c : ascii) : bool := negb (is_linebreak c).

(** A string without line boundary. *)
Definition one_line (s : string) : Prop := all_chars not_linebreak s = true.

(** A pair as the targets file holds it: a lower-case kind without colon,
    kind and value without surrounding whitespace, each on one line. *)
Definition stored_pair (kv : string * string) : Prop :=
  lower (fst kv) = fst kv /\ strip (fst kv) = fst kv /\ contains ":" (fst kv) = false /\
  one_line (fst kv) /\ strip (snd kv) = snd kv /\ one_line (snd kv).

(** Empty, or ended by a line feed. *)
Definition newline_ended (s : string) : Prop :=
  s = "" \/ exists e, s = e +:+ String LF "".

(** What [load_targets_from_file] makes of one line. *)
Definition pair_of_line (l : string) : list (string * string) :=
  mother_agent_targets.load_targets_lines [l] [].

(** The pair [mother_agent.py] reads back for a target given to
    [run_case.py] on the command line. *)
Definition parsed_target (arg : string) : string * string :=
  let raw := strip_chars (Ascii.eqb ",") (strip arg) in
  match split_once ":" raw with
  | Some (k, v) => (lower (strip k), strip v)
  | None => (run_case.guess_kind raw, strip raw)
  end.

(** A line typed at the prompt, without surrounding whitespace and commas,
    and the entry the prompt makes of it. *)
Definition typed (l : string) : string := strip_chars (Ascii.eqb ",") (strip l).

Definition entered (l : string) : string * string :=
  match split_once ":" (typed l) with
  | Some (k, v) => (lower (strip k), strip v)
  | None => (mother_agent.guess_kind (typed l), typed l)
  end.


(** The characters of a case name, and of a slug. *)
Definition name_char (c : ascii) : bool := isalnum c || contains c "_.-".
Definition slug_ok (c : ascii) : bool := isalnum c || contains c "_.-@+".

(** A character of a case name as it is, any other as an underscore. *)
Definition safe_char (c : ascii) : ascii := if name_char c then c else "_"%char.

(** The pair read back from the line written for the pair [kv]. *)
Definition reloaded (kv : string * string) : string * string := (fst kv, strip (snd kv)).

End Shapes.


(** ** [agents/summary_agent.py]: shortening a value *)

Module summary_agent.

(** The report holds any text, so a string is here the list of its code
    points. [ELLIPSIS] is U+2026. *)
Definition ELLIPSIS : N := 8230.

(** The slice [s[:k]], [k] counting from the end when negative. *)
Definition slice_to (s : list N) (k : Z) : list N :=
  if (0 <=? k)%Z then firstn (Z.to_nat k) s
  else firstn (Z.to_nat (Z.of_nat (length s) + k)) s.

(** [truncate(s, n)] *)
Definition truncate (s : list N) (n : Z) : list N :=
  if (Z.of_nat (length s) <=? n)%Z then s else (slice_to s (n - 1) ++ [ELLIPSIS])%list.

End summary_agent.
(** * Properties *)

(** ** Strings *)

#[local] Arguments String.append : simpl nomatch.

Section StringFacts.
Import Py.

Lemma append_nil_r (s : string) : s +:+ "" = s.
Proof. induction s as [|c s IH]; simpl; [reflexivity | now rewrite IH]. Qed.

Lemma append_assoc (a b c : string) : (a +:+ b) +:+ c = a +:+ (b +:+ c).
Proof. induction a as [|x a IH]; simpl; [reflexivity | now rewrite IH]. Qed.

Lemma append_eq_nil (a b : string) : a +:+ b = "" -> a = "" /\ b = "".
Proof. destruct a; simpl; [auto | discriminate]. Qed.

Lemma append_length (a b : string) :
  String.length (a +:+ b) = (String.length a + String.length b)%nat.
Proof. induction a as [|x a IH]; simpl; [reflexivity | now rewrite IH]. Qed.

Lemma all_chars_app p (a b : string) :
  all_chars p (a +:+ b) = all_chars p a && all_chars p b.
Proof.
  induction a as [|x a IH]; simpl; [reflexivity|].
  rewrite IH. now rewrite andb_assoc.
Qed.

Lemma all_chars_impl (p q : ascii -> bool) (s : string) :
  (forall c, p c = true -> q c = true) -> all_chars p s = true -> all_chars q s = true.
Proof.
  intros Hpq. induction s as [|c s IH]; simpl; [reflexivity|].
  intros [Hc Hs]%andb_true_iff. rewrite (Hpq _ Hc). now apply IH.
Qed.

Lemma contains_app c (a b : string) :
  contains c (a +:+ b) = contains c a || contains c b.
Proof.
  induction a as [|x a IH]; simpl; [reflexivity|].
  rewrite IH. now rewrite orb_assoc.
Qed.

(** A character satisfying [p] occurs in no string whose characters all
    falsify [p]. *)
Lemma contains_all_chars p c (s : string) :
  p c = false -> all_chars p s = true -> contains c s = false.
Proof.
  intros Hc. induction s as [|d s IH]; simpl; [reflexivity|].
  intros [Hd Hs]%andb_true_iff. rewrite (IH Hs), orb_false_r.
  destruct (Ascii.eqb_spec c d) as [->|]; [congruence | reflexivity].
Qed.

Lemma lstrip_all_space (s : string) : all_chars isspace s = true -> lstrip s = "".
Proof.
  induction s as [|c s IH]; simpl; [reflexivity|].
  intros [Hc Hs]%andb_true_iff. rewrite Hc. now apply IH.
Qed.

Lemma rstrip_all_space (s : string) : all_chars isspace s = true -> rstrip s = "".
Proof.
  induction s as [|c s IH]; simpl; [reflexivity|].
  intros [Hc Hs]%andb_true_iff. now rewrite (IH Hs), Hc.
Qed.

Lemma rstrip_nil_all_space (s : string) : rstrip s = "" -> all_chars isspace s = true.
Proof.
  induction s as [|c s IH]; simpl; [reflexivity|].
  destruct (rstrip s) eqn:E; [|discriminate].
  destruct (isspace c); [|discriminate]. intros _. now apply IH.
Qed.

(** [lstrip] removes a prefix of whitespace and leaves a string that does not
    start with whitespace. *)
Lemma lstrip_spec (s : string) :
  exists a, s = a +:+ lstrip s /\ all_chars isspace a = true /\
            match lstrip s with String c _ => isspace c = false | _ => True end.
Proof.
  induction s as [|c s (a & Hs & Ha & Hh)]; simpl.
  - exists "". auto.
  - destruct (isspace c) eqn:Hc.
    + exists (String c a). simpl. rewrite Hc, Ha. repeat split; [congruence | assumption].
    + exists "". simpl. auto.
Qed.

(** [rstrip] removes a suffix of whitespace and keeps the first character of
    what is left. *)
Lemma rstrip_spec (s : string) :
  exists b, s = rstrip s +:+ b /\ all_chars isspace b = true.
Proof.
  induction s as [|c s (b & Hs & Hb)]; simpl.
  - exists "". auto.
  - destruct (rstrip s) eqn:E.
    + destruct (isspace c) eqn:Hc.
      * exists (String c b). simpl in *. rewrite Hc, Hb. split; [congruence | reflexivity].
      * exists b. simpl in *. split; [congruence | assumption].
    + exists b. simpl in *. split; [congruence | assumption].
Qed.

Lemma rstrip_head (c : ascii) (s : string) :
  isspace c = false -> exists r, rstrip (String c s) = String c r.
Proof.
  intros Hc. simpl. destruct (rstrip s); rewrite ?Hc; eauto.
Qed.

Lemma rstrip_idem (s : string) : rstrip (rstrip s) = rstrip s.
Proof.
  induction s as [|c s IH]; simpl; [reflexivity|].
  destruct (rstrip s) as [|d r] eqn:E.
  - destruct (isspace c) eqn:Hc; simpl; [reflexivity | now rewrite Hc].
  - change (rstrip (String c (String d r))) with
      (match rstrip (String d r) with
       | "" => if isspace c then "" else String c ""
       | r' => String c r'
       end).
    rewrite IH. reflexivity.
Qed.

Lemma lstrip_fixed (s : string) :
  match s with String c _ => isspace c = false | _ => True end -> lstrip s = s.
Proof. destruct s as [|c s]; simpl; [reflexivity|]. now intros ->. Qed.

Lemma strip_idem (s : string) : strip (strip s) = strip s.
Proof.
  unfold strip.
  destruct (lstrip_spec s) as (a & _ & _ & Hh).
  assert (Hl : lstrip (rstrip (lstrip s)) = rstrip (lstrip s)).
  { apply lstrip_fixed. destruct (lstrip s) as [|c t]; [exact I|].
    destruct (rstrip_head c t Hh) as [r ->]. exact Hh. }
  rewrite Hl. apply rstrip_idem.
Qed.

(** What [strip] returns: the input without a whitespace prefix and a
    whitespace suffix, neither starting nor ending with whitespace. *)
Lemma strip_spec (s : string) :
  exists a b, s = a +:+ strip s +:+ b /\
              all_chars isspace a = true /\ all_chars isspace b = true /\
              lstrip (strip s) = strip s /\ rstrip (strip s) = strip s.
Proof.
  destruct (lstrip_spec s) as (a & Hs & Ha & Hh).
  destruct (rstrip_spec (lstrip s)) as (b & Hl & Hb).
  exists a, b. unfold strip. repeat split; try assumption.
  - rewrite <- Hl. exact Hs.
  - apply lstrip_fixed. destruct (lstrip s) as [|c t]; [exact I|].
    destruct (rstrip_head c t Hh) as [r ->]. exact Hh.
  - apply rstrip_idem.
Qed.

Lemma lstrip_app_space (a s : string) :
  all_chars isspace a = true -> lstrip (a +:+ s) = lstrip s.
Proof.
  induction a as [|c a IH]; simpl; [reflexivity|].
  intros [Hc Ha]%andb_true_iff. rewrite Hc. now apply IH.
Qed.

Lemma rstrip_app_space (s b : string) :
  all_chars isspace b = true -> rstrip (s +:+ b) = rstrip s.
Proof.
  intros Hb. induction s as [|c s IH]; simpl.
  - now apply rstrip_all_space.
  - now rewrite IH.
Qed.

Lemma strip_app_space (a s b : string) :
  all_chars isspace a = true -> all_chars isspace b = true ->
  strip (a +:+ s +:+ b) = strip s.
Proof.
  intros Ha Hb. unfold strip. rewrite (lstrip_app_space _ _ Ha).
  clear a Ha. induction s as [|c s IH]; simpl.
  - rewrite (lstrip_all_space _ Hb). reflexivity.
  - destruct (isspace c); [exact IH|].
    change (rstrip (String c (s +:+ b)) = rstrip (String c s)).
    simpl. now rewrite (rstrip_app_space _ _ Hb).
Qed.

End StringFacts.

(** ** The regular expression matcher decides the language of a pattern *)

Section RegexFacts.
Import Py Re.

Lemma Matches_nil_nullable r : Matches r "" -> nullable r = true.
Proof.
  intros H. remember "" as s eqn:E.
  induction H; simpl; try discriminate; try reflexivity.
  - apply append_eq_nil in E as [-> ->].
    now rewrite IHMatches1, IHMatches2.
  - now rewrite IHMatches.
  - rewrite IHMatches by assumption. apply orb_true_r.
Qed.

Lemma nullable_Matches r : nullable r = true -> Matches r "".
Proof.
  induction r; simpl; intros H; try discriminate.
  - constructor.
  - apply andb_true_iff in H as [H1 H2].
    change "" with ("" +:+ ""). constructor; auto.
  - apply orb_true_iff in H as [H|H]; [apply MAltL | apply MAltR]; auto.
  - constructor.
Qed.

Lemma deriv_sound c r : forall s, Matches (deriv c r) s -> Matches r (String c s).
Proof.
  induction r; simpl; intros s H.
  - inversion H.
  - inversion H.
  - destruct (p c) eqn:Hp; inversion H; subst. now constructor.
  - destruct (nullable r1) eqn:Hn.
    + inversion H as [| | | ? ? ? H1 | ? ? ? H1 | |]; subst.
      * inversion H1; subst.
        change (String c (s1 +:+ s2)) with (String c s1 +:+ s2).
        constructor; auto.
      * change (String c s) with ("" +:+ String c s).
        constructor; auto using nullable_Matches.
    + inversion H; subst.
      change (String c (s1 +:+ s2)) with (String c s1 +:+ s2).
      constructor; auto.
  - inversion H; subst; [apply MAltL | apply MAltR]; auto.
  - inversion H; subst.
    change (String c (s1 +:+ s2)) with (String c s1 +:+ s2).
    constructor; auto.
Qed.

Lemma deriv_complete c r s : Matches r (String c s) -> Matches (deriv c r) s.
Proof.
  intros H. remember (String c s) as t eqn:E. revert s E.
  induction H; intros s' E; simpl; try discriminate.
  - injection E as <- <-. rewrite H. constructor.
  - destruct s1 as [|d s1]; simpl in E.
    + rewrite (Matches_nil_nullable _ H). apply MAltR. auto.
    + injection E as -> <-.
      assert (H1 : Matches (Cat (deriv c r1) r2) (s1 +:+ s2)) by (constructor; auto).
      destruct (nullable r1); [apply MAltL|]; exact H1.
  - apply MAltL. auto.
  - apply MAltR. auto.
  - destruct s1 as [|d s1]; simpl in E.
    + apply IHMatches2. exact E.
    + injection E as -> <-. constructor; auto.
Qed.

Theorem fullmatch_spec r s : fullmatch r s = true <-> Matches r s.
Proof.
  revert r. induction s as [|c s IH]; intros r; simpl.
  - split; [apply nullable_Matches | apply Matches_nil_nullable].
  - rewrite IH. split; [apply deriv_sound | apply deriv_complete].
Qed.

Lemma Matches_Sym_inv p s : Matches (Sym p) s <-> exists c, s = String c "" /\ p c = true.
Proof.
  split.
  - intros H. inversion H; subst. eauto.
  - intros (c & -> & Hc). now constructor.
Qed.

Lemma Matches_Cat_inv r1 r2 s :
  Matches (Cat r1 r2) s <-> exists s1 s2, s = s1 +:+ s2 /\ Matches r1 s1 /\ Matches r2 s2.
Proof.
  split.
  - intros H. inversion H; subst. eauto.
  - intros (s1 & s2 & -> & H1 & H2). now constructor.
Qed.

Lemma Matches_Empty_inv s : Matches Empty s <-> s = "".
Proof. split; [intros H; now inversion H | intros ->; constructor]. Qed.

Lemma Matches_Star_Sym p s : Matches (Star (Sym p)) s <-> all_chars p s = true.
Proof.
  split.
  - intros H. remember (Star (Sym p)) as r eqn:E.
    induction H; try discriminate; [reflexivity|].
    injection E as ->. apply Matches_Sym_inv in H as (c & -> & Hc).
    simpl. rewrite Hc. now apply IHMatches2.
  - induction s as [|c s IH]; simpl; [constructor|].
    intros [Hc Hs]%andb_true_iff.
    change (String c s) with (String c "" +:+ s).
    constructor; [now constructor | auto].
Qed.

Lemma Matches_AtLeast_Sym n p : forall s,
  Matches (AtLeast n (Sym p)) s <-> (n <= String.length s)%nat /\ all_chars p s = true.
Proof.
  induction n as [|n IH]; intros s; simpl.
  - rewrite Matches_Star_Sym. split; [intros H; split; [lia | exact H] | tauto].
  - rewrite Matches_Cat_inv. split.
    + intros (s1 & s2 & -> & H1 & H2).
      apply Matches_Sym_inv in H1 as (c & -> & Hc). apply IH in H2 as [Hl Hs].
      simpl. rewrite Hc, Hs. split; [lia | reflexivity].
    + intros [Hl Hs]. destruct s as [|c s]; simpl in *; [lia|].
      apply andb_true_iff in Hs as [Hc Hs].
      exists (String c ""), s. repeat split.
      * now constructor.
      * apply IH. split; [lia | assumption].
Qed.

Lemma Matches_Plus_Sym p s :
  Matches (Plus (Sym p)) s <-> s <> "" /\ all_chars p s = true.
Proof.
  change (Plus (Sym p)) with (AtLeast 1 (Sym p)). rewrite Matches_AtLeast_Sym.
  destruct s; simpl; split; intros [H1 H2]; split; try assumption; try lia; congruence.
Qed.

Lemma Matches_lit_inv c s : Matches (lit c) s <-> s = String c "".
Proof.
  unfold lit. rewrite Matches_Sym_inv. split.
  - intros (d & -> & H). now apply Ascii.eqb_eq in H as ->.
  - intros ->. exists c. split; [reflexivity | apply Ascii.eqb_refl].
Qed.

Lemma Matches_Opt_inv r s : Matches (Opt r) s <-> Matches r s \/ s = "".
Proof.
  unfold Opt. split.
  - intros H. inversion H; subst; [now left | right; now apply Matches_Empty_inv].
  - intros [H | ->]; [now apply MAltL | apply MAltR; constructor].
Qed.

End RegexFacts.

(** ** The classifier *)

Section ClassifierFacts.
Import Py Re Classifier Patterns SpecClassifier.

Lemma Matches_three_parts rx ry rz (a b : ascii) s :
  Matches (Cat rx (Cat (lit a) (Cat ry (Cat (lit b) rz)))) s <->
  exists x y z,
    s = x +:+ String a "" +:+ y +:+ String b "" +:+ z /\
    Matches rx x /\ Matches ry y /\ Matches rz z.
Proof.
  repeat setoid_rewrite Matches_Cat_inv.
  repeat setoid_rewrite Matches_lit_inv.
  split.
  - intros (x & ? & -> & Hx & ? & ? & -> & -> & y & ? & -> & Hy & ? & z & -> & -> & Hz).
    exists x, y, z. repeat split; assumption.
  - intros (x & y & z & -> & Hx & Hy & Hz).
    exists x, (String a "" +:+ y +:+ String b "" +:+ z). repeat split; try assumption.
    exists (String a ""), (y +:+ String b "" +:+ z). repeat split.
    exists y, (String b "" +:+ z). repeat split; try assumption.
    exists (String b ""), z. repeat split; assumption.
Qed.

Lemma email_re_spec s : fullmatch email_re s = true <-> email_like s.
Proof.
  rewrite fullmatch_spec. unfold email_re, email_like, dot.
  rewrite Matches_three_parts. repeat setoid_rewrite Matches_Plus_Sym.
  split; intros (x & y & z & H); exists x, y, z; tauto.
Qed.

Lemma spec_email_re_spec s :
  fullmatch spec_email_re s = true <->
  exists x y z,
    s = x +:+ "@" +:+ y +:+ "." +:+ z /\ x <> "" /\ y <> "" /\ z <> "" /\
    all_chars nonspace x = true /\ all_chars nonspace y = true /\
    all_chars nonspace z = true.
Proof.
  rewrite fullmatch_spec. unfold spec_email_re.
  rewrite Matches_three_parts. repeat setoid_rewrite Matches_Plus_Sym.
  split; intros (x & y & z & H); exists x, y, z; tauto.
Qed.

Lemma phone_re_spec s : fullmatch phone_re s = true <-> phone_like s.
Proof.
  rewrite fullmatch_spec. unfold phone_re, phone_like. split.
  - intros (sign & t & -> & Hsign & Ht)%Matches_Cat_inv.
    apply Matches_Opt_inv in Hsign.
    apply Matches_Cat_inv in Ht as (ds & t' & -> & Hd & Ht').
    apply Matches_Sym_inv in Hd as (d & -> & Hd).
    apply Matches_Cat_inv in Ht' as (rest & e & -> & Hrest & ->%Matches_Empty_inv).
    apply Matches_AtLeast_Sym in Hrest as [Hl Hr].
    exists sign, d, rest. rewrite append_nil_r. simpl.
    repeat split; try assumption.
    destruct Hsign as [->%Matches_lit_inv | ->]; auto.
  - intros (sign & d & rest & -> & Hsign & Hd & Hl & Hr).
    apply Matches_Cat_inv. exists sign, (String d rest). repeat split.
    + apply Matches_Opt_inv. destruct Hsign as [-> | ->]; [now right | left].
      now apply Matches_lit_inv.
    + apply Matches_Cat_inv. exists (String d ""), rest. repeat split.
      * apply Matches_Sym_inv. eauto.
      * apply Matches_Cat_inv. exists rest, "". rewrite append_nil_r.
        repeat split; [|constructor]. now apply Matches_AtLeast_Sym.
Qed.

Lemma nonspace_not_newline c : nonspace c = true -> not_newline c = true.
Proof.
  unfold nonspace, not_newline. destruct (Ascii.eqb_spec c "010"%char) as [->|]; auto.
Qed.

(** A phone number holds no [@], so the phone rule never competes with the
    e-mail rule. *)
Lemma phone_like_not_email s : phone_like s -> ~ email_like s.
Proof.
  intros (sign & d & rest & -> & Hsign & Hd & _ & Hr) (x & y & z & E & _).
  assert (H : contains "@" (sign +:+ String d rest) = false).
  { rewrite contains_app.
    change (contains "@" (String d rest))
      with (Ascii.eqb "@" d || contains "@" rest).
    rewrite (contains_all_chars phone_class "@"%char rest eq_refl Hr).
    destruct (Ascii.eqb_spec "@"%char d) as [<-|]; [discriminate|].
    destruct Hsign as [-> | ->]; reflexivity. }
  rewrite E, !contains_app in H.
  change (contains "@" "@") with true in H. now rewrite orb_true_r in H.
Qed.

End ClassifierFacts.

Section ClassifierClaims.
Import Py Re Classifier Patterns SpecClassifier.

Lemma guess_kind_copies v : run_case.guess_kind v = mother_agent.guess_kind v.
Proof. reflexivity. Qed.

(** Surrounding whitespace, whatever its amount, does not change the kind. *)
Lemma guess_kind_padding (a s b : string) :
  all_chars isspace a = true -> all_chars isspace b = true ->
  mother_agent.guess_kind (a +:+ s +:+ b) = mother_agent.guess_kind s.
Proof.
  intros Ha Hb. unfold mother_agent.guess_kind. cbv zeta.
  now rewrite (strip_app_space a s b Ha Hb).
Qed.

(** Where the stripped input holds no whitespace, the code and the wording of
    the specification give the same kind. *)
Lemma guess_kind_refines_spec v :
  has_whitespace (strip v) = false ->
  mother_agent.guess_kind v = classify_spec v.
Proof.
  unfold has_whitespace, mother_agent.guess_kind, classify_spec. cbv zeta.
  set (s := strip v). intros Hs%negb_false_iff.
  assert (He : fullmatch email_re s = fullmatch spec_email_re s).
  { apply eq_iff_eq_true. rewrite email_re_spec, spec_email_re_spec. unfold email_like.
    split; intros (x & y & z & E & Hx & Hy & Hz & Ax & Ay & Az);
      exists x, y, z; repeat split; try assumption.
    - rewrite E, !all_chars_app in Hs. now repeat apply andb_true_iff in Hs as [Hs ?].
    - rewrite E, !all_chars_app in Hs.
      apply andb_true_iff in Hs as [_ Hs]. apply andb_true_iff in Hs as [_ Hs].
      now apply andb_true_iff in Hs as [Hs _].
    - rewrite E, !all_chars_app in Hs.
      repeat apply andb_true_iff in Hs as [_ Hs]. exact Hs.
    - revert Ax. apply all_chars_impl, nonspace_not_newline.
    - revert Ay. apply all_chars_impl, nonspace_not_newline.
    - revert Az. apply all_chars_impl, nonspace_not_newline. }
  unfold has_whitespace.
  rewrite He, Hs. rewrite (contains_all_chars nonspace " "%char s eq_refl Hs).
  reflexivity.
Qed.

Example guess_kind_samples :
  mother_agent.guess_kind "elonmusk" = "username" /\
  mother_agent.guess_kind "example.com" = "domain" /\
  mother_agent.guess_kind " user@mail.com " = "email" /\
  mother_agent.guess_kind "+1 555 123 4567" = "phone" /\
  mother_agent.guess_kind "555-1234" = "phone" /\
  mother_agent.guess_kind "1.2.3.4" = "phone" /\
  mother_agent.guess_kind "john smith" = "username".
Proof. vm_compute. repeat split. Qed.




(** C10. The kind of an input is the kind of the input without its leading
    and trailing whitespace, in both copies of the classifier; so whitespace
    put around an input, whatever its amount, does not change the kind. *)
Theorem guess_kind_strip_invariant (s : string) :
  mother_agent.guess_kind s = mother_agent.guess_kind (strip s) /\
  run_case.guess_kind s = run_case.guess_kind (strip s) /\
  (forall a b,
     all_chars isspace a = true -> all_chars isspace b = true ->
     mother_agent.guess_kind (a +:+ s +:+ b) = mother_agent.guess_kind s).
Proof.
  split; [|split].
  - unfold mother_agent.guess_kind. cbv zeta. now rewrite strip_idem.
  - unfold run_case.guess_kind. cbv zeta. now rewrite strip_idem.
  - intros a b. apply guess_kind_padding.
Qed.

Lemma guess_kind_strip_invariant_witness :
  all_chars isspace "  " = true /\ all_chars isspace (String "009" (String "010" "")) = true /\
  mother_agent.guess_kind ("  " +:+ "user@mail.com" +:+ String "009" (String "010" ""))
  = mother_agent.guess_kind "user@mail.com".
Proof.
  split; [reflexivity|]. split; [reflexivity|].
  apply (proj2 (proj2 (guess_kind_strip_invariant "user@mail.com"))); reflexivity.
Defined.

End ClassifierClaims.

(** ** The retry policy *)

Section RetryFacts.
Import subprocess Effects mother_agent.

Lemma range_nil (a b : Z) : (b <= a)%Z -> range a b = [].
Proof. intros H. unfold range. now replace (Z.to_nat (b - a)) with 0%nat by lia. Qed.

Lemma range_cons (a b : Z) : (a < b)%Z -> range a b = a :: range (a + 1) b.
Proof.
  intros H. unfold range.
  replace (Z.to_nat (b - a)) with (S (Z.to_nat (b - (a + 1)))) by lia.
  simpl. f_equal; [lia|].
  rewrite <- seq_shift, map_map. apply map_ext. intros i. lia.
Qed.

Lemma length_range (a b : Z) : length (range a b) = Z.to_nat (b - a).
Proof. unfold range. now rewrite length_map, length_seq. Qed.

(** One turn of the loop of [execute_agent]. *)
Lemma execute_agent_loop_step p args cfg env a rest last w st :
  execute_agent_loop p args cfg env (a :: rest) last w st =
  let argv := executable w :: p :: args in
  let st1 := mkSt (clock_reads st) (S (spawned st)) (trace st ++ [ERun argv env None]) in
  match spawn w (spawned st) argv env None with
  | Ret cp => (Ret cp, st1)
  | Raise e =>
      execute_agent_loop p args cfg env rest (Some e) w
        (if (a <? max_retries cfg)%Z
         then mkSt (clock_reads st1) (spawned st1) (trace st1 ++ [ESleep (2 ^ (a - 1))])
         else st1)
  end.
Proof.
  simpl. unfold bind, try_, sh, subprocess_run.
  destruct (spawn w (spawned st) (executable w :: p :: args) env None); [reflexivity|].
  destruct (a <? max_retries cfg)%Z; reflexivity.
Qed.

(** When the attempts [a], [a+1], ..., [m] all raise, each attempt but the
    last leaves its launch and its delay, the last leaves its launch, and the
    fault of the last is raised. *)
Lemma execute_agent_loop_all_raise p args cfg env w (exc : nat -> PyExc) :
  forall (n : nat) (a : Z) (st : St) (last : option PyExc),
    let argv := executable w :: p :: args in
    (a + Z.of_nat n = max_retries cfg + 1)%Z ->
    (forall j, (spawned st <= j < spawned st + n)%nat ->
               spawn w j argv env None = Raise (exc j)) ->
    execute_agent_loop p args cfg env (range a (max_retries cfg + 1)) last w st =
    (Raise (match n with
            | O => match last with
                   | Some e => e
                   | None => RuntimeError "Unknown execution failure"
                   end
            | S n' => exc (spawned st + n')%nat
            end),
     mkSt (clock_reads st) (spawned st + n)
       (trace st ++ flat_map (backoff argv env) (range a (max_retries cfg))
          ++ match n with O => [] | S _ => [ERun argv env None] end)).
Proof.
  induction n as [|n IH]; intros a st last argv Ha Hexc.
  - rewrite !range_nil by lia. simpl. rewrite Nat.add_0_r, app_nil_r.
    destruct st, last; reflexivity.
  - rewrite (range_cons a (max_retries cfg + 1)) by lia.
    rewrite execute_agent_loop_step. cbv zeta. fold argv.
    rewrite (Hexc (spawned st)) by lia.
    destruct n as [|n].
    + replace (a <? max_retries cfg)%Z with false by lia.
      rewrite (IH (a + 1)%Z) by (simpl; intros; lia).
      rewrite (range_nil a), (range_nil (a + 1)) by lia. simpl.
      rewrite Nat.add_0_r, app_nil_r. do 2 f_equal. lia.
    + replace (a <? max_retries cfg)%Z with true by lia.
      rewrite (IH (a + 1)%Z); [| lia | simpl; intros; apply Hexc; lia].
      rewrite (range_cons a (max_retries cfg)) by lia. simpl.
      rewrite <- !app_assoc. simpl. do 2 f_equal; [f_equal|]; lia.
Qed.

Lemma launches_backoff argv env (ks : list Z) :
  launches (flat_map (backoff argv env) ks) = repeat argv (length ks).
Proof. induction ks as [|k ks IH]; simpl; [reflexivity | now rewrite IH]. Qed.

Lemma sleeps_backoff argv env (ks : list Z) :
  sleeps (flat_map (backoff argv env) ks) = map (fun k => (2 ^ (k - 1))%Z) ks.
Proof. induction ks as [|k ks IH]; simpl; [reflexivity | now rewrite IH]. Qed.

Lemma launches_app evs1 evs2 : launches (evs1 ++ evs2) = (launches evs1 ++ launches evs2)%list.
Proof. apply flat_map_app. Qed.

Lemma sleeps_app evs1 evs2 : sleeps (evs1 ++ evs2) = (sleeps evs1 ++ sleeps evs2)%list.
Proof. apply flat_map_app. Qed.

Lemma execute_agent_first_returns p args cfg env w st cp :
  (1 <= max_retries cfg)%Z ->
  spawn w (spawned st) (executable w :: p :: args) env None = Ret cp ->
  execute_agent p args cfg env w st =
  (Ret cp, mkSt (clock_reads st) (S (spawned st))
             (trace st ++ [ERun (executable w :: p :: args) env None])).
Proof.
  intros Hm Hcp. unfold execute_agent.
  rewrite range_cons by lia. rewrite execute_agent_loop_step. cbv zeta.
  now rewrite Hcp.
Qed.

Lemma execute_agent_all_raise p args cfg env w st (exc : nat -> PyExc) :
  (forall j, (spawned st <= j < spawned st + Z.to_nat (max_retries cfg))%nat ->
             spawn w j (executable w :: p :: args) env None = Raise (exc j)) ->
  execute_agent p args cfg env w st =
  (Raise (if (max_retries cfg <=? 0)%Z
          then RuntimeError "Unknown execution failure"
          else exc (spawned st + Z.to_nat (max_retries cfg) - 1)%nat),
   mkSt (clock_reads st) (spawned st + Z.to_nat (max_retries cfg))
     (trace st
      ++ flat_map (backoff (executable w :: p :: args) env) (range 1 (max_retries cfg))
      ++ if (max_retries cfg <=? 0)%Z then []
         else [ERun (executable w :: p :: args) env None])).
Proof.
  intros Hexc. unfold execute_agent.
  destruct (Z.leb_spec (max_retries cfg) 0) as [Hm|Hm].
  - rewrite !range_nil by lia. simpl.
    replace (Z.to_nat (max_retries cfg)) with 0%nat by lia.
    rewrite Nat.add_0_r, app_nil_r. destruct st; reflexivity.
  - rewrite (execute_agent_loop_all_raise p args cfg env w exc
               (Z.to_nat (max_retries cfg)) 1 st None) by (try lia; exact Hexc).
    destruct (Z.to_nat (max_retries cfg)) as [|n] eqn:En; [lia|].
    do 3 f_equal. lia.
Qed.

End RetryFacts.

Section RetryClaims.
Import subprocess Effects mother_agent Samples.

(** C2. When every attempt raises, [execute_agent] makes one attempt per unit
    of [max_retries] (none when it is not positive), sleeps 2^(k-1) after
    attempt k for every k below [max_retries] and not after the last attempt,
    and then raises the fault of the last attempt, or the generic
    "Unknown execution failure" when no attempt was made. When the first
    attempt returns, it is the only attempt, nothing is slept, and its
    completed process is returned. *)
Theorem execute_agent_retry_policy p args cfg env w st :
  (forall exc : nat -> PyExc,
     (forall j, (spawned st <= j < spawned st + Z.to_nat (max_retries cfg))%nat ->
                spawn w j (executable w :: p :: args) env None = Raise (exc j)) ->
     exists evs,
       execute_agent p args cfg env w st =
       (Raise (if (max_retries cfg <=? 0)%Z
               then RuntimeError "Unknown execution failure"
               else exc (spawned st + Z.to_nat (max_retries cfg) - 1)%nat),
        mkSt (clock_reads st) (spawned st + Z.to_nat (max_retries cfg)) (trace st ++ evs)) /\
       evs = (flat_map (backoff (executable w :: p :: args) env) (range 1 (max_retries cfg))
              ++ if (max_retries cfg <=? 0)%Z then []
                 else [ERun (executable w :: p :: args) env None])%list /\
       launches evs = repeat (executable w :: p :: args) (Z.to_nat (max_retries cfg)) /\
       sleeps evs = map (fun k => (2 ^ (k - 1))%Z) (range 1 (max_retries cfg))) /\
  (forall cp,
     (1 <= max_retries cfg)%Z ->
     spawn w (spawned st) (executable w :: p :: args) env None = Ret cp ->
     execute_agent p args cfg env w st =
     (Ret cp, mkSt (clock_reads st) (S (spawned st))
                (trace st ++ [ERun (executable w :: p :: args) env None]))).
Proof.
  split.
  - intros exc Hexc. eexists. split; [|split; [reflexivity|]].
    + now apply execute_agent_all_raise.
    + rewrite launches_app, sleeps_app, launches_backoff, sleeps_backoff, length_range.
      destruct (Z.leb_spec (max_retries cfg) 0) as [Hm|Hm]; simpl.
      * rewrite !app_nil_r. replace (Z.to_nat (max_retries cfg - 1)) with 0%nat by lia.
        replace (Z.to_nat (max_retries cfg)) with 0%nat by lia. split; reflexivity.
      * rewrite app_nil_r. split; [|reflexivity].
        replace (Z.to_nat (max_retries cfg)) with (Z.to_nat (max_retries cfg - 1) + 1)%nat by lia.
        now rewrite repeat_app.
  - intros cp. apply execute_agent_first_returns.
Qed.

Lemma execute_agent_retry_policy_witness :
  (exists evs,
     execute_agent "/repo/agents/username_agent.py" ["alice"] (sample_cfg 3 false 4) None
       world_launch_fault st0 =
     (Raise (OSError "No such file or directory"), mkSt 0 3 evs) /\
     launches evs = repeat ["python3"; "/repo/agents/username_agent.py"; "alice"] 3 /\
     sleeps evs = [1; 2]%Z) /\
  execute_agent "/repo/agents/username_agent.py" ["alice"] (sample_cfg 3 false 4) None
    (world_exit 0) st0 =
  (Ret (mkCompletedProcess 0 "" ""),
   mkSt 0 1 [ERun ["python3"; "/repo/agents/username_agent.py"; "alice"] None None]).
Proof.
  split.
  - destruct (proj1 (execute_agent_retry_policy "/repo/agents/username_agent.py" ["alice"]
                       (sample_cfg 3 false 4) None world_launch_fault st0)
                (fun _ => OSError "No such file or directory"))
      as (evs & Hrun & _ & Hl & Hs).
    + intros j _. reflexivity.
    + exists evs. split; [exact Hrun|]. split; [exact Hl | exact Hs].
  - apply (proj2 (execute_agent_retry_policy "/repo/agents/username_agent.py" ["alice"]
                    (sample_cfg 3 false 4) None (world_exit 0) st0)).
    + simpl. lia.
    + reflexivity.
Defined.

End RetryClaims.

(** ** Tasks *)

Section TaskFacts.
Import Py subprocess Effects mother_agent Dispatcher.

(** [execute_agent] reads no clock, and launches nothing but its command. *)
Lemma execute_agent_loop_frame p args cfg env w :
  forall attempts last st,
  exists o st' evs,
    execute_agent_loop p args cfg env attempts last w st = (o, st') /\
    clock_reads st' = clock_reads st /\
    trace st' = (trace st ++ evs)%list /\
    readings evs = [] /\
    Forall (eq (executable w :: p :: args)) (launches evs).
Proof.
  induction attempts as [|a rest IH]; intros last st.
  - exists (Raise (match last with
                   | Some e => e
                   | None => RuntimeError "Unknown execution failure"
                   end)), st, [].
    rewrite app_nil_r. repeat split; [destruct last; reflexivity | constructor].
  - rewrite execute_agent_loop_step. cbv zeta.
    destruct (spawn w (spawned st) (executable w :: p :: args) env None) as [cp|e].
    + exists (Ret cp). eexists. exists [ERun (executable w :: p :: args) env None].
      repeat split. simpl. auto.
    + match goal with |- context [execute_agent_loop _ _ _ _ _ ?l _ ?s] =>
        destruct (IH l s) as (o & st' & evs & Hrun & Hc & Ht & Hr & Hl) end.
      exists o, st'. rewrite Hrun.
      destruct (a <? max_retries cfg)%Z; simpl in Hc, Ht.
      * exists (backoff (executable w :: p :: args) env a ++ evs)%list.
        rewrite Ht, <- !app_assoc. repeat split; try assumption.
        simpl. auto.
      * exists (ERun (executable w :: p :: args) env None :: evs).
        rewrite Ht, <- !app_assoc. repeat split; try assumption.
        simpl. auto.
Qed.

Lemma execute_agent_frame p args cfg env w st :
  exists o st' evs,
    execute_agent p args cfg env w st = (o, st') /\
    clock_reads st' = clock_reads st /\
    trace st' = (trace st ++ evs)%list /\
    readings evs = [] /\
    Forall (eq (executable w :: p :: args)) (launches evs).
Proof. apply execute_agent_loop_frame. Qed.

(** The end of a task: one reading of the clock, and a result that reflects
    how the retry policy ended. *)
Lemma finish_task_spec tgt ag t0 o w st :
  exists t,
    finish_task (mkTaskResult tgt ag RUNNING (Some t0) None None None) o w st
    = (Ret t, after_now w st) /\
    target t = tgt /\ agent t = ag /\
    reflects t o t0 (clock w (clock_reads st)).
Proof.
  destruct o as [cp|e]; simpl; unfold bind, now, ret; simpl.
  - destruct (Z.eqb_spec (subprocess.returncode cp) 0) as [E|E]; simpl;
      eexists; (split; [reflexivity|]); unfold reflects; simpl;
      repeat split; try congruence; try (intros; exfalso; congruence).
    + intros _. exists cp. auto.
    + intros [cp' [[= <-] ?]]. contradiction.
  - eexists. split; [reflexivity|]. unfold reflects; simpl.
    repeat split; try congruence.
    intros [cp' [? _]]. discriminate.
Qed.

Lemma run_username_eq value cfg env w st :
  run_username value cfg env w st =
  let t := mkTaskResult value "username" RUNNING (Some (clock w (clock_reads st)))
             None None None in
  match agents cfg !! "username" with
  | Some p =>
      let '(o, st2) := execute_agent p [value] cfg env w (after_now w st) in
      finish_task t o w st2
  | None => finish_task t (Raise (KeyError "username")) w (after_now w st)
  end.
Proof.
  unfold run_username, bind, try_, now, agents_getitem, after_now. simpl.
  destruct (agents cfg !! "username") as [p|]; simpl; [|reflexivity].
  destruct (execute_agent p [value] cfg env w _) as [[cp|e] st2]; reflexivity.
Qed.

Lemma run_spiderfoot_eq kind value cfg env w st :
  run_spiderfoot kind value cfg env w st =
  let t := mkTaskResult (kind +:+ ":" +:+ value) "spiderfoot" RUNNING
             (Some (clock w (clock_reads st))) None None None in
  match agents cfg !! "spiderfoot" with
  | Some p =>
      let '(o, st2) := execute_agent p [value] cfg env w (after_now w st) in
      finish_task t o w st2
  | None => finish_task t (Raise (KeyError "spiderfoot")) w (after_now w st)
  end.
Proof.
  unfold run_spiderfoot, bind, try_, now, agents_getitem, after_now. simpl.
  destruct (agents cfg !! "spiderfoot") as [p|]; simpl; [|reflexivity].
  destruct (execute_agent p [value] cfg env w _) as [[cp|e] st2]; reflexivity.
Qed.

End TaskFacts.

Section TaskClaims.
Import Py subprocess Effects mother_agent Dispatcher Samples.

(** C5. A task that runs a tool reads the clock, runs the retry policy in the
    state that reading leaves, and reads the clock again in the state the
    policy leaves; its result carries the two readings as [start_time] and
    [end_time], is completed exactly when the policy returned a process
    with exit code zero and is failed otherwise, with the error
    ["exit <code>"] for a non-zero exit code and the string of the fault when
    the policy raised. This holds for the username tool and for the recon
    tool. *)
Theorem tool_task_result cfg env w st kind value path :
  (agents cfg !! "username" = Some path ->
   exists t o st2,
     execute_agent path [value] cfg env w (after_now w st) = (o, st2) /\
     run_username value cfg env w st = (Ret t, after_now w st2) /\
     reflects t o (clock w (clock_reads st)) (clock w (clock_reads st2))) /\
  (agents cfg !! "spiderfoot" = Some path ->
   exists t o st2,
     execute_agent path [value] cfg env w (after_now w st) = (o, st2) /\
     run_spiderfoot kind value cfg env w st = (Ret t, after_now w st2) /\
     reflects t o (clock w (clock_reads st)) (clock w (clock_reads st2))).
Proof.
  split; intros Hp.
  - rewrite run_username_eq, Hp. cbv zeta.
    destruct (execute_agent path [value] cfg env w (after_now w st)) as [o st2].
    destruct (finish_task_spec value "username" (clock w (clock_reads st)) o w st2)
      as (t & Ht & _ & _ & Hr).
    exists t, o, st2. auto.
  - rewrite run_spiderfoot_eq, Hp. cbv zeta.
    destruct (execute_agent path [value] cfg env w (after_now w st)) as [o st2].
    destruct (finish_task_spec (kind +:+ ":" +:+ value) "spiderfoot"
                (clock w (clock_reads st)) o w st2) as (t & Ht & _ & _ & Hr).
    exists t, o, st2. auto.
Qed.

Lemma tool_task_result_witness :
  (exists t o st2,
     execute_agent "/repo/agents/username_agent.py" ["alice"] (sample_cfg 3 false 4) None
       (world_exit 3) (after_now (world_exit 3) st0) = (o, st2) /\
     run_username "alice" (sample_cfg 3 false 4) None (world_exit 3) st0
     = (Ret t, after_now (world_exit 3) st2) /\
     reflects t o 0 (clock (world_exit 3) (clock_reads st2))) /\
  (exists t o st2,
     execute_agent "/repo/agents/spiderfoot_agent.py" ["a@b.com"] (sample_cfg 3 false 4) None
       world_launch_fault (after_now world_launch_fault st0) = (o, st2) /\
     run_spiderfoot "email" "a@b.com" (sample_cfg 3 false 4) None world_launch_fault st0
     = (Ret t, after_now world_launch_fault st2) /\
     reflects t o 0 (clock world_launch_fault (clock_reads st2))).
Proof.
  split.
  - apply (proj1 (tool_task_result (sample_cfg 3 false 4) None (world_exit 3) st0
                    "username" "alice" "/repo/agents/username_agent.py")).
    reflexivity.
  - apply (proj2 (tool_task_result (sample_cfg 3 false 4) None world_launch_fault st0
                    "email" "a@b.com" "/repo/agents/spiderfoot_agent.py")).
    reflexivity.
Defined.

End TaskClaims.

Section RoutingFacts.
Import Py subprocess Effects mother_agent Dispatcher.

Lemma readings_app evs1 evs2 : readings (evs1 ++ evs2) = (readings evs1 ++ readings evs2)%list.
Proof. apply flat_map_app. Qed.

Lemma reflects_terminal t o t0 t1 : reflects t o t0 t1 -> terminal t.
Proof.
  intros (_ & _ & _ & H & _). unfold terminal.
  destruct (status t); auto; right; apply H; discriminate.
Qed.

(** What the two task runners have in common: two readings of the clock
    around launches of one command line, and a terminal result. *)
Lemma tool_run_spec name tgt ag value cfg env w st :
  exists t st' evs,
    match agents cfg !! name with
    | Some p =>
        let '(o, st2) := execute_agent p [value] cfg env w (after_now w st) in
        finish_task (mkTaskResult tgt ag RUNNING (Some (clock w (clock_reads st)))
                       None None None) o w st2
    | None =>
        finish_task (mkTaskResult tgt ag RUNNING (Some (clock w (clock_reads st)))
                       None None None) (Raise (KeyError name)) w (after_now w st)
    end = (Ret t, st') /\
    clock_reads st' = S (S (clock_reads st)) /\
    trace st' = (trace st ++ evs)%list /\
    (forall argv, In argv (launches evs) ->
       exists p, agents cfg !! name = Some p /\ argv = [executable w; p; value]) /\
    target t = tgt /\ agent t = ag /\ terminal t /\
    start_time t = Some (clock w (clock_reads st)) /\
    end_time t = Some (clock w (S (clock_reads st))).
Proof.
  destruct (agents cfg !! name) as [p|].
  - destruct (execute_agent_frame p [value] cfg env w (after_now w st))
      as (o & st2 & evs & Hrun & Hc & Ht & _ & Hl).
    rewrite Hrun.
    destruct (finish_task_spec tgt ag (clock w (clock_reads st)) o w st2)
      as (t & Hfin & Htgt & Hag & Hr).
    exists t, (after_now w st2),
      (ENow (clock w (clock_reads st)) :: evs ++ [ENow (clock w (clock_reads st2))])%list.
    pose proof (reflects_terminal _ _ _ _ Hr) as Hterm.
    destruct Hr as (Hs & He & _).
    split; [exact Hfin|]. simpl in Hc, Ht. simpl. rewrite Hc, Ht, <- !app_assoc.
    split; [reflexivity|]. split; [reflexivity|]. split.
    { intros argv Hin. unfold launches in Hin. simpl in Hin.
      rewrite flat_map_app, app_nil_r in Hin.
      exists p. split; [reflexivity|].
      rewrite List.Forall_forall in Hl. symmetry. now apply Hl. }
    rewrite He, Hc. auto 10.
  - destruct (finish_task_spec tgt ag (clock w (clock_reads st)) (Raise (KeyError name))
                w (after_now w st)) as (t & Hfin & Htgt & Hag & Hr).
    exists t, (after_now w (after_now w st)),
      [ENow (clock w (clock_reads st)); ENow (clock w (S (clock_reads st)))].
    pose proof (reflects_terminal _ _ _ _ Hr) as Hterm.
    destruct Hr as (Hs & He & _).
    split; [exact Hfin|]. simpl. rewrite <- !app_assoc.
    split; [reflexivity|]. split; [reflexivity|]. split.
    { intros argv []. }
    auto 10.
Qed.

Lemma recon_kinds_spec kind :
  kind ∈ recon_kinds <-> In kind ["domain"; "email"; "ip"; "phone"].
Proof.
  unfold recon_kinds. rewrite !elem_of_union, !elem_of_singleton. simpl.
  split.
  - intros [[[-> | ->] | ->] | ->]; tauto.
  - intros [<- | [<- | [<- | [<- | []]]]]; tauto.
Qed.

Lemma dispatch_task_username cfg env value :
  dispatch_task cfg env "username" value = run_username value cfg env.
Proof. reflexivity. Qed.

Lemma dispatch_task_recon cfg env kind value :
  In kind ["domain"; "email"; "ip"; "phone"] ->
  dispatch_task cfg env kind value = run_spiderfoot kind value cfg env.
Proof.
  intros H. unfold dispatch_task.
  rewrite (bool_decide_eq_true_2 _ (proj2 (recon_kinds_spec kind) H)).
  simpl in H. destruct H as [<-|[<-|[<-|[<-|[]]]]]; reflexivity.
Qed.

Lemma dispatch_task_unknown cfg env kind value w st :
  kind <> "username" -> ~ In kind ["domain"; "email"; "ip"; "phone"] ->
  dispatch_task cfg env kind value w st =
  (Ret (mkTaskResult value "unknown" FAILED (Some (clock w (clock_reads st)))
          (Some (clock w (S (clock_reads st)))) None (Some ("unknown type " +:+ kind))),
   after_now w (after_now w st)).
Proof.
  intros H1 H2. unfold dispatch_task.
  destruct (String.eqb_spec kind "username") as [?|_]; [contradiction|].
  rewrite bool_decide_eq_false_2 by (now rewrite recon_kinds_spec).
  reflexivity.
Qed.

(** Whatever its kind, a task ends with a result: [dispatch_task] does not
    raise. The result is terminal, it carries two successive readings of the
    clock, and its target names the task. *)
Lemma dispatch_task_returns cfg env kind value w st :
  exists t st',
    dispatch_task cfg env kind value w st = (Ret t, st') /\
    clock_reads st' = S (S (clock_reads st)) /\
    target t = task_label (kind, value) /\ terminal t /\
    start_time t = Some (clock w (clock_reads st)) /\
    end_time t = Some (clock w (S (clock_reads st))).
Proof.
  unfold dispatch_task, task_label.
  destruct (String.eqb_spec kind "username") as [->|Hk].
  - rewrite run_username_eq. cbv zeta.
    destruct (tool_run_spec "username" value "username" value cfg env w st)
      as (t & st' & evs & Hrun & Hc & _ & _ & Htgt & _ & Hterm & Hs & He).
    exists t, st'. rewrite bool_decide_eq_false_2 by (now rewrite recon_kinds_spec; simpl; intuition discriminate).
    auto 10.
  - destruct (bool_decide (kind ∈ recon_kinds)).
    + rewrite run_spiderfoot_eq. cbv zeta.
      destruct (tool_run_spec "spiderfoot" (kind +:+ ":" +:+ value) "spiderfoot" value
                  cfg env w st)
        as (t & st' & evs & Hrun & Hc & _ & _ & Htgt & _ & Hterm & Hs & He).
      exists t, st'. auto 10.
    + eexists. eexists. split; [reflexivity|]. simpl.
      repeat split. now right.
Qed.

(** The retry loop by the number [n] of its launches: they are all of one
    command line and none has a time limit, and the loop ends as its last
    launch did. *)
Lemma execute_agent_loop_runs p args cfg env w :
  forall attempts last st,
  exists o st' evs (n : nat),
    execute_agent_loop p args cfg env attempts last w st = (o, st') /\
    clock_reads st' = clock_reads st /\
    trace st' = (trace st ++ evs)%list /\
    (n <= length attempts)%nat /\ (attempts <> [] -> n <> 0%nat) /\
    launches evs = repeat (executable w :: p :: args) n /\
    readings evs = [] /\
    Forall untimed evs /\
    o = match n with
        | O => Raise (match last with
                      | Some e => e
                      | None => RuntimeError "Unknown execution failure"
                      end)
        | S k => spawn w (spawned st + k) (executable w :: p :: args) env None
        end.
Proof.
  induction attempts as [|a rest IH]; intros last st.
  - exists (Raise (match last with
                   | Some e => e
                   | None => RuntimeError "Unknown execution failure"
                   end)), st, [], 0%nat.
    rewrite app_nil_r.
    split; [destruct last; reflexivity|]. split; [reflexivity|]. split; [reflexivity|].
    split; [simpl; lia|]. split; [congruence|]. split; [reflexivity|].
    split; [reflexivity|]. split; [constructor | reflexivity].
  - rewrite execute_agent_loop_step. cbv zeta.
    destruct (spawn w (spawned st) (executable w :: p :: args) env None) as [cp|e] eqn:Hs.
    + exists (Ret cp). eexists. exists [ERun (executable w :: p :: args) env None], 1%nat.
      split; [reflexivity|]. split; [reflexivity|]. split; [reflexivity|].
      split; [simpl; lia|]. split; [discriminate|]. split; [reflexivity|].
      split; [reflexivity|]. split; [repeat constructor|].
      now rewrite Nat.add_0_r, Hs.
    + match goal with |- context [execute_agent_loop _ _ _ _ _ ?l _ ?s] =>
        destruct (IH l s) as (o & st' & evs & n & Hrun & Hc & Ht & Hn & _ & Hl & Hr & Hu & Ho)
      end.
      exists o, st'. rewrite Hrun.
      assert (Ho' : o = spawn w (spawned st + n) (executable w :: p :: args) env None).
      { rewrite Ho. destruct n as [|k].
        - now rewrite Nat.add_0_r, Hs.
        - destruct (a <? max_retries cfg)%Z; cbn [spawned];
            now replace (spawned st + S k)%nat with (S (spawned st) + k)%nat by lia. }
      destruct (a <? max_retries cfg)%Z; cbn [clock_reads trace] in Hc, Ht.
      * exists (backoff (executable w :: p :: args) env a ++ evs)%list, (S n).
        rewrite Ht, <- !app_assoc.
        split; [reflexivity|]. split; [exact Hc|]. split; [reflexivity|].
        split; [simpl; lia|]. split; [discriminate|].
        split; [unfold backoff; simpl; now rewrite Hl|].
        split; [unfold backoff; simpl; exact Hr|].
        split; [unfold backoff; repeat constructor; exact Hu | exact Ho'].
      * exists (ERun (executable w :: p :: args) env None :: evs), (S n).
        rewrite Ht, <- !app_assoc.
        split; [reflexivity|]. split; [exact Hc|]. split; [reflexivity|].
        split; [simpl; lia|]. split; [discriminate|].
        split; [simpl; now rewrite Hl|].
        split; [simpl; exact Hr|].
        split; [constructor; [reflexivity | exact Hu] | exact Ho'].
Qed.

(** A task whose agent is configured and may be tried at least once runs
    it: between one and [max_retries] launches of the agent on the value, and
    a result that reflects the outcome of the last launch. *)
Lemma tool_task_runs name tgt ag value cfg env w st p :
  agents cfg !! name = Some p -> (1 <= max_retries cfg)%Z ->
  exists t st' evs (n : nat),
    (let '(o, st2) := execute_agent p [value] cfg env w (after_now w st) in
     finish_task (mkTaskResult tgt ag RUNNING (Some (clock w (clock_reads st)))
                    None None None) o w st2) = (Ret t, st') /\
    trace st' = (trace st ++ evs)%list /\
    (1 <= n <= Z.to_nat (max_retries cfg))%nat /\
    launches evs = repeat [executable w; p; value] n /\
    target t = tgt /\ agent t = ag /\
    reflects t (spawn w (spawned st + n - 1) [executable w; p; value] env None)
      (clock w (clock_reads st)) (clock w (S (clock_reads st))).
Proof.
  intros Hp Hm. unfold execute_agent.
  destruct (execute_agent_loop_runs p [value] cfg env w (range 1 (max_retries cfg + 1)) None
              (after_now w st))
    as (o & st2 & evs & n & Hrun & Hc & Ht & Hn & Hpos & Hl & _ & _ & Ho).
  rewrite Hrun.
  destruct (finish_task_spec tgt ag (clock w (clock_reads st)) o w st2)
    as (t & Hfin & Htgt & Hag & Hr).
  rewrite length_range in Hn.
  assert (Hn0 : n <> 0%nat).
  { apply Hpos. rewrite range_cons by lia. discriminate. }
  exists t, (after_now w st2),
    (ENow (clock w (clock_reads st)) :: evs ++ [ENow (clock w (clock_reads st2))])%list, n.
  split; [exact Hfin|].
  split. { simpl in Ht |- *. now rewrite Ht, <- !app_assoc. }
  split; [lia|].
  split. { unfold launches in *. simpl. now rewrite flat_map_app, app_nil_r. }
  split; [exact Htgt|]. split; [exact Hag|].
  simpl in Hc. rewrite Hc in Hr.
  destruct n as [|k]; [congruence|].
  replace (spawned st + S k - 1)%nat with (spawned (after_now w st) + k)%nat
    by (simpl; lia).
  now rewrite <- Ho.
Qed.

End RoutingFacts.

Section RoutingClaims.
Import Py subprocess Effects mother_agent Dispatcher Samples.

(** C4. [dispatch_task] routes by kind. The kind [username] runs the
    username task: with the username agent configured and at least one
    attempt allowed it launches that agent on the value, between one and
    [max_retries] times, and the result of the task reflects the outcome of
    the last launch; whatever the configuration, its launches are all of the
    username agent on the value. The kinds [domain], [email], [ip] and
    [phone] run the recon task, likewise with the recon agent. Any other kind
    gives at once a failed result with the error ["unknown type <kind>"],
    launching no process and sleeping for no retry. *)
Theorem dispatch_task_routing cfg env kind value w st :
  (kind = "username" ->
   dispatch_task cfg env kind value = run_username value cfg env) /\
  (In kind ["domain"; "email"; "ip"; "phone"] ->
   dispatch_task cfg env kind value = run_spiderfoot kind value cfg env) /\
  (kind <> "username" -> ~ In kind ["domain"; "email"; "ip"; "phone"] ->
   exists t st' evs,
     dispatch_task cfg env kind value w st = (Ret t, st') /\
     target t = value /\ agent t = "unknown" /\ status t = FAILED /\
     returncode t = None /\ error t = Some ("unknown type " +:+ kind) /\
     spawned st' = spawned st /\ trace st' = (trace st ++ evs)%list /\
     launches evs = [] /\ sleeps evs = []) /\
  (exists t st' evs,
     run_username value cfg env w st = (Ret t, st') /\
     agent t = "username" /\ trace st' = (trace st ++ evs)%list /\
     forall argv, In argv (launches evs) ->
       exists p, agents cfg !! "username" = Some p /\ argv = [executable w; p; value]) /\
  (exists t st' evs,
     run_spiderfoot kind value cfg env w st = (Ret t, st') /\
     agent t = "spiderfoot" /\ trace st' = (trace st ++ evs)%list /\
     forall argv, In argv (launches evs) ->
       exists p, agents cfg !! "spiderfoot" = Some p /\ argv = [executable w; p; value]) /\
  (forall p,
     kind = "username" ->
     agents cfg !! "username" = Some p -> (1 <= max_retries cfg)%Z ->
     exists t st' evs (n : nat),
       dispatch_task cfg env kind value w st = (Ret t, st') /\
       trace st' = (trace st ++ evs)%list /\
       (1 <= n <= Z.to_nat (max_retries cfg))%nat /\
       launches evs = repeat [executable w; p; value] n /\
       target t = value /\ agent t = "username" /\
       reflects t (spawn w (spawned st + n - 1) [executable w; p; value] env None)
         (clock w (clock_reads st)) (clock w (S (clock_reads st)))) /\
  (forall p,
     In kind ["domain"; "email"; "ip"; "phone"] ->
     agents cfg !! "spiderfoot" = Some p -> (1 <= max_retries cfg)%Z ->
     exists t st' evs (n : nat),
       dispatch_task cfg env kind value w st = (Ret t, st') /\
       trace st' = (trace st ++ evs)%list /\
       (1 <= n <= Z.to_nat (max_retries cfg))%nat /\
       launches evs = repeat [executable w; p; value] n /\
       target t = kind +:+ ":" +:+ value /\ agent t = "spiderfoot" /\
       reflects t (spawn w (spawned st + n - 1) [executable w; p; value] env None)
         (clock w (clock_reads st)) (clock w (S (clock_reads st)))).
Proof.
  split; [|split; [|split; [|split; [|split; [|split]]]]].
  - intros ->. apply dispatch_task_username.
  - apply dispatch_task_recon.
  - intros H1 H2. rewrite (dispatch_task_unknown cfg env kind value w st H1 H2).
    eexists. eexists.
    exists [ENow (clock w (clock_reads st)); ENow (clock w (S (clock_reads st)))].
    split; [reflexivity|]. simpl. rewrite <- app_assoc. repeat split.
  - rewrite run_username_eq. cbv zeta.
    destruct (tool_run_spec "username" value "username" value cfg env w st)
      as (t & st' & evs & Hrun & _ & Ht & Hl & _ & Hag & _).
    exists t, st', evs. auto.
  - rewrite run_spiderfoot_eq. cbv zeta.
    destruct (tool_run_spec "spiderfoot" (kind +:+ ":" +:+ value) "spiderfoot" value
                cfg env w st)
      as (t & st' & evs & Hrun & _ & Ht & Hl & _ & Hag & _).
    exists t, st', evs. auto.
  - intros p -> Hp Hm. rewrite dispatch_task_username, run_username_eq, Hp. cbv zeta.
    exact (tool_task_runs "username" value "username" value cfg env w st p Hp Hm).
  - intros p Hk Hp Hm. rewrite (dispatch_task_recon cfg env kind value Hk).
    rewrite run_spiderfoot_eq, Hp. cbv zeta.
    exact (tool_task_runs "spiderfoot" (kind +:+ ":" +:+ value) "spiderfoot" value
             cfg env w st p Hp Hm).
Qed.

Lemma dispatch_task_routing_witness :
  dispatch_task (sample_cfg 3 false 4) None "username" "alice"
  = run_username "alice" (sample_cfg 3 false 4) None /\
  dispatch_task (sample_cfg 3 false 4) None "email" "a@b.com"
  = run_spiderfoot "email" "a@b.com" (sample_cfg 3 false 4) None /\
  (exists t st' evs,
     dispatch_task (sample_cfg 3 false 4) None "carrier-pigeon" "x" (world_exit 0) st0
     = (Ret t, st') /\
     target t = "x" /\ agent t = "unknown" /\ status t = FAILED /\
     returncode t = None /\ error t = Some "unknown type carrier-pigeon" /\
     spawned st' = 0%nat /\ trace st' = evs /\ launches evs = [] /\ sleeps evs = []) /\
  (exists t st' evs (n : nat),
     dispatch_task (sample_cfg 3 false 4) None "username" "alice" world_launch_fault st0
     = (Ret t, st') /\
     trace st' = evs /\ (1 <= n <= 3)%nat /\
     launches evs = repeat ["python3"; "/repo/agents/username_agent.py"; "alice"] n /\
     target t = "alice" /\ agent t = "username" /\
     reflects t (Raise (OSError "No such file or directory")) 0 1) /\
  (exists t st' evs (n : nat),
     dispatch_task (sample_cfg 3 false 4) None "ip" "10.0.0.1" (world_exit 0) st0
     = (Ret t, st') /\
     trace st' = evs /\ (1 <= n <= 3)%nat /\
     launches evs = repeat ["python3"; "/repo/agents/spiderfoot_agent.py"; "10.0.0.1"] n /\
     target t = "ip:10.0.0.1" /\ agent t = "spiderfoot" /\
     reflects t (Ret (mkCompletedProcess 0 "" "")) 0 1).
Proof.
  split; [|split; [|split; [|split]]].
  - exact (proj1 (dispatch_task_routing (sample_cfg 3 false 4) None "username" "alice"
                    (world_exit 0) st0) eq_refl).
  - apply (proj1 (proj2 (dispatch_task_routing (sample_cfg 3 false 4) None "email" "a@b.com"
                           (world_exit 0) st0))).
    simpl. tauto.
  - apply (proj1 (proj2 (proj2 (dispatch_task_routing (sample_cfg 3 false 4) None
                                  "carrier-pigeon" "x" (world_exit 0) st0)))).
    + discriminate.
    + simpl. intros [H|[H|[H|[H|[]]]]]; discriminate.
  - exact (proj1 (proj2 (proj2 (proj2 (proj2 (proj2
             (dispatch_task_routing (sample_cfg 3 false 4) None "username" "alice"
                world_launch_fault st0))))))
             "/repo/agents/username_agent.py" eq_refl eq_refl ltac:(simpl; lia)).
  - exact (proj2 (proj2 (proj2 (proj2 (proj2 (proj2
             (dispatch_task_routing (sample_cfg 3 false 4) None "ip" "10.0.0.1"
                (world_exit 0) st0))))))
             "/repo/agents/spiderfoot_agent.py" ltac:(simpl; tauto) eq_refl
             ltac:(simpl; lia)).
Defined.





(** The [except] clause of the retry loop for [TimeoutExpired] handles it as
    any other fault: in a world that raises one at every launch, time limit
    or not, all attempts are made. Such a world is not that of
    [subprocess.run], which the loop calls without time limit. *)
Example raised_timeout_would_be_retried :
  ~ timeout_needs_limit world_timeout /\
  exists st',
    execute_agent "/repo/agents/username_agent.py" ["alice"] (sample_cfg 3 false 4) None
      world_timeout st0 = (Raise (TimeoutExpired "timed out"), st') /\
    length (launches (trace st')) = 3%nat /\ sleeps (trace st') = [1; 2]%Z.
Proof.
  split.
  - intros H. exact (H 0%nat [] None "timed out" eq_refl).
  - eexists. split; [vm_compute; reflexivity|]. split; reflexivity.
Qed.

End RoutingClaims.

(** ** The dispatcher *)

Section PoolFacts.
Import Py subprocess Effects mother_agent Dispatcher.

Lemma remove_at_perm {A} (l : list A) : forall i x,
  nth_error l i = Some x -> Permutation l (x :: remove_at i l).
Proof.
  induction l as [|y l IH]; intros [|i] x H; simpl in *; try discriminate.
  - injection H as ->. reflexivity.
  - eapply Permutation_trans; [apply perm_skip, (IH i x H) | apply perm_swap].
Qed.

Lemma as_completed_from_perm {A} : forall fuel order (pending : list A),
  length pending = fuel -> Permutation (as_completed_from fuel order pending) pending.
Proof.
  induction fuel as [|fuel IH]; intros order pending Hlen; simpl.
  - destruct pending; [reflexivity | discriminate].
  - assert (Hi : (hd 0 order mod length pending < length pending)%nat)
      by (apply Nat.mod_upper_bound; lia).
    destruct (nth_error pending (hd 0 order mod length pending)%nat) as [x|] eqn:E.
    + pose proof (remove_at_perm pending _ x E) as Hp.
      apply Permutation_sym. eapply Permutation_trans; [exact Hp|].
      constructor. apply Permutation_sym, IH.
      apply Permutation_length in Hp. simpl in Hp. lia.
    + apply nth_error_None in E. lia.
Qed.

(** [as_completed] yields every future once. *)
Lemma as_completed_perm {A} order (fs : list A) : Permutation (as_completed order fs) fs.
Proof. now apply as_completed_from_perm. Qed.

Lemma submit_all_spec worker : forall tasks i,
  Forall2 (fun task fut =>
             fut_args fut = task /\
             fut_result fut = worker (fut_id fut) (fst task) (snd task))
    tasks (submit_all worker i tasks).
Proof.
  induction tasks as [|[k v] tasks IH]; intros i; simpl; constructor; auto.
Qed.

Lemma submit_all_nth worker : forall tasks i n k v,
  nth_error tasks n = Some (k, v) ->
  nth_error (submit_all worker i tasks) n
  = Some (mkFuture (i + n) (k, v) (worker (i + n)%nat k v)).
Proof.
  induction tasks as [|[k' v'] tasks IH]; intros i [|n] k v H; simpl in *; try discriminate.
  - injection H as -> ->. now rewrite Nat.add_0_r.
  - rewrite (IH (S i) n k v H).
    now replace (S i + n)%nat with (i + S n)%nat by lia.
Qed.

(** The collecting loop never raises: it turns every future into one result,
    its own or a failed one stamped with two successive clock readings. *)
Lemma collect_spec w : forall futs results st,
  exists new st',
    collect futs results w st = (Ret (results ++ new)%list, st') /\
    Forall2 (fun fut t =>
               settles fut t /\
               (forall e, fut_result fut = Raise e ->
                  exists n, start_time t = Some (clock w n) /\
                            end_time t = Some (clock w (S n))))
      futs new.
Proof.
  induction futs as [|fut futs IH]; intros results st; simpl.
  - exists [], st. rewrite app_nil_r. split; [reflexivity | constructor].
  - unfold bind. destruct (fut_result fut) as [res|e] eqn:E.
    + simpl. destruct (IH (results ++ [res])%list st) as (new & st' & Hrun & Hall).
      exists (res :: new), st'. rewrite Hrun, <- app_assoc. split; [reflexivity|].
      constructor; [|exact Hall]. unfold settles. rewrite E.
      split; [reflexivity | discriminate].
    + destruct (fut_args fut) as [k v] eqn:Ea. simpl.
      match goal with |- context [collect futs (results ++ [?t])%list w ?s] =>
        destruct (IH (results ++ [t])%list s) as (new & st' & Hrun & Hall);
        exists (t :: new), st' end.
      rewrite Hrun, <- app_assoc. split; [reflexivity|].
      constructor; [|exact Hall]. unfold settles. rewrite E, Ea. simpl.
      split; [auto|]. intros e' _. eauto.
Qed.

Lemma run_sequential_spec cfg env w : forall tasks results st,
  exists new st',
    run_sequential cfg env tasks results w st = (Ret (results ++ new)%list, st') /\
    Forall2 (fun task t =>
               target t = task_label task /\ terminal t /\
               exists n, start_time t = Some (clock w n) /\
                         end_time t = Some (clock w (S n)))
      tasks new.
Proof.
  induction tasks as [|[kind value] tasks IH]; intros results st; simpl.
  - exists [], st. rewrite app_nil_r. split; [reflexivity | constructor].
  - unfold bind.
    destruct (dispatch_task_returns cfg env kind value w st)
      as (t & st1 & Hrun & _ & Htgt & Hterm & Hs & He).
    rewrite Hrun.
    destruct (IH (results ++ [t])%list st1) as (new & st' & Hrest & Hall).
    exists (t :: new), st'. rewrite Hrest, <- app_assoc. split; [reflexivity|].
    constructor; [|exact Hall]. eauto 10.
Qed.

Lemma clock_monotone_timed w n t :
  clock_monotone w ->
  start_time t = Some (clock w n) -> end_time t = Some (clock w (S n)) -> timed t.
Proof. intros Hm Hs He. exists (clock w n), (clock w (S n)). auto. Qed.

Lemma tasks_copy (targets : list (string * string)) :
  map (fun '(kind, value) => (kind, value)) targets = targets.
Proof. induction targets as [|[k v] l IH]; simpl; [reflexivity | now rewrite IH]. Qed.

End PoolFacts.

Section DispatchFacts.
Import Py subprocess Effects mother_agent Dispatcher.

Lemma submit_all_args worker : forall tasks i,
  map fut_args (submit_all worker i tasks) = tasks.
Proof.
  induction tasks as [|[k v] tasks IH]; intros i; simpl; [reflexivity | now rewrite IH].
Qed.

(** The futures of the dispatcher all end with a result of their task. *)
Lemma submit_all_dispatch cfg env views : forall tasks i,
  Forall (fun fut =>
            exists t, fut_result fut = Ret t /\
                      target t = task_label (fut_args fut) /\ terminal t /\
                      stamped (views (fut_id fut)) t)
    (submit_all (fun i k v => fst (dispatch_task cfg env k v (views i) st0)) i tasks).
Proof.
  induction tasks as [|[k v] tasks IH]; intros i; simpl; constructor; auto.
  simpl.
  destruct (dispatch_task_returns cfg env k v (views i) st0)
    as (t & st' & Hrun & _ & Htgt & Hterm & Hs & He).
  rewrite Hrun. exists t. repeat split; try assumption. now exists (clock_reads st0).
Qed.

Lemma settled_results w (P : Future -> TaskResult -> Prop) futs new :
  Forall (fun fut => exists t, fut_result fut = Ret t /\ P fut t) futs ->
  Forall2 (fun fut t =>
             settles fut t /\
             (forall e, fut_result fut = Raise e -> stamped w t)) futs new ->
  Forall2 P futs new.
Proof.
  intros Hall H2. induction H2 as [|fut t futs new [Hset _] _ IH]; [constructor|].
  apply Forall_cons in Hall as [(t' & Hres & HP) Hall].
  constructor; [|auto]. unfold settles in Hset. rewrite Hres in Hset. now subst.
Qed.

Lemma ThreadPoolExecutor_refuses n w st :
  (n <= 0)%Z ->
  ThreadPoolExecutor n w st = (Raise (ValueError "max_workers must be greater than 0"), st).
Proof. intros H. unfold ThreadPoolExecutor. now replace (n <=? 0)%Z with true by lia. Qed.

Lemma ThreadPoolExecutor_accepts n w st :
  (0 < n)%Z -> ThreadPoolExecutor n w st = (Ret tt, st).
Proof. intros H. unfold ThreadPoolExecutor. now replace (n <=? 0)%Z with false by lia. Qed.

(** With a pool that can be created, the dispatcher returns one terminal,
    stamped result per task, each named after its task. *)
Lemma dispatch_spec cfg env views tasks w st :
  parallel cfg = false \/ tasks = [] \/ (0 < worker_count cfg)%Z ->
  exists rs st',
    dispatch cfg env views tasks w st = (Ret rs, st') /\
    Permutation (map task_label tasks) (map target rs) /\
    Forall (fun t => terminal t /\ (stamped w t \/ exists i, stamped (views i) t)) rs.
Proof.
  intros Hpre. unfold dispatch.
  destruct (parallel cfg && negb (bool_decide (tasks = []))) eqn:Hmode.
  - apply andb_true_iff in Hmode as [Hpar Hne].
    apply negb_true_iff, bool_decide_eq_false in Hne.
    destruct Hpre as [Hpre | [Hpre | Hpre]]; [congruence | contradiction |].
    unfold run_pool, bind. rewrite (ThreadPoolExecutor_accepts _ w st Hpre).
    set (futs := submit_all _ 0 tasks).
    destruct (collect_spec w (as_completed (completion w) futs) [] st)
      as (new & st' & Hrun & Hall).
    exists new, st'. split; [exact Hrun|].
    pose proof (as_completed_perm (completion w) futs) as Hperm.
    apply (settled_results w (fun fut t =>
             target t = task_label (fut_args fut) /\ terminal t /\
             stamped (views (fut_id fut)) t)) in Hall.
    2: { eapply Permutation_Forall; [apply Permutation_sym, Hperm|].
         apply submit_all_dispatch. }
    split.
    + replace (map task_label tasks) with (map task_label (map fut_args futs))
        by (unfold futs; now rewrite submit_all_args).
      rewrite map_map.
      apply (Permutation_trans
               (l' := map (fun fut => task_label (fut_args fut))
                        (as_completed (completion w) futs))).
      * apply Permutation_map, Permutation_sym, Hperm.
      * clear Hrun Hperm. induction Hall as [|fut t ? ? (Ht & _) _ IH]; simpl; [constructor|].
        rewrite Ht. now constructor.
    + clear Hrun Hperm. induction Hall as [|fut t ? ? (_ & Ht & Hs) _ IH]; constructor; eauto.
  - destruct (run_sequential_spec cfg env w tasks [] st) as (new & st' & Hrun & Hall).
    exists new, st'. split; [exact Hrun|]. clear Hrun Hmode Hpre. split.
    + induction Hall as [|task t ? ? (Ht & _) _ IH]; simpl; [constructor|].
      rewrite Ht. now constructor.
    + induction Hall as [|task t ? ? (_ & Ht & Hs) _ IH]; constructor; auto.
Qed.

(** Without workers the pool cannot be created, and the dispatcher raises. *)
Lemma dispatch_refused cfg env views tasks w st :
  parallel cfg = true -> tasks <> [] -> (worker_count cfg <= 0)%Z ->
  dispatch cfg env views tasks w st
  = (Raise (ValueError "max_workers must be greater than 0"), st).
Proof.
  intros Hpar Hne Hw. unfold dispatch. rewrite Hpar.
  rewrite (bool_decide_eq_false_2 _ Hne). simpl.
  unfold run_pool, bind. now rewrite (ThreadPoolExecutor_refuses _ w st Hw).
Qed.

End DispatchFacts.

Section DispatchClaims.
Import Py subprocess Effects mother_agent Dispatcher Samples.

(** C1, as amended. Provided the pool can be created (the mode is sequential,
    or there is no task, or [worker_count] is at least 1), the dispatcher
    returns, in sequential and in concurrent mode and whatever the tools do,
    exactly one result per task: as many results as tasks, and the targets of
    the results are the labels of the tasks, each once. *)
Theorem dispatch_one_result_per_target cfg env views tasks w st :
  parallel cfg = false \/ tasks = [] \/ (0 < worker_count cfg)%Z ->
  exists rs st',
    dispatch cfg env views tasks w st = (Ret rs, st') /\
    length rs = length tasks /\
    Permutation (map task_label tasks) (map target rs).
Proof.
  intros Hpre.
  destruct (dispatch_spec cfg env views tasks w st Hpre) as (rs & st' & Hrun & Hperm & _).
  exists rs, st'. repeat split; try assumption.
  apply Permutation_length in Hperm. now rewrite !length_map in Hperm.
Qed.

Lemma dispatch_one_result_per_target_witness :
  (exists rs st',
     dispatch (sample_cfg 3 false 4) None (fun _ => world_exit 0)
       [("email", "a@b.com"); ("username", "alice"); ("carrier-pigeon", "x")]
       world_launch_fault st0 = (Ret rs, st') /\
     length rs = 3%nat /\
     Permutation ["email:a@b.com"; "alice"; "x"] (map target rs)) /\
  (exists rs st',
     dispatch (sample_cfg 3 true 4) None (fun _ => world_exit 0)
       [("email", "a@b.com"); ("username", "alice"); ("carrier-pigeon", "x")]
       (world_exit 0) st0 = (Ret rs, st') /\
     length rs = 3%nat /\
     Permutation ["email:a@b.com"; "alice"; "x"] (map target rs)).
Proof.
  split.
  - apply (dispatch_one_result_per_target (sample_cfg 3 false 4) None (fun _ => world_exit 0)
             [("email", "a@b.com"); ("username", "alice"); ("carrier-pigeon", "x")]
             world_launch_fault st0).
    left. reflexivity.
  - apply (dispatch_one_result_per_target (sample_cfg 3 true 4) None (fun _ => world_exit 0)
             [("email", "a@b.com"); ("username", "alice"); ("carrier-pigeon", "x")]
             (world_exit 0) st0).
    right. right. simpl. lia.
Defined.

(** Counterexample to C1 as stated for every Config, in concurrent mode
    without workers: [--parallel --workers 0] makes the creation of the pool
    raise, and the dispatcher returns no result at all for its one target. *)
Lemma dispatch_without_workers_counterexample :
  dispatch (sample_cfg 3 true 0) None (fun _ => world_exit 0) [("username", "alice")]
    (world_exit 0) st0
  = (Raise (ValueError "max_workers must be greater than 0"), st0) /\
  ~ exists rs st',
      dispatch (sample_cfg 3 true 0) None (fun _ => world_exit 0) [("username", "alice")]
        (world_exit 0) st0 = (Ret rs, st') /\
      length rs = length [("username", "alice")].
Proof.
  assert (H : dispatch (sample_cfg 3 true 0) None (fun _ => world_exit 0)
                [("username", "alice")] (world_exit 0) st0
              = (Raise (ValueError "max_workers must be greater than 0"), st0))
    by (apply dispatch_refused; [reflexivity | discriminate | simpl; lia]).
  split; [exact H|]. intros (rs & st' & Hrun & _). rewrite H in Hrun. discriminate.
Qed.

(** C7, as amended. Every result the dispatcher returns is terminal: it is
    completed or failed, so the caller sees neither a pending nor a running
    task. Both its timestamps are set, and its end time is not before its
    start time provided the successive readings of the clock do not go
    back. *)
Theorem dispatch_results_terminal cfg env views tasks w st rs st' :
  dispatch cfg env views tasks w st = (Ret rs, st') ->
  Forall (fun t => terminal t /\ status t <> PENDING /\ status t <> RUNNING /\
                   is_Some (start_time t) /\ is_Some (end_time t)) rs /\
  (clock_monotone w -> (forall i, clock_monotone (views i)) -> Forall timed rs).
Proof.
  intros Hrun.
  assert (Hpre : parallel cfg = false \/ tasks = [] \/ (0 < worker_count cfg)%Z).
  { destruct (parallel cfg) eqn:Hpar; [|now left].
    destruct tasks as [|task tasks]; [now right; left|].
    destruct (Z.ltb_spec 0 (worker_count cfg)) as [|Hle]; [now right; right|].
    rewrite dispatch_refused in Hrun by (try assumption; discriminate). discriminate. }
  destruct (dispatch_spec cfg env views tasks w st Hpre) as (rs0 & st0' & Hrun0 & _ & Hall).
  rewrite Hrun0 in Hrun. injection Hrun as -> ->.
  split.
  - eapply List.Forall_impl; [|exact Hall]. intros t [Hterm Hst]. simpl.
    split; [exact Hterm|].
    split; [destruct Hterm as [H|H]; rewrite H; discriminate|].
    split; [destruct Hterm as [H|H]; rewrite H; discriminate|].
    destruct Hst as [(n & -> & ->) | (i & n & -> & ->)]; split; eexists; reflexivity.
  - intros Hw Hv. eapply List.Forall_impl; [|exact Hall]. intros t [_ Hst]. simpl.
    destruct Hst as [(n & Hs & He) | (i & n & Hs & He)].
    + exact (clock_monotone_timed w n t Hw Hs He).
    + exact (clock_monotone_timed (views i) n t (Hv i) Hs He).
Qed.

Lemma dispatch_results_terminal_witness :
  clock_monotone (world_exit 3) /\ (forall i : nat, clock_monotone (world_exit 0)) /\
  exists rs st',
    dispatch (sample_cfg 3 true 4) None (fun _ => world_exit 0)
      [("email", "a@b.com"); ("username", "alice"); ("carrier-pigeon", "x")]
      (world_exit 3) st0 = (Ret rs, st') /\
    Forall (fun t => terminal t /\ status t <> PENDING /\ status t <> RUNNING /\
                     is_Some (start_time t) /\ is_Some (end_time t)) rs /\
    Forall timed rs.
Proof.
  assert (H3 : clock_monotone (world_exit 3)) by (intros n; simpl; lia).
  assert (H0 : forall i : nat, clock_monotone (world_exit 0)) by (intros _ n; simpl; lia).
  split; [exact H3|]. split; [exact H0|].
  eexists. eexists. split; [vm_compute; reflexivity|].
  match goal with |- Forall ?P ?rs /\ _ =>
    assert (Hthm : Forall P rs /\
                   (clock_monotone (world_exit 3) ->
                    (forall i : nat, clock_monotone (world_exit 0)) -> Forall timed rs))
  end.
  { eapply (dispatch_results_terminal (sample_cfg 3 true 4) None (fun _ => world_exit 0)
              [("email", "a@b.com"); ("username", "alice"); ("carrier-pigeon", "x")]
              (world_exit 3) st0).
    vm_compute. reflexivity. }
  split; [exact (proj1 Hthm) | exact (proj2 Hthm H3 H0)].
Defined.

(** Counterexample to C7 as stated for every run. The two timestamps of a
    result are readings of [datetime.now()], the wall clock; when it is set
    back while a task runs, the result the dispatcher returns ends before it
    starts. *)
Lemma dispatch_clock_set_back_counterexample :
  exists rs st',
    dispatch (sample_cfg 3 false 4) None (fun _ => world_clock_back) [("username", "alice")]
      world_clock_back st0 = (Ret rs, st') /\
    (exists t, rs = [t] /\ status t = COMPLETED /\
               start_time t = Some 0%Z /\ end_time t = Some (-1)%Z) /\
    ~ Forall timed rs.
Proof.
  eexists. eexists. split; [vm_compute; reflexivity|]. split.
  - eexists. split; [reflexivity|]. repeat split.
  - intros H. inversion H as [|t rs (s & e & Hs & He & Hle) _]; subst.
    cbn in Hs, He. injection Hs as <-. injection He as <-. lia.
Qed.

End DispatchClaims.

Section PoolClaims.
Import Py subprocess Effects mother_agent Dispatcher Samples.

Lemma Forall2_In_l {A B} (R : A -> B -> Prop) (l : list A) (l' : list B) x :
  Forall2 R l l' -> In x l -> exists y, In y l' /\ R x y.
Proof.
  induction 1 as [|a b l l' Hab _ IH]; simpl; [intros []|].
  intros [<- | Hin]; [eauto|]. destruct (IH Hin) as (y & Hy & HR). eauto.
Qed.

Lemma length_submit_all worker tasks i : length (submit_all worker i tasks) = length tasks.
Proof. now rewrite <- (submit_all_args worker tasks i) at 2; rewrite length_map. Qed.

(** C8. In concurrent dispatch, once the pool is created, the collecting
    loop returns whatever the futures do: it yields one result per task, a
    future that raised is settled as a failed result whose error is the
    message of the fault (its target being [kind:value]), and every future
    that returned is settled as its own result, unchanged by the faults of
    the others. Concurrent dispatch is this pool run on [dispatch_task]. *)
Theorem pool_isolates_faults cfg worker tasks w st :
  (0 < worker_count cfg)%Z ->
  exists rs st',
    run_pool cfg worker tasks [] w st = (Ret rs, st') /\
    length rs = length tasks /\
    Forall2 settles (as_completed (completion w) (submit_all worker 0 tasks)) rs /\
    Permutation (as_completed (completion w) (submit_all worker 0 tasks))
      (submit_all worker 0 tasks) /\
    (forall i k v res,
       nth_error tasks i = Some (k, v) -> worker i k v = Ret res -> In res rs) /\
    (forall i k v e,
       nth_error tasks i = Some (k, v) -> worker i k v = Raise e ->
       exists t, In t rs /\ target t = k +:+ ":" +:+ v /\ agent t = "unknown" /\
                 status t = FAILED /\ error t = Some (str e)) /\
    (forall env views,
       parallel cfg = true -> tasks <> [] ->
       dispatch cfg env views tasks
       = run_pool cfg (fun i k v => fst (dispatch_task cfg env k v (views i) st0)) tasks []).
Proof.
  intros Hw. unfold run_pool, bind. rewrite (ThreadPoolExecutor_accepts _ w st Hw).
  destruct (collect_spec w (as_completed (completion w) (submit_all worker 0 tasks)) [] st)
    as (rs & st' & Hrun & Hall).
  pose proof (as_completed_perm (completion w) (submit_all worker 0 tasks)) as Hperm.
  assert (Hset : Forall2 settles (as_completed (completion w) (submit_all worker 0 tasks)) rs).
  { clear Hrun Hperm. induction Hall as [|? ? ? ? [H _] _ IH]; constructor; auto. }
  exists rs, st'. split; [exact Hrun|]. split; [|split; [exact Hset|split; [exact Hperm|]]].
  - rewrite <- (Forall2_length _ _ _ Hset), (Permutation_length Hperm).
    apply length_submit_all.
  - assert (Hfut : forall i k v,
               nth_error tasks i = Some (k, v) ->
               exists t, In t rs /\ settles (mkFuture i (k, v) (worker i k v)) t).
    { intros i k v Hi. apply (Forall2_In_l _ _ _ _ Hset).
      apply (Permutation_in _ (Permutation_sym Hperm)).
      apply nth_error_In with i. now rewrite (submit_all_nth worker tasks 0 i k v Hi). }
    split; [|split].
    + intros i k v res Hi Hres. destruct (Hfut i k v Hi) as (t & Hin & Ht).
      unfold settles in Ht. simpl in Ht. rewrite Hres in Ht. now subst.
    + intros i k v e Hi Hres. destruct (Hfut i k v Hi) as (t & Hin & Ht).
      unfold settles in Ht. simpl in Ht. rewrite Hres in Ht. exists t. tauto.
    + intros env views Hpar Hne. unfold dispatch.
      now rewrite Hpar, (bool_decide_eq_false_2 _ Hne).
Qed.

Lemma pool_isolates_faults_witness :
  (0 < worker_count (sample_cfg 3 true 4))%Z /\
  exists rs st',
    run_pool (sample_cfg 3 true 4) worker_3_raises ten_tasks [] (world_exit 0) st0
    = (Ret rs, st') /\
    length rs = 10%nat /\
    (exists t, In t rs /\ target t = "username:user3" /\ agent t = "unknown" /\
               status t = FAILED /\ error t = Some "boom") /\
    In (mkTaskResult "user4" "username" COMPLETED (Some 0%Z) (Some 1%Z) (Some 0%Z) None) rs.
Proof.
  assert (Hw : (0 < worker_count (sample_cfg 3 true 4))%Z) by (simpl; lia).
  split; [exact Hw|].
  destruct (pool_isolates_faults (sample_cfg 3 true 4) worker_3_raises ten_tasks
              (world_exit 0) st0 Hw)
    as (rs & st' & Hrun & Hlen & _ & _ & Hok & Hfail & _).
  exists rs, st'. split; [exact Hrun|]. split; [exact Hlen|]. split.
  - exact (Hfail 3%nat "username" "user3" (RuntimeError "boom") eq_refl eq_refl).
  - exact (Hok 4%nat "username" "user4" _ eq_refl eq_refl).
Defined.

(** C9. Once the dispatcher has returned its results, [main] neither raises
    nor changes its tallies when the summary step fails: whatever that step
    ends with, [main] returns the number of completed results and the number
    of results, and logs them, followed only by the line that names the
    report; when the step raised, the failure is logged before. *)
Theorem main_tallies_survive_summary_failure cfg environ case_name views targets w st rs st1 :
  targets <> [] ->
  dispatch cfg (Some (<["REPORT_NAME" := case_name +:+ ".txt"]> environ)) views targets w st
  = (Ret rs, st1) ->
  exists o st2 st3,
    build_summary cfg (Some (<["REPORT_NAME" := case_name +:+ ".txt"]> environ)) w st1
    = (o, st2) /\
    main cfg environ case_name views targets w st
    = (Ret (Some (success_count rs, Z.of_nat (length rs))), st3) /\
    trace st3 = (trace st2
                 ++ match o with
                    | Ret _ => []
                    | Raise e => [ELog ("Summary generation failed: " +:+ str e)]
                    end
                 ++ [ELog (tally_line rs);
                     ELog (report_line cfg (case_name +:+ ".txt"))])%list.
Proof.
  intros Hne Hrun. unfold main. rewrite (bool_decide_eq_false_2 _ Hne).
  cbv zeta. rewrite tasks_copy. unfold bind at 1. rewrite Hrun.
  unfold bind, try_, log, ret.
  destruct (build_summary cfg _ w st1) as [[cp|e] st2]; simpl.
  - do 3 eexists. split; [reflexivity|]. split; [reflexivity|].
    simpl. now rewrite <- app_assoc.
  - do 3 eexists. split; [reflexivity|]. split; [reflexivity|].
    simpl. now rewrite <- !app_assoc.
Qed.

Lemma main_tallies_survive_summary_failure_witness :
  exists rs st1,
    dispatch (sample_cfg 3 false 4) (Some (<["REPORT_NAME" := "case1" +:+ ".txt"]> ∅))
      (fun _ => world_exit 0) [("email", "a@b.com"); ("username", "alice")]
      (world_first_ok 2) st0 = (Ret rs, st1) /\
    tally_line rs = "Investigation complete: 2/2 tasks successful" /\
    exists o st2 st3,
      build_summary (sample_cfg 3 false 4) (Some (<["REPORT_NAME" := "case1" +:+ ".txt"]> ∅))
        (world_first_ok 2) st1 = (o, st2) /\
      main (sample_cfg 3 false 4) ∅ "case1" (fun _ => world_exit 0)
        [("email", "a@b.com"); ("username", "alice")] (world_first_ok 2) st0
      = (Ret (Some (success_count rs, Z.of_nat (length rs))), st3) /\
      trace st3 = (trace st2
                   ++ match o with
                      | Ret _ => []
                      | Raise e => [ELog ("Summary generation failed: " +:+ str e)]
                      end
                   ++ [ELog (tally_line rs);
                       ELog "Report: /repo/reports/case1.txt"])%list.
Proof.
  eexists. eexists. split; [vm_compute; reflexivity|].
  split; [vm_compute; reflexivity|].
  apply (main_tallies_survive_summary_failure (sample_cfg 3 false 4) ∅ "case1"
           (fun _ => world_exit 0) [("email", "a@b.com"); ("username", "alice")]
           (world_first_ok 2) st0).
  - discriminate.
  - vm_compute. reflexivity.
Defined.

(** The end-to-end scenario of the specification: an e-mail address and a
    username, both tools and the aggregator exiting with 0. *)
Example end_to_end_scenario :
  exists st',
    main (sample_cfg 3 false 4) ∅ "case1" (fun _ => world_exit 0)
      [("email", "a@b.com"); ("username", "alice")] (world_exit 0) st0
    = (Ret (Some (2, 2)%Z), st') /\
    List.last (removelast (trace st')) (ELog "")
    = ELog "Investigation complete: 2/2 tasks successful" /\
    List.last (trace st') (ELog "") = ELog "Report: /repo/reports/case1.txt" /\
    length (launches (trace st')) = 3%nat /\ sleeps (trace st') = [].
Proof. eexists. split; [vm_compute; reflexivity|]. vm_compute. repeat split. Qed.

End PoolClaims.

(** * Further properties of the orchestration engine *)

Section RetryMore.
Import subprocess Effects mother_agent Measures.

(** When the attempts [a], ..., [a+n-1] raise and attempt [a+n] returns, the
    loop returns that process after [n] delayed launches and one more. *)
Lemma execute_agent_loop_succeeds p args cfg env w cp :
  forall (n : nat) (exc : nat -> PyExc) (a : Z) (st : St) (last : option PyExc),
    (a + Z.of_nat n <= max_retries cfg)%Z ->
    (forall j, (j < n)%nat ->
               spawn w (spawned st + j) (executable w :: p :: args) env None = Raise (exc j)) ->
    spawn w (spawned st + n) (executable w :: p :: args) env None = Ret cp ->
    execute_agent_loop p args cfg env (range a (max_retries cfg + 1)) last w st =
    (Ret cp,
     mkSt (clock_reads st) (spawned st + n + 1)
       (trace st ++ flat_map (backoff (executable w :: p :: args) env) (range a (a + Z.of_nat n))
          ++ [ERun (executable w :: p :: args) env None])).
Proof.
  induction n as [|n IH]; intros exc a st last Ha Hexc Hcp.
  - rewrite (range_cons a (max_retries cfg + 1)) by lia.
    rewrite execute_agent_loop_step. cbv zeta.
    rewrite Nat.add_0_r in Hcp. rewrite Hcp.
    rewrite (range_nil a) by lia. simpl.
    do 2 f_equal. lia.
  - rewrite (range_cons a (max_retries cfg + 1)) by lia.
    rewrite execute_agent_loop_step. cbv zeta.
    pose proof (Hexc 0%nat ltac:(lia)) as H0. rewrite Nat.add_0_r in H0. rewrite H0.
    replace (a <? max_retries cfg)%Z with true by lia.
    rewrite (IH (fun j => exc (S j)) (a + 1)%Z).
    + rewrite (range_cons a (a + Z.of_nat (S n))) by lia. simpl.
      replace (a + 1 + Z.of_nat n)%Z with (a + Z.of_nat (S n))%Z by lia.
      rewrite <- !app_assoc. simpl. do 2 f_equal. lia.
    + lia.
    + cbn [spawned]. intros j Hj.
      replace (S (spawned st) + j)%nat with (spawned st + S j)%nat by lia.
      apply Hexc. lia.
    + cbn [spawned].
      replace (S (spawned st) + n)%nat with (spawned st + S n)%nat by lia. exact Hcp.
Qed.

(** X1. When the first [n] attempts raise and attempt [n+1], still within
    [max_retries], returns, [execute_agent] returns the process of that
    attempt: it has launched [n+1] times, slept 1, 2, ..., 2^(n-1) after the
    failed attempts and not after the successful one, and the earlier faults
    are dropped. *)
Theorem execute_agent_returns_first_success p args cfg env w st cp (n : nat)
    (exc : nat -> PyExc) :
  (Z.of_nat n < max_retries cfg)%Z ->
  (forall j, (j < n)%nat ->
             spawn w (spawned st + j) (executable w :: p :: args) env None = Raise (exc j)) ->
  spawn w (spawned st + n) (executable w :: p :: args) env None = Ret cp ->
  exists evs,
    execute_agent p args cfg env w st
    = (Ret cp, mkSt (clock_reads st) (spawned st + n + 1) (trace st ++ evs)) /\
    launches evs = repeat (executable w :: p :: args) (n + 1) /\
    sleeps evs = map (fun k => (2 ^ (k - 1))%Z) (range 1 (1 + Z.of_nat n)) /\
    List.last evs (ESleep 0) = ERun (executable w :: p :: args) env None.
Proof.
  intros Hn Hexc Hcp. eexists. split; [|split; [|split]].
  - unfold execute_agent.
    apply (execute_agent_loop_succeeds p args cfg env w cp n exc 1 st None);
      [lia | exact Hexc | exact Hcp].
  - rewrite launches_app, launches_backoff, length_range. simpl.
    replace (Z.to_nat (1 + Z.of_nat n - 1)) with n by lia. now rewrite repeat_app.
  - rewrite sleeps_app, sleeps_backoff. simpl. now rewrite app_nil_r.
  - apply last_last.
Qed.

Lemma execute_agent_returns_first_success_witness :
  exists evs,
    execute_agent "/repo/agents/summary_agent.py" [] (Samples.sample_cfg 3 false 4) None
      (mkWorld "python3" (fun n => Z.of_nat n)
         (fun i _ _ _ => if (i <? 2)%nat then Raise (OSError "busy")
                         else Ret (mkCompletedProcess 0 "" "")) []) st0
    = (Ret (mkCompletedProcess 0 "" ""), mkSt 0 3 evs) /\
    launches evs = repeat ["python3"; "/repo/agents/summary_agent.py"] 3 /\
    sleeps evs = [1; 2]%Z /\
    List.last evs (ESleep 0) = ERun ["python3"; "/repo/agents/summary_agent.py"] None None.
Proof.
  apply (execute_agent_returns_first_success "/repo/agents/summary_agent.py" []
           (Samples.sample_cfg 3 false 4) None
           (mkWorld "python3" (fun n => Z.of_nat n)
              (fun i _ _ _ => if (i <? 2)%nat then Raise (OSError "busy")
                              else Ret (mkCompletedProcess 0 "" "")) []) st0
           (mkCompletedProcess 0 "" "") 2 (fun _ => OSError "busy")).
  - simpl. lia.
  - intros [|[|j]] Hj; [reflexivity | reflexivity | lia].
  - reflexivity.
Defined.

Lemma pow2_step (a : Z) : (1 <= a)%Z -> (2 ^ a = 2 * 2 ^ (a - 1))%Z.
Proof.
  intros Ha. replace a with (Z.succ (a - 1)) at 1 by lia.
  apply Z.pow_succ_r. lia.
Qed.

Lemma execute_agent_loop_bounded p args cfg env w :
  forall (n : nat) (a : Z) (st : St) (last : option PyExc),
    (1 <= a)%Z -> (a + Z.of_nat n = max_retries cfg + 1)%Z ->
    exists o st' evs,
      execute_agent_loop p args cfg env (range a (max_retries cfg + 1)) last w st = (o, st') /\
      trace st' = (trace st ++ evs)%list /\
      spawned st' = (spawned st + length (launches evs))%nat /\
      (length (launches evs) <= n)%nat /\
      (0 <= total (sleeps evs) <= Z.max 0 (2 ^ (max_retries cfg - 1) - 2 ^ (a - 1)))%Z /\
      (forall e, o = Raise e -> length (launches evs) = n).
Proof.
  induction n as [|n IH]; intros a st last Ha1 Ha.
  - rewrite range_nil by lia. simpl.
    exists (Raise (match last with
                   | Some e => e
                   | None => RuntimeError "Unknown execution failure"
                   end)), st, [].
    rewrite app_nil_r. simpl.
    repeat split; try lia; destruct last; reflexivity.
  - rewrite (range_cons a (max_retries cfg + 1)) by lia.
    rewrite execute_agent_loop_step. cbv zeta.
    destruct (spawn w (spawned st) (executable w :: p :: args) env None) as [cp|e].
    + eexists. eexists. exists [ERun (executable w :: p :: args) env None].
      split; [reflexivity|]. simpl. repeat split; try lia. discriminate.
    + match goal with |- context [execute_agent_loop _ _ _ _ _ ?l _ ?s] =>
        destruct (IH (a + 1)%Z s l) as (o & st' & evs & Hrun & Ht & Hsp & Hl & Hs & Hr);
        [lia | lia |] end.
      rewrite Hrun. exists o, st'.
      destruct (Z.ltb_spec a (max_retries cfg)) as [Hlt|Hge].
      * exists (backoff (executable w :: p :: args) env a ++ evs)%list.
        split; [reflexivity|]. cbn [trace spawned] in Ht, Hsp.
        rewrite Ht, Hsp, <- !app_assoc. simpl.
        replace (a + 1 - 1)%Z with a in Hs by lia.
        pose proof (pow2_step a Ha1) as Hp.
        assert (2 ^ a <= 2 ^ (max_retries cfg - 1))%Z by (apply Z.pow_le_mono_r; lia).
        assert (0 < 2 ^ (a - 1))%Z by (apply Z.pow_pos_nonneg; lia).
        repeat split; try lia.
        all: intros e' He'; rewrite (Hr e' He'); reflexivity.
      * exists (ERun (executable w :: p :: args) env None :: evs).
        split; [reflexivity|]. cbn [trace spawned] in Ht, Hsp.
        rewrite Ht, Hsp, <- !app_assoc. simpl.
        replace (a + 1 - 1)%Z with a in Hs by lia.
        assert (a = max_retries cfg) by lia. subst a.
        assert (2 ^ (max_retries cfg - 1) <= 2 ^ max_retries cfg)%Z
          by (apply Z.pow_le_mono_r; lia).
        repeat split; try lia.
        all: intros e' He'; rewrite (Hr e' He'); reflexivity.
Qed.

(** X2. Whatever the launched processes do, [execute_agent] launches at most
    [max_retries] times and sleeps less than 2^(max_retries - 1) seconds in
    all; it raises only after all of [max_retries] attempts were made. *)
Theorem execute_agent_bounded p args cfg env w st :
  exists o st' evs,
    execute_agent p args cfg env w st = (o, st') /\
    trace st' = (trace st ++ evs)%list /\
    spawned st' = (spawned st + length (launches evs))%nat /\
    (length (launches evs) <= Z.to_nat (max_retries cfg))%nat /\
    (0 <= total (sleeps evs) <= Z.max 0 (2 ^ (max_retries cfg - 1) - 1))%Z /\
    (forall e, o = Raise e -> length (launches evs) = Z.to_nat (max_retries cfg)).
Proof.
  unfold execute_agent.
  destruct (Z.leb_spec (max_retries cfg) 0) as [Hm|Hm].
  - rewrite range_nil by lia. simpl. eexists. eexists. exists [].
    split; [reflexivity|]. rewrite app_nil_r. simpl.
    replace (Z.to_nat (max_retries cfg)) with 0%nat by lia.
    repeat split; lia.
  - destruct (execute_agent_loop_bounded p args cfg env w (Z.to_nat (max_retries cfg)) 1 st None)
      as (o & st' & evs & Hrun & Ht & Hsp & Hl & Hs & Hr); [lia | lia |].
    exists o, st', evs. change (2 ^ (1 - 1))%Z with 1%Z in Hs. auto 10.
Qed.

End RetryMore.

Section DispatchMore.
Import Py subprocess Effects mother_agent Dispatcher Measures.



Lemma run_sequential_stamps cfg env w : forall tasks results st,
  exists new st',
    run_sequential cfg env tasks results w st = (Ret (results ++ new)%list, st') /\
    map target new = map task_label tasks /\
    (forall i t, nth_error new i = Some t ->
       start_time t = Some (clock w (clock_reads st + 2 * i)) /\
       end_time t = Some (clock w (clock_reads st + 2 * i + 1))).
Proof.
  induction tasks as [|[kind value] tasks IH]; intros results st; simpl.
  - exists [], st. rewrite app_nil_r.
    split; [reflexivity|]. split; [reflexivity|]. intros [|i] t0 H; discriminate.
  - unfold bind.
    destruct (dispatch_task_returns cfg env kind value w st)
      as (t & st1 & Hrun & Hc & Htgt & _ & Hs & He).
    rewrite Hrun.
    destruct (IH (results ++ [t])%list st1) as (new & st' & Hrest & Hmap & Hst).
    exists (t :: new), st'. rewrite Hrest, <- app_assoc. split; [reflexivity|].
    simpl. rewrite Htgt, Hmap. split; [reflexivity|].
    intros [|i] t' Hi; simpl in Hi.
    + injection Hi as <-. rewrite Hs, He.
      split; do 2 f_equal; lia.
    + destruct (Hst i t' Hi) as [Hs' He']. rewrite Hs', He', Hc.
      split; do 2 f_equal; lia.
Qed.


(** X3. In sequential mode the results come in the order of the targets,
    and the tasks run one after the other: the result of rank [i] is the one
    of target [i], started at the clock reading of rank [2i] of the run and
    ended at the next reading. *)
Theorem dispatch_sequential_in_order cfg env views tasks w st :
  parallel cfg = false ->
  exists rs st',
    dispatch cfg env views tasks w st = (Ret rs, st') /\
    map target rs = map task_label tasks /\
    (forall i t, nth_error rs i = Some t ->
       start_time t = Some (clock w (clock_reads st + 2 * i)) /\
       end_time t = Some (clock w (clock_reads st + 2 * i + 1))).
Proof.
  intros Hpar. unfold dispatch. rewrite Hpar. simpl.
  destruct (run_sequential_stamps cfg env w tasks [] st) as (new & st' & Hrun & Hmap & Hst).
  exists new, st'. auto.
Qed.

Lemma dispatch_sequential_in_order_witness :
  exists rs st',
    dispatch (Samples.sample_cfg 3 false 4) None (fun _ => Samples.world_exit 0)
      [("email", "a@b.com"); ("carrier-pigeon", "x"); ("username", "alice")]
      (Samples.world_exit 0) st0 = (Ret rs, st') /\
    map target rs = ["email:a@b.com"; "x"; "alice"] /\
    (forall i t, nth_error rs i = Some t ->
       start_time t = Some (Z.of_nat (0 + 2 * i)) /\
       end_time t = Some (Z.of_nat (0 + 2 * i + 1))).
Proof.
  apply (dispatch_sequential_in_order (Samples.sample_cfg 3 false 4) None
           (fun _ => Samples.world_exit 0)
           [("email", "a@b.com"); ("carrier-pigeon", "x"); ("username", "alice")]
           (Samples.world_exit 0) st0).
  reflexivity.
Defined.



End DispatchMore.

Section MainMore.
Import Py subprocess Effects mother_agent Dispatcher Measures.

Lemma success_count_bounds rs : (0 <= success_count rs <= Z.of_nat (length rs))%Z.
Proof.
  unfold success_count. split; [lia|]. apply Nat2Z.inj_le.
  induction rs as [|r rs IH]; simpl; [lia|].
  destruct (TaskStatus_eqb (status r) COMPLETED); simpl; lia.
Qed.

(** X5. When concurrent mode is asked for without workers, [main] raises
    the [ValueError] of the pool before anything is done: no process is
    launched, no summary is built and no tally is logged. *)
Theorem main_refuses_without_workers cfg environ case_name views targets w st :
  parallel cfg = true -> targets <> [] -> (worker_count cfg <= 0)%Z ->
  main cfg environ case_name views targets w st
  = (Raise (ValueError "max_workers must be greater than 0"), st).
Proof.
  intros Hpar Hne Hw. unfold main. rewrite (bool_decide_eq_false_2 _ Hne).
  cbv zeta. rewrite tasks_copy. unfold bind at 1.
  now rewrite dispatch_refused.
Qed.

Lemma main_refuses_without_workers_witness :
  main (Samples.sample_cfg 3 true 0) ∅ "case1" (fun _ => Samples.world_exit 0)
    [("username", "alice")] (Samples.world_exit 0) st0
  = (Raise (ValueError "max_workers must be greater than 0"), st0).
Proof.
  apply (main_refuses_without_workers (Samples.sample_cfg 3 true 0) ∅ "case1"
           (fun _ => Samples.world_exit 0) [("username", "alice")] (Samples.world_exit 0) st0).
  - reflexivity.
  - discriminate.
  - simpl. lia.
Defined.

(** X6. With targets and a pool that can be created, [main] never raises,
    whatever the tools and the aggregator do: it returns a tally whose total
    is the number of targets and whose number of successes lies between 0
    and that total, and the last two lines it logs are this tally and the
    line that names the report. *)
Theorem main_counts_every_target cfg environ case_name views targets w st :
  targets <> [] -> parallel cfg = false \/ (0 < worker_count cfg)%Z ->
  exists c st' evs,
    main cfg environ case_name views targets w st
    = (Ret (Some (c, Z.of_nat (length targets))), st') /\
    (0 <= c <= Z.of_nat (length targets))%Z /\
    trace st' = (evs ++ [ELog ("Investigation complete: " +:+ str_of_int c +:+ "/"
                               +:+ str_of_int (Z.of_nat (length targets))
                               +:+ " tasks successful");
                         ELog ("Report: " +:+ report_dir cfg +:+ "/" +:+ case_name
                               +:+ ".txt")])%list.
Proof.
  intros Hne Hpre. unfold main. rewrite (bool_decide_eq_false_2 _ Hne).
  cbv zeta. rewrite tasks_copy.
  destruct (dispatch_spec cfg (Some (<["REPORT_NAME" := case_name +:+ ".txt"]> environ))
              views targets w st) as (rs & st1 & Hrun & Hperm & _); [tauto|].
  assert (Hlen : length rs = length targets).
  { apply Permutation_length in Hperm. now rewrite !length_map in Hperm. }
  unfold bind at 1. rewrite Hrun. unfold bind, try_, log, ret.
  pose proof (success_count_bounds rs) as Hc. unfold tally_line, report_line, joinpath.
  rewrite Hlen in *.
  destruct (build_summary cfg _ w st1) as [[cp|e] st2]; cbn [trace];
    exists (success_count rs); eexists; eexists; (split; [reflexivity|]);
    (split; [exact Hc|]); cbn [trace]; rewrite <- app_assoc; reflexivity.
Qed.

Lemma main_counts_every_target_witness :
  exists c st' evs,
    main (Samples.sample_cfg 2 true 4) ∅ "case1" (fun _ => Samples.world_exit 1)
      [("email", "a@b.com"); ("username", "alice")] Samples.world_launch_fault st0
    = (Ret (Some (c, Z.of_nat 2)), st') /\
    (0 <= c <= Z.of_nat 2)%Z /\
    trace st' = (evs ++ [ELog ("Investigation complete: " +:+ str_of_int c +:+ "/"
                               +:+ str_of_int (Z.of_nat 2) +:+ " tasks successful");
                         ELog "Report: /repo/reports/case1.txt"])%list.
Proof.
  apply (main_counts_every_target (Samples.sample_cfg 2 true 4) ∅ "case1"
           (fun _ => Samples.world_exit 1)
           [("email", "a@b.com"); ("username", "alice")] Samples.world_launch_fault st0).
  - discriminate.
  - right. simpl. lia.
Defined.

(** X7. A task whose agent is missing from [cfg.agents] does not raise and
    launches nothing: the [KeyError] becomes a failed result whose error is
    the quoted key, between two readings of the clock; the summary step
    raises the [KeyError] at once. *)
Theorem task_without_agent cfg env kind value w st :
  (agents cfg !! "username" = None ->
   run_username value cfg env w st
   = (Ret (mkTaskResult value "username" FAILED (Some (clock w (clock_reads st)))
             (Some (clock w (S (clock_reads st)))) None (Some "'username'")),
      after_now w (after_now w st))) /\
  (agents cfg !! "spiderfoot" = None ->
   run_spiderfoot kind value cfg env w st
   = (Ret (mkTaskResult (kind +:+ ":" +:+ value) "spiderfoot" FAILED
             (Some (clock w (clock_reads st)))
             (Some (clock w (S (clock_reads st)))) None (Some "'spiderfoot'")),
      after_now w (after_now w st))) /\
  (agents cfg !! "summary" = None ->
   build_summary cfg env w st = (Raise (KeyError "summary"), st)).
Proof.
  split; [|split]; intros H.
  - rewrite run_username_eq, H. reflexivity.
  - rewrite run_spiderfoot_eq, H. reflexivity.
  - unfold build_summary, bind, agents_getitem. now rewrite H.
Qed.

Lemma task_without_agent_witness :
  run_username "alice" (mkConfig "/repo" "/repo/reports" ∅ 3 false 4) None
    (Samples.world_exit 0) st0
  = (Ret (mkTaskResult "alice" "username" FAILED (Some 0%Z) (Some 1%Z) None
            (Some "'username'")),
     mkSt 2 0 [ENow 0; ENow 1]) /\
  run_spiderfoot "ip" "10.0.0.1" (mkConfig "/repo" "/repo/reports" ∅ 3 false 4) None
    (Samples.world_exit 0) st0
  = (Ret (mkTaskResult "ip:10.0.0.1" "spiderfoot" FAILED (Some 0%Z) (Some 1%Z) None
            (Some "'spiderfoot'")),
     mkSt 2 0 [ENow 0; ENow 1]) /\
  build_summary (mkConfig "/repo" "/repo/reports" ∅ 3 false 4) None (Samples.world_exit 0) st0
  = (Raise (KeyError "summary"), st0).
Proof.
  split; [|split].
  - apply (proj1 (task_without_agent (mkConfig "/repo" "/repo/reports" ∅ 3 false 4) None
                    "ip" "alice" (Samples.world_exit 0) st0)).
    reflexivity.
  - apply (proj1 (proj2 (task_without_agent (mkConfig "/repo" "/repo/reports" ∅ 3 false 4)
                           None "ip" "10.0.0.1" (Samples.world_exit 0) st0))).
    reflexivity.
  - apply (proj2 (proj2 (task_without_agent (mkConfig "/repo" "/repo/reports" ∅ 3 false 4)
                           None "ip" "alice" (Samples.world_exit 0) st0))).
    reflexivity.
Defined.

End MainMore.

Section ClassifierMore.
Import Py Re Classifier Patterns SpecClassifier Measures.

Lemma rstrip_no_space (s : string) : all_chars nonspace s = true -> rstrip s = s.
Proof.
  induction s as [|c s IH]; simpl; [reflexivity|].
  intros [Hc Hs]%andb_true_iff. rewrite (IH Hs).
  unfold nonspace in Hc. apply negb_true_iff in Hc. rewrite Hc. now destruct s.
Qed.

Lemma strip_no_space (s : string) : all_chars nonspace s = true -> strip s = s.
Proof.
  intros H. unfold strip. rewrite lstrip_fixed; [now apply rstrip_no_space|].
  destruct s as [|c s]; [exact I|]. simpl in H.
  apply andb_true_iff in H as [Hc _]. unfold nonspace in Hc. now apply negb_true_iff in Hc.
Qed.

Lemma isdecimal_not_space c : isdecimal c = true -> isspace c = false.
Proof.
  unfold isdecimal, isspace. intros [H1 H2]%andb_true_iff.
  apply N.leb_le in H1, H2.
  repeat match goal with
         | |- context [(?a <=? ?b)%N] => destruct (N.leb_spec a b); try lia
         | |- context [(?a =? ?b)%N] => destruct (N.eqb_spec a b); try lia
         end; reflexivity.
Qed.

Lemma octet_digit_or_dot a : octet_like a -> all_chars digit_or_dot a = true.
Proof.
  intros [_ H]. revert H. apply all_chars_impl. intros c Hc. unfold digit_or_dot.
  now rewrite Hc.
Qed.

Lemma ipv4_digit_or_dot s : ipv4_like s -> all_chars digit_or_dot s = true.
Proof.
  intros (a & b & c & d & -> & Ha & Hb & Hc & Hd).
  rewrite !all_chars_app.
  rewrite (octet_digit_or_dot a Ha), (octet_digit_or_dot b Hb),
    (octet_digit_or_dot c Hc), (octet_digit_or_dot d Hd).
  reflexivity.
Qed.

Lemma ipv4_phone_like s : ipv4_like s -> phone_like s.
Proof.
  intros H. pose proof (ipv4_digit_or_dot s H) as Hall.
  destruct H as (a & b & c & d & -> & [[Ha1 _] Ha] & [[Hb1 _] _] & [[Hc1 _] _] & [[Hd1 _] _]).
  destruct a as [|x a]; [simpl in Ha1; lia|].
  exists "", x, (a +:+ "." +:+ b +:+ "." +:+ c +:+ "." +:+ d).
  simpl in Ha. apply andb_true_iff in Ha as [Hx _].
  split; [reflexivity|]. split; [now left|]. split; [exact Hx|]. split.
  - rewrite !append_length. simpl. lia.
  - simpl in Hall. apply andb_true_iff in Hall as [_ Hall].
    revert Hall. apply all_chars_impl. intros ch. unfold digit_or_dot, phone_class.
    intros [->| ->]%orb_true_iff; [reflexivity | now rewrite !orb_true_r].
Qed.

(** X8. A dotted quad is classified as a phone number, never as an ip or a
    domain, by both copies of the classifier; as a target without explicit
    kind it is therefore sent to the recon tool under the kind [phone]. *)
Theorem guess_kind_ipv4_is_phone s cfg env :
  ipv4_like s ->
  mother_agent.guess_kind s = "phone" /\
  run_case.guess_kind s = "phone" /\
  mother_agent.dispatch_task cfg env (mother_agent.guess_kind s) s
  = mother_agent.run_spiderfoot "phone" s cfg env.
Proof.
  intros H.
  assert (Hk : mother_agent.guess_kind s = "phone").
  { pose proof (ipv4_digit_or_dot s H) as Hall.
    pose proof (ipv4_phone_like s H) as Hp.
    unfold mother_agent.guess_kind. cbv zeta.
    rewrite strip_no_space.
    2: { revert Hall. apply all_chars_impl. intros c. unfold digit_or_dot, nonspace, isdecimal.
         intros [Hc| ->%Ascii.eqb_eq]%orb_true_iff; [|reflexivity].
         now rewrite isdecimal_not_space. }
    destruct (fullmatch email_re s) eqn:He.
    - apply email_re_spec in He. exfalso. revert He. now apply phone_like_not_email.
    - apply phone_re_spec in Hp. now rewrite Hp. }
  split; [exact Hk|]. split; [exact Hk|]. rewrite Hk. reflexivity.
Qed.

Lemma guess_kind_ipv4_is_phone_witness :
  ipv4_like "192.168.0.1" /\
  mother_agent.guess_kind "192.168.0.1" = "phone" /\
  run_case.guess_kind "192.168.0.1" = "phone" /\
  mother_agent.dispatch_task (Samples.sample_cfg 3 false 4) None
    (mother_agent.guess_kind "192.168.0.1") "192.168.0.1"
  = mother_agent.run_spiderfoot "phone" "192.168.0.1" (Samples.sample_cfg 3 false 4) None.
Proof.
  assert (H : ipv4_like "192.168.0.1").
  { exists "192", "168", "0", "1". unfold octet_like. simpl. repeat split; lia. }
  split; [exact H|].
  exact (guess_kind_ipv4_is_phone "192.168.0.1" (Samples.sample_cfg 3 false 4) None H).
Defined.

(** X9. A target classified by [guess_kind] is always routed to a tool: the
    username tool for the kind [username], the recon tool for [email],
    [phone] and [domain]; it never ends as a task of unknown type. *)
Theorem classified_target_is_routed v value cfg env :
  (mother_agent.guess_kind v = "username" /\
   mother_agent.dispatch_task cfg env (mother_agent.guess_kind v) value
   = mother_agent.run_username value cfg env) \/
  (In (mother_agent.guess_kind v) ["email"; "phone"; "domain"] /\
   mother_agent.dispatch_task cfg env (mother_agent.guess_kind v) value
   = mother_agent.run_spiderfoot (mother_agent.guess_kind v) value cfg env).
Proof.
  unfold mother_agent.guess_kind. cbv zeta.
  destruct (fullmatch email_re (strip v)); [right; simpl; auto|].
  destruct (fullmatch phone_re (strip v)); [right; simpl; auto|].
  destruct (contains "." (strip v) && negb (contains " " (strip v)));
    [right; simpl; auto 6 | left; auto].
Qed.

End ClassifierMore.

(** * Strings, again *)

Section MoreStringFacts.
Import Py PyStr Shapes.

Lemma lstrip_is_lstrip_chars s : lstrip s = lstrip_chars isspace s.
Proof. induction s as [|c s IH]; simpl; [reflexivity | now rewrite IH]. Qed.

Lemma rstrip_is_rstrip_chars s : rstrip s = rstrip_chars isspace s.
Proof. induction s as [|c s IH]; simpl; [reflexivity | now rewrite IH]. Qed.

Lemma strip_is_strip_chars s : strip s = strip_chars isspace s.
Proof. unfold strip, strip_chars. now rewrite rstrip_is_rstrip_chars, lstrip_is_lstrip_chars. Qed.

Lemma all_chars_lstrip_chars q p s :
  all_chars q s = true -> all_chars q (lstrip_chars p s) = true.
Proof.
  induction s as [|c s IH]; simpl; [reflexivity|].
  intros H. destruct (p c); [|exact H].
  apply andb_true_iff in H as [_ H]. auto.
Qed.

Lemma all_chars_rstrip_chars q p s :
  all_chars q s = true -> all_chars q (rstrip_chars p s) = true.
Proof.
  induction s as [|c s IH]; simpl; [reflexivity|].
  intros [Hc Hs]%andb_true_iff. specialize (IH Hs).
  destruct (rstrip_chars p s) as [|d r].
  - destruct (p c); simpl; [reflexivity | now rewrite Hc].
  - change (all_chars q (String c (String d r))) with (q c && all_chars q (String d r)).
    now rewrite Hc, IH.
Qed.

Lemma all_chars_strip_chars q p s :
  all_chars q s = true -> all_chars q (strip_chars p s) = true.
Proof. intros H. now apply all_chars_rstrip_chars, all_chars_lstrip_chars. Qed.

Lemma all_chars_strip q s : all_chars q s = true -> all_chars q (strip s) = true.
Proof. rewrite strip_is_strip_chars. apply all_chars_strip_chars. Qed.

Lemma rstrip_chars_head p c s :
  p c = false -> exists r, rstrip_chars p (String c s) = String c r.
Proof. intros Hc. simpl. destruct (rstrip_chars p s); rewrite ?Hc; eauto. Qed.

Lemma rstrip_chars_idem p s : rstrip_chars p (rstrip_chars p s) = rstrip_chars p s.
Proof.
  induction s as [|c s IH]; simpl; [reflexivity|].
  destruct (rstrip_chars p s) as [|d r] eqn:E.
  - destruct (p c) eqn:Hc; simpl; [reflexivity | now rewrite Hc].
  - change (rstrip_chars p (String c (String d r))) with
      (match rstrip_chars p (String d r) with
       | "" => if p c then "" else String c ""
       | r' => String c r'
       end).
    rewrite IH. reflexivity.
Qed.

Lemma lstrip_chars_fixed p s :
  match s with String c _ => p c = false | _ => True end -> lstrip_chars p s = s.
Proof. destruct s as [|c s]; simpl; [reflexivity|]. now intros ->. Qed.

Lemma lstrip_chars_head p s :
  match lstrip_chars p s with String c _ => p c = false | _ => True end.
Proof.
  induction s as [|c s IH]; simpl; [exact I|].
  destruct (p c) eqn:Hc; [exact IH | exact Hc].
Qed.

(** [strip(chars)] leaves a string that neither starts nor ends with one of
    the characters. *)
Lemma strip_chars_fixed p s :
  lstrip_chars p (strip_chars p s) = strip_chars p s /\
  rstrip_chars p (strip_chars p s) = strip_chars p s.
Proof.
  unfold strip_chars. split; [|apply rstrip_chars_idem].
  apply lstrip_chars_fixed. pose proof (lstrip_chars_head p s) as Hh.
  destruct (lstrip_chars p s) as [|c t]; [exact I|].
  destruct (rstrip_chars_head p c t Hh) as [r ->]. exact Hh.
Qed.

Lemma strip_chars_idem p s : strip_chars p (strip_chars p s) = strip_chars p s.
Proof.
  destruct (strip_chars_fixed p s) as [Hl Hr].
  unfold strip_chars at 1. now rewrite Hl, Hr.
Qed.

Lemma rstrip_chars_app p a b :
  rstrip_chars p b <> "" -> rstrip_chars p (a +:+ b) = a +:+ rstrip_chars p b.
Proof.
  intros Hb. induction a as [|c a IH]; simpl; [reflexivity|].
  rewrite IH. destruct (a +:+ rstrip_chars p b) eqn:E; [|reflexivity].
  apply append_eq_nil in E as [_ E]. contradiction.
Qed.

Lemma lstrip_chars_app p a b :
  lstrip_chars p a <> "" -> lstrip_chars p (a +:+ b) = lstrip_chars p a +:+ b.
Proof.
  induction a as [|c a IH]; simpl; [congruence|].
  destruct (p c); [exact IH | reflexivity].
Qed.

Lemma split_once_found sep a b :
  contains sep a = false -> split_once sep (a +:+ String sep b) = Some (a, b).
Proof.
  induction a as [|c a IH]; simpl.
  - now rewrite Ascii.eqb_refl.
  - intros [Hc Ha]%orb_false_iff. rewrite Ascii.eqb_sym, Hc. now rewrite (IH Ha).
Qed.

Lemma split_once_Some sep s a b :
  split_once sep s = Some (a, b) -> s = a +:+ String sep b /\ contains sep a = false.
Proof.
  revert a. induction s as [|c s IH]; simpl; intros a; [discriminate|].
  destruct (Ascii.eqb_spec c sep) as [->|Hne].
  - intros [= <- <-]. auto.
  - destruct (split_once sep s) as [[a' b']|]; [|discriminate].
    intros [= <- <-]. destruct (IH a' eq_refl) as [-> Ha]. simpl.
    split; [reflexivity|]. rewrite Ha, orb_false_r.
    destruct (Ascii.eqb_spec sep c); congruence.
Qed.

Lemma split_once_None sep s : split_once sep s = None <-> contains sep s = false.
Proof.
  induction s as [|c s IH]; simpl; [tauto|].
  rewrite (Ascii.eqb_sym sep c).
  destruct (Ascii.eqb c sep); simpl; [split; discriminate|].
  destruct (split_once sep s) as [[a b]|]; rewrite <- IH; split; congruence.
Qed.

Lemma lower_char_idem c : lower_char (lower_char c) = lower_char c.
Proof. destruct c as [[] [] [] [] [] [] [] []]; reflexivity. Qed.

Lemma lower_char_space c : isspace (lower_char c) = isspace c.
Proof. destruct c as [[] [] [] [] [] [] [] []]; reflexivity. Qed.

Lemma lower_char_linebreak c : is_linebreak (lower_char c) = is_linebreak c.
Proof. destruct c as [[] [] [] [] [] [] [] []]; reflexivity. Qed.

Lemma lower_char_colon c : Ascii.eqb ":" (lower_char c) = Ascii.eqb ":" c.
Proof. destruct c as [[] [] [] [] [] [] [] []]; reflexivity. Qed.

Lemma lower_idem s : lower (lower s) = lower s.
Proof.
  unfold lower. induction s as [|c s IH]; simpl; [reflexivity|].
  now rewrite lower_char_idem, IH.
Qed.

Lemma contains_colon_lower s : contains ":" (lower s) = contains ":" s.
Proof.
  unfold lower. induction s as [|c s IH]; [reflexivity|].
  cbn [map_chars contains]. now rewrite lower_char_colon, IH.
Qed.

Lemma all_chars_map_chars q f s :
  all_chars q (map_chars f s) = all_chars (fun c => q (f c)) s.
Proof. induction s as [|c s IH]; simpl; [reflexivity | now rewrite IH]. Qed.

Lemma map_chars_app f a b : map_chars f (a +:+ b) = map_chars f a +:+ map_chars f b.
Proof. induction a as [|c a IH]; simpl; [reflexivity | now rewrite IH]. Qed.

Lemma length_map_chars f s : String.length (map_chars f s) = String.length s.
Proof. induction s as [|c s IH]; simpl; [reflexivity | now rewrite IH]. Qed.

Lemma lstrip_lower s : lstrip (lower s) = lower (lstrip s).
Proof.
  unfold lower. induction s as [|c s IH]; simpl; [reflexivity|].
  rewrite lower_char_space. destruct (isspace c); [exact IH | reflexivity].
Qed.

Lemma rstrip_lower s : rstrip (lower s) = lower (rstrip s).
Proof.
  unfold lower. induction s as [|c s IH]; simpl; [reflexivity|].
  rewrite IH, lower_char_space.
  destruct (rstrip s); simpl; [destruct (isspace c)|]; reflexivity.
Qed.

Lemma strip_lower s : strip (lower s) = lower (strip s).
Proof. unfold strip. now rewrite lstrip_lower, rstrip_lower. Qed.

End MoreStringFacts.

Section LineFacts.
Import Py PyStr Shapes mother_agent_targets.

Lemma not_linebreak_not_CR c : not_linebreak c = true -> Ascii.eqb c CR = false.
Proof.
  unfold not_linebreak. destruct (Ascii.eqb_spec c CR) as [->|]; [discriminate | reflexivity].
Qed.

Lemma contains_false_iff c s :
  contains c s = false <-> all_chars (fun d => negb (Ascii.eqb c d)) s = true.
Proof.
  induction s as [|d s IH]; simpl; [tauto|].
  rewrite orb_false_iff, andb_true_iff, negb_true_iff, IH. tauto.
Qed.

(** A line without boundary, followed by a line feed, is one line. *)
Lemma splitlines_from_line l : forall cur rest,
  one_line l ->
  splitlines_from cur (l +:+ String LF rest) = (cur +:+ l) :: splitlines_from "" rest.
Proof.
  unfold one_line. induction l as [|c l IH]; intros cur rest H.
  - rewrite append_nil_r. reflexivity.
  - simpl in H. apply andb_true_iff in H as [Hc Hl].
    cbn [String.append splitlines_from].
    rewrite (not_linebreak_not_CR c Hc).
    unfold not_linebreak in Hc. apply negb_true_iff in Hc. rewrite Hc.
    rewrite (IH _ _ Hl), append_assoc. reflexivity.
Qed.

Lemma splitlines_join lines :
  lines <> [] -> Forall one_line lines ->
  splitlines (join (String LF "") lines +:+ String LF "") = lines.
Proof.
  intros Hne Hall. induction Hall as [|x lines Hx Hall IH]; [congruence|].
  destruct lines as [|y lines].
  - simpl. unfold splitlines. now rewrite (splitlines_from_line x "" "" Hx).
  - change (join (String LF "") (x :: y :: lines))
      with (x +:+ String LF "" +:+ join (String LF "") (y :: lines)).
    rewrite !append_assoc. change (String LF "" +:+ ?t) with (String LF t).
    unfold splitlines. rewrite (splitlines_from_line x "" _ Hx).
    f_equal. apply IH. discriminate.
Qed.

Lemma universal_newlines_no_CR s :
  all_chars (fun c => negb (Ascii.eqb c CR)) s = true -> universal_newlines s = s.
Proof.
  induction s as [|c s IH]; simpl; [reflexivity|].
  intros [Hc Hs]%andb_true_iff. apply negb_true_iff in Hc. rewrite Hc. now rewrite IH.
Qed.

Lemma one_line_no_CR s :
  one_line s -> all_chars (fun c => negb (Ascii.eqb c CR)) s = true.
Proof.
  apply all_chars_impl. intros c Hc. now rewrite (not_linebreak_not_CR c Hc).
Qed.

Lemma load_targets_lines_acc lines : forall pairs,
  load_targets_lines lines pairs = (pairs ++ flat_map pair_of_line lines)%list.
Proof.
  unfold pair_of_line.
  induction lines as [|l lines IH]; intros pairs; simpl; [now rewrite app_nil_r|].
  destruct (String.eqb (strip l) "" || negb (contains ":" (strip l))); [apply IH|].
  destruct (split_once ":" (strip l)) as [[k v]|]; [|apply IH].
  rewrite IH. simpl. now rewrite <- app_assoc.
Qed.

Lemma strip_fixed s : lstrip s = s -> rstrip s = s -> strip s = s.
Proof. intros Hl Hr. unfold strip. now rewrite Hl, Hr. Qed.

Lemma strip_fixed_parts s : strip s = s -> lstrip s = s /\ rstrip s = s.
Proof.
  intros H. destruct (strip_spec s) as (_ & _ & _ & _ & _ & Hl & Hr).
  rewrite H in Hl, Hr. auto.
Qed.

Lemma rstrip_app_fixed a b : rstrip b <> "" -> rstrip (a +:+ b) = a +:+ rstrip b.
Proof. rewrite !rstrip_is_rstrip_chars. apply rstrip_chars_app. Qed.

(** The line written for a stored pair, once stripped. *)
Lemma strip_pair_line k v :
  strip k = k -> strip v = v ->
  strip (k +:+ ": " +:+ v) = k +:+ ":" +:+ (if String.eqb v "" then "" else " " +:+ v).
Proof.
  intros Hk Hv. destruct (strip_fixed_parts k Hk) as [Hkl Hkr].
  destruct (strip_fixed_parts v Hv) as [Hvl Hvr].
  assert (Hhead : forall t, lstrip (k +:+ ":" +:+ t) = k +:+ ":" +:+ t).
  { intros t. apply lstrip_fixed. destruct k as [|c k]; [reflexivity|].
    simpl in Hkl |- *. destruct (isspace c); [|reflexivity].
    exfalso. clear -Hkl. assert (Hlen : (String.length (lstrip k) <= String.length k)%nat).
    { clear. induction k as [|d k IH]; simpl; [lia|]. destruct (isspace d); simpl; lia. }
    rewrite Hkl in Hlen. simpl in Hlen. lia. }
  destruct (String.eqb_spec v "") as [->|Hne].
  - change (k +:+ ": " +:+ "") with (k +:+ ":" +:+ " ").
    replace (k +:+ ":" +:+ " ") with ("" +:+ (k +:+ ":") +:+ " ")
      by (simpl; now rewrite append_assoc).
    rewrite strip_app_space by reflexivity.
    apply strip_fixed; [apply (Hhead "")|].
    now rewrite rstrip_app_fixed by discriminate.
  - change (k +:+ ": " +:+ v) with (k +:+ ":" +:+ " " +:+ v).
    apply strip_fixed; [apply Hhead|].
    replace (k +:+ ":" +:+ " " +:+ v) with ((k +:+ ": ") +:+ v)
      by (now rewrite append_assoc).
    rewrite rstrip_app_fixed by (now rewrite Hvr). now rewrite Hvr.
Qed.

Lemma pair_of_stored_line kv :
  stored_pair kv -> pair_of_line (fst kv +:+ ": " +:+ snd kv) = [kv].
Proof.
  destruct kv as [k v]. intros (Hlow & Hk & Hcol & _ & Hv & _). cbn [fst snd] in *.
  unfold pair_of_line. cbn [load_targets_lines]. cbv zeta.
  rewrite (strip_pair_line k v Hk Hv).
  set (t := if String.eqb v "" then "" else " " +:+ v).
  change (k +:+ ":" +:+ t) with (k +:+ String ":" t).
  assert (Hne : String.eqb (k +:+ String ":" t) "" = false).
  { destruct k; reflexivity. }
  rewrite Hne, contains_app. cbn [contains]. rewrite Ascii.eqb_refl, orb_true_r. simpl.
  rewrite (split_once_found ":" k t Hcol), Hk, Hlow.
  replace (strip t) with v; [reflexivity|].
  unfold t. destruct (String.eqb_spec v "") as [->|_]; [reflexivity|].
  replace (" " +:+ v) with (" " +:+ v +:+ "") by (now rewrite append_nil_r).
  rewrite strip_app_space by reflexivity. now rewrite Hv.
Qed.

End LineFacts.

Section FileFacts.
Import Py PyStr Shapes mother_agent_targets.

Lemma string_ind2 (P : string -> Prop) :
  P "" -> (forall c, P (String c "")) ->
  (forall c d s, P s -> P (String d s) -> P (String c (String d s))) ->
  forall s, P s.
Proof.
  intros H0 H1 H2.
  assert (H : forall s, P s /\ forall c, P (String c s)).
  { induction s as [|d s [IH1 IH2]]; split; auto. }
  intros s. apply H.
Qed.

(** After a line feed a new line starts, whatever comes before. *)
Lemma splitlines_from_app_LF a b : forall cur,
  splitlines_from cur (a +:+ String LF b)
  = (splitlines_from cur (a +:+ String LF "") ++ splitlines b)%list.
Proof.
  induction a as [|c|c d s IHs IHds] using string_ind2; intros cur.
  - reflexivity.
  - cbn [String.append splitlines_from].
    destruct (Ascii.eqb c CR); [reflexivity|].
    destruct (is_linebreak c); reflexivity.
  - cbn [String.append splitlines_from].
    cbn [String.append] in IHds.
    destruct (Ascii.eqb c CR).
    + destruct (Ascii.eqb d LF).
      * cbn [app]. f_equal. apply IHs.
      * cbn [app]. f_equal. apply IHds.
    + destruct (is_linebreak c).
      * cbn [app]. f_equal. apply IHds.
      * apply IHds.
Qed.

Lemma splitlines_app_newline_ended a b :
  newline_ended a -> splitlines (a +:+ b) = (splitlines a ++ splitlines b)%list.
Proof.
  intros [->|[e ->]]; [reflexivity|].
  rewrite append_assoc. apply splitlines_from_app_LF.
Qed.

Lemma universal_newlines_has_no_CR s :
  all_chars (fun c => negb (Ascii.eqb c CR)) (universal_newlines s) = true.
Proof.
  induction s as [|c|c d s IHs IHds] using string_ind2.
  - reflexivity.
  - cbn [universal_newlines]. destruct (Ascii.eqb c CR) eqn:E; simpl; [reflexivity|].
    now rewrite E.
  - cbn [universal_newlines]. destruct (Ascii.eqb c CR) eqn:E.
    + destruct (Ascii.eqb d LF); cbn [all_chars]; [exact IHs | exact IHds].
    + cbn [all_chars]. rewrite E. exact IHds.
Qed.

Lemma universal_newlines_app a b :
  all_chars (fun c => negb (Ascii.eqb c CR)) a = true ->
  universal_newlines (a +:+ b) = a +:+ universal_newlines b.
Proof.
  induction a as [|c a IH]; [reflexivity|].
  cbn [all_chars String.append universal_newlines].
  intros [Hc Ha]%andb_true_iff. apply negb_true_iff in Hc. rewrite Hc.
  now rewrite IH.
Qed.

Lemma universal_newlines_cons2 c d s :
  universal_newlines (String c (String d s))
  = if Ascii.eqb c CR
    then if Ascii.eqb d LF then String LF (universal_newlines s)
         else String LF (universal_newlines (String d s))
    else String c (universal_newlines (String d s)).
Proof. reflexivity. Qed.

Lemma universal_newlines_keeps_end s :
  newline_ended s -> newline_ended (universal_newlines s).
Proof.
  intros [->|[e ->]]; [now left|]. right.
  induction e as [|c|c d s IHs IHds] using string_ind2.
  - exists "". reflexivity.
  - cbn [String.append universal_newlines].
    destruct (Ascii.eqb c CR); [exists ""; reflexivity|].
    exists (String c ""). reflexivity.
  - cbn [String.append] in *. rewrite universal_newlines_cons2.
    destruct (Ascii.eqb c CR).
    + destruct (Ascii.eqb d LF).
      * destruct IHs as [e' ->]. now exists (String LF e').
      * destruct IHds as [e' ->]. now exists (String LF e').
    + destruct IHds as [e' ->]. now exists (String c e').
Qed.

Lemma one_line_pair_line kv :
  Shapes.stored_pair kv -> one_line (fst kv +:+ ": " +:+ snd kv).
Proof.
  intros (_ & _ & _ & Hk & _ & Hv). unfold one_line in *.
  rewrite !all_chars_app, Hk, Hv. reflexivity.
Qed.

Lemma targets_text_lines pairs :
  pairs <> [] -> Forall stored_pair pairs ->
  splitlines (targets_text pairs) = map (fun kv => fst kv +:+ ": " +:+ snd kv) pairs /\
  all_chars (fun c => negb (Ascii.eqb c CR)) (targets_text pairs) = true.
Proof.
  intros Hne Hall. unfold targets_text.
  replace (map (fun '(k, v) => k +:+ ": " +:+ v) pairs)
    with (map (fun kv => fst kv +:+ ": " +:+ snd kv) pairs)
    by (apply map_ext; now intros [k v]).
  assert (Hl : Forall one_line (map (fun kv => fst kv +:+ ": " +:+ snd kv) pairs)).
  { apply List.Forall_map. eapply List.Forall_impl; [|exact Hall].
    intros kv. apply one_line_pair_line. }
  split.
  - apply splitlines_join; [|exact Hl]. destruct pairs; [congruence | discriminate].
  - rewrite all_chars_app, andb_true_r. clear Hne Hall.
    induction Hl as [|x ls Hx Hl IH]; [reflexivity|].
    destruct ls as [|y ls].
    + simpl. now apply one_line_no_CR.
    + change (join (String LF "") (x :: y :: ls))
        with (x +:+ String LF "" +:+ join (String LF "") (y :: ls)).
      rewrite !all_chars_app, (one_line_no_CR x Hx), IH. reflexivity.
Qed.

Lemma flat_map_stored_lines pairs :
  Forall stored_pair pairs ->
  flat_map pair_of_line (map (fun kv => fst kv +:+ ": " +:+ snd kv) pairs) = pairs.
Proof.
  induction 1 as [|kv pairs Hkv _ IH]; [reflexivity|].
  cbn [map flat_map]. rewrite (pair_of_stored_line kv Hkv), IH. reflexivity.
Qed.

(** The text of stored pairs is read back as these pairs. *)
Lemma load_targets_text pairs :
  Forall stored_pair pairs ->
  load_targets_from_file (Some (targets_text pairs)) = pairs.
Proof.
  intros Hall. destruct pairs as [|kv pairs]; [reflexivity|].
  destruct (targets_text_lines (kv :: pairs)) as [Hlines Hcr]; [discriminate | exact Hall |].
  unfold load_targets_from_file.
  rewrite (universal_newlines_no_CR _ Hcr), Hlines, load_targets_lines_acc.
  now rewrite flat_map_stored_lines.
Qed.

Lemma load_targets_appended existing pairs :
  newline_ended existing -> Forall stored_pair pairs ->
  load_targets_from_file (Some (universal_newlines existing +:+ targets_text pairs))
  = (load_targets_from_file (Some existing) ++ pairs)%list.
Proof.
  intros Hend Hall. destruct pairs as [|kv pairs].
  - unfold load_targets_from_file. rewrite app_nil_r.
    rewrite universal_newlines_app by apply universal_newlines_has_no_CR.
    cbn [targets_text map join String.append universal_newlines].
    change (Ascii.eqb LF CR) with false. cbv iota.
    rewrite (splitlines_app_newline_ended _ _ (universal_newlines_keeps_end _ Hend)).
    rewrite !load_targets_lines_acc, flat_map_app. simpl. now rewrite app_nil_r.
  - destruct (targets_text_lines (kv :: pairs)) as [Hlines Hcr]; [discriminate | exact Hall |].
    unfold load_targets_from_file.
    rewrite universal_newlines_app by apply universal_newlines_has_no_CR.
    rewrite (universal_newlines_no_CR _ Hcr).
    rewrite (splitlines_app_newline_ended _ _ (universal_newlines_keeps_end _ Hend)).
    rewrite Hlines, !load_targets_lines_acc, flat_map_app.
    now rewrite flat_map_stored_lines.
Qed.

End FileFacts.

(** * The targets file *)

Section TargetsFile.
Import Py PyStr Shapes mother_agent_targets.

(** X10. Targets saved on a "y" answer are read back by
    [load_targets_from_file]: in overwrite mode the file holds exactly the
    saved pairs; in append mode it holds the pairs it held, then the saved
    ones, provided the old content ended with a line feed. The pairs must be
    as the file stores them: lower-case kind without colon, no surrounding
    whitespace, no line break. *)
Theorem saved_targets_are_loaded pairs a m rest file :
  pairs <> [] -> Forall stored_pair pairs -> lower (strip a) = "y" ->
  (lower (strip m) <> "a" ->
   maybe_save_targets pairs (a :: m :: rest) file = Got (Some (targets_text pairs)) rest /\
   load_targets_from_file (Some (targets_text pairs)) = pairs) /\
  (lower (strip m) = "a" ->
   (forall c, file = Some c -> newline_ended c) ->
   exists text,
     maybe_save_targets pairs (a :: m :: rest) file = Got (Some text) rest /\
     load_targets_from_file (Some text) = (load_targets_from_file file ++ pairs)%list).
Proof.
  intros Hne Hall Ha. split.
  - intros Hm. split; [|now apply load_targets_text].
    unfold maybe_save_targets. destruct pairs as [|kv pairs]; [congruence|].
    cbn [input]. cbv zeta. rewrite Ha. cbn [String.eqb Ascii.eqb Bool.eqb negb].
    destruct (String.eqb_spec (lower (strip m)) "") as [E|E]; [reflexivity|].
    destruct (String.eqb_spec (lower (strip m)) "a"); [contradiction | reflexivity].
  - intros Hm Hend.
    unfold maybe_save_targets. destruct pairs as [|kv pairs]; [congruence|].
    cbn [input]. cbv zeta. rewrite Ha, Hm. cbn [String.eqb Ascii.eqb Bool.eqb negb].
    eexists. split; [reflexivity|].
    destruct file as [c|].
    + apply load_targets_appended; auto.
    + cbn [String.append]. rewrite load_targets_text by assumption. reflexivity.
Qed.

Lemma saved_targets_are_loaded_witness :
  (maybe_save_targets [("email", "a@b.com"); ("username", "alice")] [" Y "; ""; "next"] None
   = Got (Some (targets_text [("email", "a@b.com"); ("username", "alice")])) ["next"] /\
   load_targets_from_file (Some (targets_text [("email", "a@b.com"); ("username", "alice")]))
   = [("email", "a@b.com"); ("username", "alice")]) /\
  exists text,
    maybe_save_targets [("email", "a@b.com"); ("username", "alice")] ["y"; " A"; "next"]
      (Some ("domain: example.com" +:+ String LF ""))
    = Got (Some text) ["next"] /\
    load_targets_from_file (Some text)
    = (load_targets_from_file (Some ("domain: example.com" +:+ String LF ""))
       ++ [("email", "a@b.com"); ("username", "alice")])%list.
Proof.
  assert (Hst : Forall stored_pair [("email", "a@b.com"); ("username", "alice")]).
  { repeat constructor. }
  split.
  - apply (proj1 (saved_targets_are_loaded [("email", "a@b.com"); ("username", "alice")]
                    " Y " "" ["next"] None ltac:(discriminate) Hst eq_refl)).
    discriminate.
  - apply (proj2 (saved_targets_are_loaded [("email", "a@b.com"); ("username", "alice")]
                    "y" " A" ["next"] (Some ("domain: example.com" +:+ String LF ""))
                    ltac:(discriminate) Hst eq_refl)).
    + reflexivity.
    + intros c [= <-]. right. now exists "domain: example.com".
Defined.

Lemma one_line_splitlines_from s : forall cur,
  one_line cur -> Forall one_line (splitlines_from cur s).
Proof.
  unfold one_line.
  induction s as [|c|c d s IHs IHds] using string_ind2; intros cur Hcur.
  - simpl. destruct cur; repeat constructor. exact Hcur.
  - cbn [splitlines_from].
    destruct (Ascii.eqb c CR); [repeat constructor; exact Hcur|].
    destruct (is_linebreak c) eqn:E; [repeat constructor; exact Hcur|].
    assert (H : all_chars not_linebreak (cur +:+ String c "") = true).
    { rewrite all_chars_app, Hcur. simpl. unfold not_linebreak. now rewrite E. }
    destruct (cur +:+ String c ""); repeat constructor. exact H.
  - cbn [splitlines_from]. specialize (IHs "" eq_refl). pose proof (IHds "" eq_refl) as IH0.
    destruct (Ascii.eqb c CR).
    + destruct (Ascii.eqb d LF); constructor; auto.
    + destruct (is_linebreak c) eqn:E; [constructor; auto|].
      apply IHds. rewrite all_chars_app, Hcur. simpl. unfold not_linebreak. now rewrite E.
Qed.

Lemma lower_one_line s : one_line s -> one_line (lower s).
Proof.
  unfold one_line, lower. rewrite all_chars_map_chars. apply all_chars_impl.
  intros c. unfold not_linebreak. now rewrite lower_char_linebreak.
Qed.

(** Whatever the line, the pair read from it is as the file stores pairs. *)
Lemma pair_of_line_stored l :
  one_line l -> Forall stored_pair (pair_of_line l).
Proof.
  intros Hl. unfold pair_of_line. cbn [load_targets_lines]. cbv zeta.
  destruct (String.eqb (strip l) "" || negb (contains ":" (strip l))); [constructor|].
  destruct (split_once ":" (strip l)) as [[k v]|] eqn:E; [|constructor].
  apply split_once_Some in E as [E Hk].
  assert (Hs : one_line (strip l)) by (now apply all_chars_strip).
  unfold one_line in Hs. rewrite E, all_chars_app in Hs.
  apply andb_true_iff in Hs as [Hk1 Hv1]. cbn [all_chars] in Hv1.
  apply andb_true_iff in Hv1 as [_ Hv1].
  repeat constructor; cbn [fst snd].
  - apply lower_idem.
  - now rewrite strip_lower, strip_idem.
  - rewrite contains_colon_lower. apply contains_false_iff, all_chars_strip.
    now apply contains_false_iff.
  - now apply lower_one_line, all_chars_strip.
  - apply strip_idem.
  - now apply all_chars_strip.
Qed.

(** X11. The pairs [load_targets_from_file] returns are always as the file
    stores them: the kind is lower-case and holds no colon, kind and value
    have no surrounding whitespace and no line break. A missing file gives
    no pair. Saving the loaded pairs and loading again gives them back. *)
Theorem loaded_targets_are_stored file :
  Forall stored_pair (load_targets_from_file file) /\
  load_targets_from_file None = [] /\
  load_targets_from_file (Some (targets_text (load_targets_from_file file)))
  = load_targets_from_file file.
Proof.
  assert (H : Forall stored_pair (load_targets_from_file file)).
  { destruct file as [c|]; [|constructor]. unfold load_targets_from_file.
    rewrite load_targets_lines_acc. cbn [app].
    pose proof (one_line_splitlines_from (universal_newlines c) "" eq_refl) as Hl.
    unfold splitlines.
    induction Hl as [|l ls Hl _ IH]; [constructor|].
    cbn [flat_map]. apply Forall_app. split; [now apply pair_of_line_stored | exact IH]. }
  split; [exact H|]. split; [reflexivity|]. now apply load_targets_text.
Qed.

End TargetsFile.

Section RunCaseTargets.
Import Py PyStr Shapes mother_agent_targets run_case_driver.

Ltac str_assoc := repeat (rewrite ?append_assoc; cbn [String.append]); reflexivity.

Lemma strip_all_space s : all_chars isspace s = true -> strip s = "".
Proof. intros H. unfold strip. now rewrite (lstrip_all_space s H). Qed.

Lemma lstrip_kind_head k t : lstrip k = k -> lstrip (k +:+ ":" +:+ t) = k +:+ ":" +:+ t.
Proof.
  intros Hkl. apply lstrip_fixed. destruct k as [|c k]; [reflexivity|].
  simpl in Hkl |- *. destruct (isspace c); [|reflexivity].
  exfalso. assert (Hlen : (String.length (lstrip k) <= String.length k)%nat).
  { clear. induction k as [|d k IH]; simpl; [lia|]. destruct (isspace d); simpl; lia. }
  rewrite Hkl in Hlen. simpl in Hlen. lia.
Qed.

(** A kind, a colon, whitespace, a value, whitespace: the pair of the kind
    and the value. *)
Lemma pair_of_spaced_line k w v b :
  lower k = k -> strip k = k -> contains ":" k = false ->
  all_chars isspace w = true -> strip v = v -> all_chars isspace b = true ->
  pair_of_line (k +:+ ":" +:+ w +:+ v +:+ b) = [(k, v)].
Proof.
  intros Hlow Hk Hcol Hw Hv Hb.
  destruct (strip_fixed_parts k Hk) as [Hkl Hkr].
  destruct (strip_fixed_parts v Hv) as [Hvl Hvr].
  unfold pair_of_line. cbn [load_targets_lines]. cbv zeta.
  assert (Hstrip : strip (k +:+ ":" +:+ w +:+ v +:+ b)
                   = k +:+ String ":" (if String.eqb v "" then "" else w +:+ v)).
  { replace (k +:+ ":" +:+ w +:+ v +:+ b) with ("" +:+ (k +:+ ":" +:+ w +:+ v) +:+ b)
      by str_assoc.
    rewrite strip_app_space by (reflexivity || assumption).
    destruct (String.eqb_spec v "") as [->|Hne].
    - rewrite append_nil_r.
      replace (k +:+ ":" +:+ w) with ("" +:+ (k +:+ ":") +:+ w)
        by str_assoc.
      rewrite strip_app_space by (reflexivity || assumption).
      apply strip_fixed; [apply (lstrip_kind_head k "" Hkl)|].
      now rewrite rstrip_app_fixed by discriminate.
    - apply strip_fixed; [now apply lstrip_kind_head|].
      replace (k +:+ String ":" (w +:+ v)) with ((k +:+ ":" +:+ w) +:+ v)
        by str_assoc.
      rewrite (rstrip_app_fixed (k +:+ ":" +:+ w) v) by (now rewrite Hvr). rewrite Hvr.
      str_assoc. }
  rewrite Hstrip. set (t := if String.eqb v "" then "" else w +:+ v).
  assert (Hne : String.eqb (k +:+ String ":" t) "" = false) by (destruct k; reflexivity).
  rewrite Hne, contains_app. cbn [contains]. rewrite Ascii.eqb_refl, orb_true_r.
  cbn [orb negb]. rewrite (split_once_found ":" k t Hcol), Hk, Hlow.
  replace (strip t) with v; [reflexivity|].
  unfold t. destruct (String.eqb_spec v "") as [->|_]; [reflexivity|].
  replace (w +:+ v) with (w +:+ v +:+ "") by (now rewrite append_nil_r).
  rewrite strip_app_space by (reflexivity || assumption). now rewrite Hv.
Qed.

(** A kind, [": "] and any text: the pair of the kind and the stripped
    text. *)
Lemma pair_of_kind_line k x :
  lower k = k -> strip k = k -> contains ":" k = false ->
  pair_of_line (k +:+ ": " +:+ x) = [(k, strip x)].
Proof.
  intros Hlow Hk Hcol.
  destruct (strip_spec x) as (a & b & Hx & Ha & Hb & _).
  rewrite Hx at 1.
  replace (k +:+ ": " +:+ a +:+ strip x +:+ b)
    with (k +:+ ":" +:+ (" " +:+ a) +:+ strip x +:+ b) by reflexivity.
  apply pair_of_spaced_line; auto using strip_idem.
Qed.

Lemma guess_kind_is_a_kind raw :
  lower (run_case.guess_kind raw) = run_case.guess_kind raw /\
  strip (run_case.guess_kind raw) = run_case.guess_kind raw /\
  contains ":" (run_case.guess_kind raw) = false /\
  one_line (run_case.guess_kind raw).
Proof.
  unfold run_case.guess_kind. cbv zeta.
  destruct (Re.fullmatch _ _); [repeat split|].
  destruct (Re.fullmatch _ _); [repeat split|].
  destruct (_ && _); repeat split.
Qed.

Lemma split_kind_is_a_kind raw k v :
  one_line raw -> split_once ":" raw = Some (k, v) ->
  (lower (lower (strip k)) = lower (strip k) /\
   strip (lower (strip k)) = lower (strip k) /\
   contains ":" (lower (strip k)) = false /\
   one_line (lower (strip k))) /\ one_line (strip v).
Proof.
  intros Hraw E. apply split_once_Some in E as [E Hk].
  unfold one_line in Hraw. rewrite E, all_chars_app in Hraw.
  apply andb_true_iff in Hraw as [Hk1 Hv1]. cbn [all_chars] in Hv1.
  apply andb_true_iff in Hv1 as [_ Hv1].
  repeat split.
  - apply lower_idem.
  - now rewrite strip_lower, strip_idem.
  - rewrite contains_colon_lower. apply contains_false_iff, all_chars_strip.
    now apply contains_false_iff.
  - now apply lower_one_line, all_chars_strip.
  - now apply all_chars_strip.
Qed.

Lemma target_line_spec arg :
  one_line arg ->
  one_line (target_line arg) /\ pair_of_line (target_line arg) = [parsed_target arg].
Proof.
  intros Harg. unfold target_line, parsed_target. cbv zeta.
  set (raw := strip_chars (Ascii.eqb ",") (strip arg)).
  assert (Hraw : one_line raw) by (now apply all_chars_strip_chars, all_chars_strip).
  destruct (split_once ":" raw) as [[k v]|] eqn:E.
  - destruct (split_kind_is_a_kind raw k v Hraw E) as [(H1 & H2 & H3 & H4) H5].
    split.
    + unfold one_line in *. now rewrite !all_chars_app, H4, H5.
    + rewrite pair_of_kind_line by assumption. now rewrite strip_idem.
  - destruct (guess_kind_is_a_kind raw) as (H1 & H2 & H3 & H4).
    split.
    + unfold one_line in *. now rewrite !all_chars_app, H4, Hraw.
    + now apply pair_of_kind_line.
Qed.

(** X12. What [run_case.py] writes to [targets.txt] for its command-line
    targets, [mother_agent.py] reads back as one pair per target, in order:
    the explicit kind in lower case with its value, or the guessed kind with
    the target stripped of surrounding whitespace. The targets must hold no
    line break. *)
Theorem run_case_targets_are_loaded args :
  Forall one_line args ->
  load_targets_from_file (Some (targets_file args)) = map parsed_target args.
Proof.
  intros Hall. destruct args as [|arg args]; [reflexivity|].
  assert (Hlines : Forall one_line (map target_line (arg :: args))).
  { apply List.Forall_map. eapply List.Forall_impl; [|exact Hall].
    intros a Ha. now apply target_line_spec. }
  unfold load_targets_from_file, targets_file.
  rewrite universal_newlines_no_CR.
  - rewrite splitlines_join by (discriminate || assumption).
    rewrite load_targets_lines_acc. cbn [app].
    clear Hlines. induction Hall as [|a l Ha _ IH]; [reflexivity|].
    cbn [map flat_map]. rewrite (proj2 (target_line_spec a Ha)), IH. reflexivity.
  - rewrite all_chars_app, andb_true_r.
    set (ls := map target_line (arg :: args)) in *. clearbody ls.
    induction Hlines as [|x ls Hx Hl IH]; [reflexivity|].
    destruct ls as [|y ls].
    + simpl. now apply one_line_no_CR.
    + change (join (String LF "") (x :: y :: ls))
        with (x +:+ String LF "" +:+ join (String LF "") (y :: ls)).
      rewrite !all_chars_app, (one_line_no_CR x Hx), IH. reflexivity.
Qed.

Lemma run_case_targets_are_loaded_witness :
  Forall one_line ["fastreply@example.com,"; " Email : A@b.com "; "example.com"] /\
  load_targets_from_file
    (Some (targets_file ["fastreply@example.com,"; " Email : A@b.com "; "example.com"]))
  = [("email", "fastreply@example.com"); ("email", "A@b.com"); ("domain", "example.com")].
Proof.
  assert (H : Forall one_line ["fastreply@example.com,"; " Email : A@b.com "; "example.com"])
    by (repeat constructor).
  split; [exact H|].
  exact (run_case_targets_are_loaded _ H).
Defined.

End RunCaseTargets.

Section PromptFacts.
Import Py PyStr Shapes mother_agent_targets.

(** X13. [maybe_save_targets] changes the targets file only with targets to
    save and a first answer that is "y" up to case and surrounding
    whitespace; the file then ends with the text of the pairs. It never
    removes an existing file. *)
Theorem maybe_save_targets_needs_consent pairs stdin file file' rest :
  maybe_save_targets pairs stdin file = Got file' rest ->
  (file' = file \/
   (pairs <> [] /\
    exists a m pre,
      stdin = a :: m :: rest /\ lower (strip a) = "y" /\
      file' = Some (pre +:+ targets_text pairs))) /\
  (file <> None -> file' <> None).
Proof.
  unfold maybe_save_targets. destruct pairs as [|kv pairs].
  - intros [= <- <-]. split; [now left | auto].
  - destruct stdin as [|a stdin1]; [discriminate|]. cbn [input]. cbv zeta.
    destruct (String.eqb_spec (lower (strip a)) "y") as [Ha|Ha]; cbn [negb].
    2: { intros [= <- <-]. split; [now left | auto]. }
    destruct stdin1 as [|m stdin2]; [discriminate|]. cbn [input].
    destruct (String.eqb _ "a").
    + intros [= <- <-]. split; [|discriminate]. right. split; [discriminate|].
      eexists a, m, _. split; [reflexivity|]. split; [exact Ha | reflexivity].
    + intros [= <- <-]. split; [|discriminate]. right. split; [discriminate|].
      exists a, m, "". split; [reflexivity|]. split; [exact Ha | reflexivity].
Qed.

Lemma maybe_save_targets_needs_consent_witness :
  maybe_save_targets [("email", "a@b.com")] ["no"; "a"] (Some "old") = Got (Some "old") ["a"] /\
  ((Some "old" = Some "old" \/
    ([("email", "a@b.com")] <> [] /\
     exists a m pre,
       ["no"; "a"] = a :: m :: ["a"] /\ lower (strip a) = "y" /\
       Some "old" = Some (pre +:+ targets_text [("email", "a@b.com")]))) /\
   (Some "old" <> None -> Some "old" <> None)).
Proof.
  split; [reflexivity|].
  exact (maybe_save_targets_needs_consent [("email", "a@b.com")] ["no"; "a"] (Some "old")
           (Some "old") ["a"] eq_refl).
Defined.

Lemma gather_loop_spec : forall stdin items,
  match gather_targets_interactive_loop stdin items with
  | Got result rest =>
      exists lines blank,
        stdin = (lines ++ blank :: rest)%list /\ typed blank = "" /\
        Forall (fun l => typed l <> "") lines /\
        result = (items ++ map entered lines)%list
  | EOFError => Forall (fun l => typed l <> "") stdin
  end.
Proof.
  induction stdin as [|l stdin IH]; intros items; cbn [gather_targets_interactive_loop].
  - constructor.
  - cbv zeta. fold (typed l).
    destruct (String.eqb_spec (typed l) "") as [E|E].
    + exists [], l. rewrite app_nil_r. repeat split; [exact E | constructor].
    + assert (Hgo :
        match split_once ":" (typed l) with
        | Some (k, v) =>
            gather_targets_interactive_loop stdin (items ++ [(lower (strip k), strip v)])
        | None =>
            gather_targets_interactive_loop stdin
              (items ++ [(mother_agent.guess_kind (typed l), typed l)])
        end = gather_targets_interactive_loop stdin (items ++ [entered l])).
      { unfold entered. now destruct (split_once ":" (typed l)) as [[k v]|]. }
      rewrite Hgo. specialize (IH (items ++ [entered l])%list).
      destruct (gather_targets_interactive_loop stdin (items ++ [entered l])) as [result rest|].
      * destruct IH as (lines & blank & -> & Hb & Hl & ->).
        exists (l :: lines), blank. rewrite <- app_assoc.
        repeat split; auto.
      * now constructor.
Qed.

Lemma lstrip_chars_nil_iff p s : lstrip_chars p s = "" <-> all_chars p s = true.
Proof.
  induction s as [|c s IH]; cbn [lstrip_chars all_chars]; [tauto|].
  destruct (p c); cbn [andb]; [exact IH | split; discriminate].
Qed.

Lemma rstrip_chars_nil_iff p s : rstrip_chars p s = "" <-> all_chars p s = true.
Proof.
  induction s as [|c s IH]; cbn [rstrip_chars all_chars]; [tauto|].
  destruct (rstrip_chars p s) as [|d r].
  - destruct (p c); cbn [andb]; [tauto | split; discriminate].
  - split; [discriminate|]. intros [_ H]%andb_true_iff.
    apply IH in H. discriminate.
Qed.

Lemma strip_chars_nil_iff p s : strip_chars p s = "" <-> all_chars p s = true.
Proof.
  unfold strip_chars. rewrite rstrip_chars_nil_iff. split.
  - intros H. apply lstrip_chars_nil_iff.
    pose proof (lstrip_chars_head p s) as Hh.
    destruct (lstrip_chars p s) as [|c t]; [reflexivity|].
    cbn [all_chars] in H. rewrite Hh in H. discriminate.
  - intros H. now rewrite (proj2 (lstrip_chars_nil_iff p s) H).
Qed.

(** A line ends the entry when its text, without the whitespace around it,
    is empty or made of commas. *)
Lemma typed_blank l : typed l = "" <-> all_chars (Ascii.eqb ",") (strip l) = true.
Proof. apply strip_chars_nil_iff. Qed.

(** X14. [gather_targets_interactive] returns the entries of the lines typed
    before the first closing line and leaves the lines after it unread; a
    line closes the entry when, once the whitespace around it is removed,
    nothing or nothing but commas is left. When the input ends without such
    a line it raises [EOFError] and the entries are lost. A line with a colon
    gives its own kind, in lower case, and is not classified; a line without
    gives the kind [guess_kind] finds, and as value its text without the
    whitespace and then the commas around it. *)
Theorem gather_targets_interactive_spec stdin :
  match gather_targets_interactive stdin with
  | Got items rest =>
      exists lines blank,
        stdin = (lines ++ blank :: rest)%list /\
        all_chars (Ascii.eqb ",") (strip blank) = true /\
        Forall (fun l => all_chars (Ascii.eqb ",") (strip l) = false) lines /\
        items = map entered lines /\
        Forall2 (fun l kv =>
                   match split_once ":" (typed l) with
                   | Some (k, v) => kv = (lower (strip k), strip v)
                   | None => snd kv = strip_chars (Ascii.eqb ",") (strip l) /\
                             In (fst kv) ["email"; "phone"; "domain"; "username"]
                   end) lines items
  | EOFError => Forall (fun l => all_chars (Ascii.eqb ",") (strip l) = false) stdin
  end.
Proof.
  assert (Hnb : forall ls, Forall (fun l => typed l <> "") ls ->
                           Forall (fun l => all_chars (Ascii.eqb ",") (strip l) = false) ls).
  { intros ls. apply List.Forall_impl. intros l Hl.
    destruct (all_chars (Ascii.eqb ",") (strip l)) eqn:E; [|reflexivity].
    apply typed_blank in E. contradiction. }
  unfold gather_targets_interactive. pose proof (gather_loop_spec stdin []) as H.
  destruct (gather_targets_interactive_loop stdin []) as [items rest|]; [|now apply Hnb].
  destruct H as (lines & blank & Hs & Hb & Hl & ->). cbn [app].
  exists lines, blank. split; [exact Hs|]. split; [now apply typed_blank|].
  split; [now apply Hnb|]. split; [reflexivity|].
  clear. induction lines as [|l lines IH]; cbn [map]; constructor; [|exact IH].
  unfold entered. destruct (split_once ":" (typed l)) as [[k v]|]; [reflexivity|].
  cbn [fst snd]. split; [reflexivity|].
  unfold mother_agent.guess_kind. cbv zeta.
  destruct (Re.fullmatch _ _); [simpl; auto|].
  destruct (Re.fullmatch _ _); [simpl; auto|].
  destruct (_ && _); simpl; auto.
Qed.

End PromptFacts.

(** * Names of cases and files *)

Section NameFacts.
Import Py PyStr Shapes mother_agent_targets run_case_driver spiderfoot_agent_files.

Lemma length_lstrip_chars p s : (String.length (lstrip_chars p s) <= String.length s)%nat.
Proof. induction s as [|c s IH]; simpl; [lia|]. destruct (p c); simpl; lia. Qed.

Lemma length_rstrip_chars p s : (String.length (rstrip_chars p s) <= String.length s)%nat.
Proof.
  induction s as [|c s IH]; simpl; [lia|].
  destruct (rstrip_chars p s); [destruct (p c)|]; simpl in *; lia.
Qed.

Lemma length_strip_chars p s : (String.length (strip_chars p s) <= String.length s)%nat.
Proof.
  unfold strip_chars. pose proof (length_rstrip_chars p (lstrip_chars p s)).
  pose proof (length_lstrip_chars p s). lia.
Qed.

Lemma all_chars_true (p : ascii -> bool) s : (forall c, p c = true) -> all_chars p s = true.
Proof.
  intros Hp. induction s as [|c s IH]; cbn [all_chars]; [reflexivity|].
  now rewrite (Hp c), IH.
Qed.

Lemma map_chars_fixed (q : ascii -> bool) f s :
  (forall c, q c = true -> f c = c) -> all_chars q s = true -> map_chars f s = s.
Proof.
  intros Hf. induction s as [|c s IH]; simpl; [reflexivity|].
  intros [Hc Hs]%andb_true_iff. now rewrite (Hf c Hc), IH.
Qed.

Lemma map_chars_map_chars f g s : map_chars f (map_chars g s) = map_chars (fun c => f (g c)) s.
Proof. induction s as [|c s IH]; simpl; [reflexivity | now rewrite IH]. Qed.

Lemma map_chars_ext f g s : (forall c, f c = g c) -> map_chars f s = map_chars g s.
Proof. intros H. induction s as [|c s IH]; simpl; [reflexivity | now rewrite H, IH]. Qed.

(** Stripping does nothing to the image of a stripped string under a map
    that keeps the characters outside the stripped set outside it. *)
Lemma lstrip_chars_map_fixed p f s :
  (forall c, p c = false -> p (f c) = false) ->
  lstrip_chars p s = s -> lstrip_chars p (map_chars f s) = map_chars f s.
Proof.
  intros Hf. destruct s as [|c s]; simpl; [reflexivity|].
  destruct (p c) eqn:Hc.
  - intros E. exfalso. pose proof (length_lstrip_chars p s) as Hl.
    rewrite E in Hl. simpl in Hl. lia.
  - intros _. now rewrite (Hf c Hc).
Qed.

Lemma rstrip_chars_map_fixed p f s :
  (forall c, p c = false -> p (f c) = false) ->
  rstrip_chars p s = s -> rstrip_chars p (map_chars f s) = map_chars f s.
Proof.
  intros Hf. induction s as [|c s IH]; simpl; [reflexivity|].
  destruct (rstrip_chars p s) as [|d r] eqn:E.
  - destruct (p c) eqn:Hc; [discriminate|]. intros [= <-]. simpl. now rewrite (Hf c Hc).
  - intros [= Hs]. rewrite IH by (now rewrite Hs). rewrite <- Hs. reflexivity.
Qed.

Lemma isalnum_not_space c : isalnum c = true -> isspace c = false.
Proof. destruct c as [[] [] [] [] [] [] [] []]; vm_compute; congruence. Qed.

Lemma case_name_char_not_space c : isspace c = false -> isspace (case_name_char c) = false.
Proof. destruct c as [[] [] [] [] [] [] [] []]; vm_compute; congruence. Qed.

Lemma case_name_char_safe c :
  (if Ascii.eqb (case_name_char c) " " then "_"%char else case_name_char c) = safe_char c.
Proof. destruct c as [[] [] [] [] [] [] [] []]; reflexivity. Qed.

Lemma name_char_safe_char c : name_char (safe_char c) = true.
Proof. destruct c as [[] [] [] [] [] [] [] []]; reflexivity. Qed.

Lemma name_char_plain c :
  name_char c = true -> isspace c = false /\ Ascii.eqb c "/" = false /\ safe_char c = c.
Proof. destruct c as [[] [] [] [] [] [] [] []]; vm_compute; intuition congruence. Qed.

(** X15. [ask_case_name] reads one line. A blank line gives the name
    ["case-"] and the time stamp. Any other line gives the stripped line with
    every character that is not alphanumeric, a dot, a dash or an underscore
    replaced by an underscore: one character for each, so the name is never
    empty and the fall-back on the time stamp in the last line is never
    taken; the name holds no whitespace and no slash. *)
Theorem ask_case_name_spec stamp l rest :
  let name := if String.eqb (strip l) "" then "case-" +:+ stamp
              else map_chars safe_char (strip l) in
  ask_case_name stamp (l :: rest) = Got name rest /\
  (0 < String.length name)%nat /\
  (if String.eqb (strip l) "" then True
   else String.length name = String.length (strip l) /\
        all_chars name_char name = true /\
        all_chars (fun c => negb (isspace c)) name = true /\
        contains "/" name = false).
Proof.
  cbv zeta. unfold ask_case_name. cbn [input]. cbv zeta.
  destruct (String.eqb_spec (strip l) "") as [E|E].
  - repeat split. simpl. lia.
  - assert (Hsafe : replace_char " " "_" (strip (map_chars case_name_char (strip l)))
                    = map_chars safe_char (strip l)).
    { destruct (strip_spec l) as (_ & _ & _ & _ & _ & Hl & Hr).
      rewrite lstrip_is_lstrip_chars in Hl. rewrite rstrip_is_rstrip_chars in Hr.
      rewrite strip_is_strip_chars at 1. unfold strip_chars.
      rewrite (lstrip_chars_map_fixed isspace _ _ case_name_char_not_space Hl).
      rewrite (rstrip_chars_map_fixed isspace _ _ case_name_char_not_space Hr).
      unfold replace_char. rewrite map_chars_map_chars.
      apply map_chars_ext, case_name_char_safe. }
    rewrite Hsafe.
    assert (Hlen : String.length (map_chars safe_char (strip l)) = String.length (strip l))
      by apply length_map_chars.
    assert (Hpos : (0 < String.length (strip l))%nat).
    { destruct (strip l); [congruence | simpl; lia]. }
    assert (Hall : all_chars name_char (map_chars safe_char (strip l)) = true).
    { rewrite all_chars_map_chars. apply all_chars_true, name_char_safe_char. }
    destruct (String.eqb_spec (map_chars safe_char (strip l)) "") as [E'|_].
    { rewrite E' in Hlen. simpl in Hlen. lia. }
    repeat split; [lia | exact Hlen | exact Hall | |].
    + eapply all_chars_impl; [|exact Hall]. intros c Hc.
      now rewrite (proj1 (name_char_plain c Hc)).
    + apply contains_false_iff. eapply all_chars_impl; [|exact Hall]. intros c Hc.
      destruct (name_char_plain c Hc) as (_ & Hs & _).
      rewrite Ascii.eqb_sym. now rewrite Hs.
Qed.

Lemma case_id_char_dash : case_id_char "-" = true.
Proof. reflexivity. Qed.

Lemma all_chars_sub_runs s : forall b, all_chars case_id_char (sub_runs b s) = true.
Proof.
  induction s as [|c s IH]; intros b; cbn [sub_runs]; [reflexivity|].
  destruct (case_id_char c) eqn:Hc.
  - cbn [all_chars]. now rewrite Hc, IH.
  - destruct b; [apply IH|]. cbn [all_chars]. now rewrite case_id_char_dash, IH.
Qed.

Lemma length_sub_runs s : forall b, (String.length (sub_runs b s) <= String.length s)%nat.
Proof.
  induction s as [|c s IH]; intros b; cbn [sub_runs String.length]; [lia|].
  destruct (case_id_char c); [|destruct b]; cbn [String.length];
    [specialize (IH false) | specialize (IH true) | specialize (IH true)]; lia.
Qed.

Lemma sub_runs_fixed s : forall b, all_chars case_id_char s = true -> sub_runs b s = s.
Proof.
  induction s as [|c s IH]; intros b; cbn [sub_runs all_chars]; [reflexivity|].
  intros [Hc Hs]%andb_true_iff. rewrite Hc. now rewrite IH.
Qed.

Lemma case_id_char_plain c :
  case_id_char c = true -> isspace c = false /\ Ascii.eqb "/" c = false /\ (code c < 128)%N.
Proof. destruct c as [[] [] [] [] [] [] [] []]; vm_compute; intuition congruence. Qed.

(** X16. The case identifier [run_case.py] derives from its first argument
    holds only ASCII letters, digits, dots, underscores and dashes, hence no
    slash and no whitespace; it neither starts nor ends with a dash, is no
    longer than the argument, and deriving it again changes nothing. An
    argument that is already of this form is kept as it is. *)
Theorem case_id_spec arg :
  all_chars case_id_char (case_id arg) = true /\
  contains "/" (case_id arg) = false /\
  all_chars (fun c => negb (isspace c)) (case_id arg) = true /\
  strip_chars (Ascii.eqb "-") (case_id arg) = case_id arg /\
  (String.length (case_id arg) <= String.length arg)%nat /\
  case_id (case_id arg) = case_id arg /\
  (if all_chars case_id_char arg && String.eqb (strip_chars (Ascii.eqb "-") arg) arg
   then case_id arg = arg else True).
Proof.
  assert (Hall : all_chars case_id_char (case_id arg) = true).
  { unfold case_id. apply all_chars_strip_chars, all_chars_sub_runs. }
  assert (Hfix : strip_chars (Ascii.eqb "-") (case_id arg) = case_id arg).
  { unfold case_id. apply strip_chars_idem. }
  split; [exact Hall|]. split; [|split; [|split; [exact Hfix|split; [|split]]]].
  - apply contains_false_iff. eapply all_chars_impl; [|exact Hall]. intros c Hc.
    destruct (case_id_char_plain c Hc) as (_ & Hs & _). now rewrite Hs.
  - eapply all_chars_impl; [|exact Hall]. intros c Hc.
    now rewrite (proj1 (case_id_char_plain c Hc)).
  - unfold case_id. pose proof (length_strip_chars (Ascii.eqb "-") (sub_runs false arg)).
    pose proof (length_sub_runs arg false). lia.
  - unfold case_id at 1. now rewrite (sub_runs_fixed _ false Hall).
  - destruct (all_chars case_id_char arg) eqn:Ha; [|exact I]. cbn [andb].
    destruct (String.eqb_spec (strip_chars (Ascii.eqb "-") arg) arg) as [Hs|_]; [|exact I].
    unfold case_id. now rewrite (sub_runs_fixed _ false Ha).
Qed.

Lemma slug_ok_slug_char c : slug_ok (slug_char c) = true.
Proof. destruct c as [[] [] [] [] [] [] [] []]; reflexivity. Qed.

Lemma slug_ok_plain c :
  slug_ok c = true -> isspace c = false /\ Ascii.eqb "/" c = false /\ slug_char c = c.
Proof. destruct c as [[] [] [] [] [] [] [] []]; vm_compute; intuition congruence. Qed.

(** X17. The slug the recon agent names its output files with holds only
    alphanumeric characters and the characters [_.-@+], hence no slash and no
    whitespace; it neither starts nor ends with an underscore, is no longer
    than the target, and the slug of a slug is the slug itself. *)
Theorem slug_spec s :
  all_chars slug_ok (slug s) = true /\
  contains "/" (slug s) = false /\
  all_chars (fun c => negb (isspace c)) (slug s) = true /\
  strip_chars (Ascii.eqb "_") (slug s) = slug s /\
  (String.length (slug s) <= String.length s)%nat /\
  slug (slug s) = slug s.
Proof.
  assert (Hall : all_chars slug_ok (slug s) = true).
  { unfold slug. apply all_chars_strip_chars. rewrite all_chars_map_chars.
    apply all_chars_true, slug_ok_slug_char. }
  assert (Hfix : strip_chars (Ascii.eqb "_") (slug s) = slug s).
  { unfold slug. apply strip_chars_idem. }
  split; [exact Hall|]. split; [|split; [|split; [exact Hfix|split]]].
  - apply contains_false_iff. eapply all_chars_impl; [|exact Hall]. intros c Hc.
    destruct (slug_ok_plain c Hc) as (_ & Hs & _). now rewrite Hs.
  - eapply all_chars_impl; [|exact Hall]. intros c Hc.
    now rewrite (proj1 (slug_ok_plain c Hc)).
  - unfold slug. pose proof (length_strip_chars (Ascii.eqb "_") (map_chars slug_char s)).
    rewrite length_map_chars in H. exact H.
  - unfold slug at 1.
    rewrite (map_chars_fixed slug_ok slug_char (slug s)); [exact Hfix | | exact Hall].
    intros c Hc. apply (slug_ok_plain c Hc).
Qed.

End NameFacts.

(** * From the prompt to the next run *)

Section PromptRoundTrip.
Import Py PyStr Shapes mother_agent_targets.

(** A kind as the file keeps it. *)
Lemma load_kind_pairs pairs :
  Forall (fun kv => (lower (fst kv) = fst kv /\ strip (fst kv) = fst kv /\
                     contains ":" (fst kv) = false /\ one_line (fst kv)) /\
                    one_line (snd kv)) pairs ->
  load_targets_from_file (Some (targets_text pairs)) = map reloaded pairs.
Proof.
  intros Hall. destruct pairs as [|kv0 pairs0]; [reflexivity|].
  set (pairs := kv0 :: pairs0) in *.
  assert (Hne : map (fun '(k, v) => k +:+ ": " +:+ v) pairs <> []) by discriminate.
  clearbody pairs. clear kv0 pairs0.
  assert (Hlines : Forall one_line (map (fun '(k, v) => k +:+ ": " +:+ v) pairs)).
  { apply List.Forall_map. eapply List.Forall_impl; [|exact Hall].
    intros [k v] ((_ & _ & _ & Hk) & Hv). cbn [fst snd] in *. unfold one_line in *.
    now rewrite !all_chars_app, Hk, Hv. }
  unfold load_targets_from_file, targets_text.
  rewrite universal_newlines_no_CR.
  - rewrite splitlines_join by assumption.
    rewrite load_targets_lines_acc. cbn [app].
    clear Hlines Hne. induction Hall as [|[k v] l ((H1 & H2 & H3 & _) & _) _ IH]; [reflexivity|].
    cbn [map flat_map fst snd] in *.
    rewrite (pair_of_kind_line k v H1 H2 H3), IH. reflexivity.
  - rewrite all_chars_app, andb_true_r.
    set (ls := map (fun '(k, v) => k +:+ ": " +:+ v) pairs) in *. clearbody ls.
    clear Hne. induction Hlines as [|x ls Hx Hl IH]; [reflexivity|].
    destruct ls as [|y ls].
    + cbn [join]. now apply one_line_no_CR.
    + change (join (String LF "") (x :: y :: ls))
        with (x +:+ String LF "" +:+ join (String LF "") (y :: ls)).
      rewrite !all_chars_app, (one_line_no_CR x Hx), IH. reflexivity.
Qed.

Lemma entered_kind l :
  one_line l ->
  (lower (fst (entered l)) = fst (entered l) /\ strip (fst (entered l)) = fst (entered l) /\
   contains ":" (fst (entered l)) = false /\ one_line (fst (entered l))) /\
  one_line (snd (entered l)).
Proof.
  intros Hl. unfold entered.
  assert (Hraw : one_line (typed l)) by (now apply all_chars_strip_chars, all_chars_strip).
  destruct (split_once ":" (typed l)) as [[k v]|] eqn:E; cbn [fst snd].
  - exact (split_kind_is_a_kind (typed l) k v Hraw E).
  - split; [|exact Hraw].
    change (mother_agent.guess_kind (typed l)) with (run_case.guess_kind (typed l)).
    apply guess_kind_is_a_kind.
Qed.

(** X18. The targets entered at the prompt and saved over the targets file
    are the targets of the next run, which reads the file: the same kinds in
    the same order, each value without the whitespace around it (a value
    keeps such whitespace only where a comma followed it at the prompt). The
    lines typed must hold no line break other than their end. *)
Theorem entered_targets_are_reloaded stdin items a m rest file :
  Forall one_line stdin ->
  gather_targets_interactive stdin = Got items (a :: m :: rest) ->
  items <> [] -> lower (strip a) = "y" -> lower (strip m) <> "a" ->
  maybe_save_targets items (a :: m :: rest) file = Got (Some (targets_text items)) rest /\
  load_targets_from_file (Some (targets_text items)) = map reloaded items.
Proof.
  intros Hstdin Hg Hne Ha Hm. split.
  - unfold maybe_save_targets. destruct items as [|kv items]; [congruence|].
    cbn [input]. cbv zeta. rewrite Ha. cbn [String.eqb Ascii.eqb Bool.eqb negb].
    destruct (String.eqb_spec (lower (strip m)) "") as [E|E]; [reflexivity|].
    destruct (String.eqb_spec (lower (strip m)) "a"); [contradiction | reflexivity].
  - apply load_kind_pairs.
    unfold gather_targets_interactive in Hg.
    pose proof (gather_loop_spec stdin []) as Hspec. rewrite Hg in Hspec.
    destruct Hspec as (lines & blank & -> & _ & _ & ->). cbn [app].
    apply List.Forall_map. apply List.Forall_app in Hstdin as [Hlines _].
    eapply List.Forall_impl; [|exact Hlines]. intros l Hl. now apply entered_kind.
Qed.

Lemma entered_targets_are_reloaded_witness :
  maybe_save_targets [("username", "alice "); ("email", "A@b.com")] ["Y"; ""; "later"] None
  = Got (Some (targets_text [("username", "alice "); ("email", "A@b.com")])) ["later"] /\
  load_targets_from_file (Some (targets_text [("username", "alice "); ("email", "A@b.com")]))
  = [("username", "alice"); ("email", "A@b.com")].
Proof.
  assert (H1 : Forall one_line ["alice ,"; " Email : A@b.com"; " , "; "Y"; ""; "later"])
    by (repeat constructor).
  assert (H2 : gather_targets_interactive ["alice ,"; " Email : A@b.com"; " , "; "Y"; ""; "later"]
               = Got [("username", "alice "); ("email", "A@b.com")] ["Y"; ""; "later"])
    by (vm_compute; reflexivity).
  assert (H3 : [("username", "alice "); ("email", "A@b.com")] <> ([] : list (string * string)))
    by discriminate.
  assert (H4 : lower (strip "Y") = "y") by reflexivity.
  assert (H5 : lower (strip "") <> "a") by discriminate.
  exact (entered_targets_are_reloaded _ _ _ _ _ None H1 H2 H3 H4 H5).
Defined.

End PromptRoundTrip.

(** * The report *)

Section ReportFacts.
Import summary_agent.

(** X19. [truncate(s, n)] with [n] at least 1 returns a text of at most [n]
    characters: [s] itself when it is that short, else the first [n - 1]
    characters of [s] and an ellipsis. *)
Theorem truncate_spec s n :
  (1 <= n)%Z ->
  Z.of_nat (length (truncate s n)) = Z.min (Z.of_nat (length s)) n /\
  (if (Z.of_nat (length s) <=? n)%Z then truncate s n = s
   else truncate s n = (firstn (Z.to_nat (n - 1)) s ++ [ELLIPSIS])%list).
Proof.
  intros Hn. unfold truncate, slice_to.
  destruct (Z.leb_spec (Z.of_nat (length s)) n) as [Hl|Hl].
  - split; [lia | reflexivity].
  - destruct (Z.leb_spec 0 (n - 1)) as [_|]; [|lia].
    split; [|reflexivity].
    rewrite length_app, length_firstn. cbn [length]. lia.
Qed.

Lemma truncate_spec_witness :
  Z.of_nat (length (truncate [72; 101; 108; 108; 111]%N 3)) = Z.min 5 3 /\
  truncate [72; 101; 108; 108; 111]%N 3 = [72; 101; ELLIPSIS]%N.
Proof.
  exact (truncate_spec [72; 101; 108; 108; 111]%N 3 ltac:(lia)).
Defined.

End ReportFacts.
